(** * Preprocessor: hierarchy segmentation, one-hot encoding, splitting, caching

    A shallow embedding of [src/utils/preprocessor.py] (class
    [Preprocessor]) and the properties of its specification.

    Python values are modelled as follows.
    - [str] is [string]; [str.lower] acts on the ASCII letters.
    - a [dict] is an association list in insertion order (Python dicts
      iterate in insertion order and [parents_idx] depends on it);
    - a [set] is the list of its distinct elements in the order they were
      added, together with an iteration order [set_iter] that the language
      leaves unspecified (class [PySetOrder]);
    - exceptions are the constructors of [exn]; a computation that can raise
      returns [exn + A];
    - the file system, the global random generator of torch and the standard
      output form the [world] threaded through the methods that touch them;
    - a Python [float] is an IEEE-754 binary64 number, [spec_float] of the
      standard library with [prec = 53] and [emax = 1024]. *)

From Stdlib Require Import ZArith Lia Ascii String List.
From Stdlib Require Import Floats.SpecFloat.
From stdpp Require Import base list strings gmap sorting.

Open Scope string_scope.
Open Scope list_scope.
Open Scope nat_scope.

(** ** Exceptions *)

Inductive exn : Type :=
| KeyError (key : string)
| ValueError (arg : string)
| IndexError
| TypeError
| OverflowError
| AssertionError
| FileNotFoundError (path : string)
| UnpicklingError (path : string)
| IsADirectoryError (path : string)
| NotADirectoryError (path : string).

(** [type(e).__name__] *)
Definition exn_class (e : exn) : string :=
  match e with
  | KeyError _ => "KeyError"
  | ValueError _ => "ValueError"
  | IndexError => "IndexError"
  | TypeError => "TypeError"
  | OverflowError => "OverflowError"
  | AssertionError => "AssertionError"
  | FileNotFoundError _ => "FileNotFoundError"
  | UnpicklingError _ => "UnpicklingError"
  | IsADirectoryError _ => "IsADirectoryError"
  | NotADirectoryError _ => "NotADirectoryError"
  end.

Definition result (A : Type) : Type := exn + A.
Definition ok {A} (a : A) : result A := inr a.
Definition raise {A} (e : exn) : result A := inl e.

(** No exception was raised. *)
Definition is_ok {A} (r : result A) : bool :=
  match r with
  | inl _ => false
  | inr _ => true
  end.

Definition rbind {A B} (r : result A) (k : A -> result B) : result B :=
  match r with
  | inl e => inl e
  | inr a => k a
  end.

(** ** Strings *)

Module PyStr.

Definition is_upper (c : ascii) : bool :=
  let n := nat_of_ascii c in (65 <=? n) && (n <=? 90).

Definition lower_ascii (c : ascii) : ascii :=
  if is_upper c then ascii_of_nat (nat_of_ascii c + 32) else c.

(** [s.lower()] *)
Fixpoint lower (s : string) : string :=
  match s with
  | EmptyString => EmptyString
  | String c s' => String (lower_ascii c) (lower s')
  end.

(** [s[:-1]] *)
Fixpoint drop_last (s : string) : string :=
  match s with
  | EmptyString => EmptyString
  | String c EmptyString => EmptyString
  | String c s' => String c (drop_last s')
  end.

Definition snoc (s : string) (c : ascii) : string := s +:+ String c EmptyString.

(** [s.split(sep)] for a non-empty [sep]: the text is scanned from the
    left, every occurrence of [sep] found closes the current field and the
    scan resumes after it.  [skip] counts the characters of a found
    separator still to be passed over. *)
Fixpoint split_go (sep : string) (skip : nat) (cur : string) (s : string)
  : list string :=
  match s with
  | EmptyString => [cur]
  | String c s' =>
      match skip with
      | S k => split_go sep k cur s'
      | O =>
          if String.prefix sep s
          then cur :: split_go sep (String.length sep - 1) EmptyString s'
          else split_go sep 0 (snoc cur c) s'
      end
  end.

Definition split (sep : string) (s : string) : list string :=
  split_go sep 0 EmptyString s.

Definition newline : ascii := ascii_of_nat 10.

(** Iterating over a text file yields its lines, each with its
    terminating newline; a last line without one is yielded as it is. *)
Fixpoint lines_go (cur : string) (s : string) : list string :=
  match s with
  | EmptyString => match cur with EmptyString => [] | _ => [cur] end
  | String c s' =>
      if Ascii.eqb c newline
      then snoc cur c :: lines_go EmptyString s'
      else lines_go (snoc cur c) s'
  end.

Definition lines (s : string) : list string := lines_go EmptyString s.

(** ASCII white space, as [str.split()] and [str.isspace] see it. *)
Definition is_space (c : ascii) : bool :=
  let n := nat_of_ascii c in
  ((9 <=? n) && (n <=? 13)) || ((28 <=? n) && (n <=? 32)).

(** [s.split()]: the maximal runs of non-space characters. *)
Fixpoint words_go (cur : string) (s : string) : list string :=
  match s with
  | EmptyString => match cur with EmptyString => [] | _ => [cur] end
  | String c s' =>
      if is_space c
      then match cur with
           | EmptyString => words_go EmptyString s'
           | _ => cur :: words_go EmptyString s'
           end
      else words_go (snoc cur c) s'
  end.

Definition words (s : string) : list string := words_go EmptyString s.

End PyStr.

(** ** Lists *)

Module PyList.

(** [l.index(x)]: position of the first occurrence. *)
Fixpoint index_of (x : string) (l : list string) : option nat :=
  match l with
  | [] => None
  | y :: l' => if decide (x = y) then Some 0 else S <$> index_of x l'
  end.

Definition index (x : string) (l : list string) : result nat :=
  match index_of x l with
  | Some i => ok i
  | None => raise (ValueError x)
  end.

(** [l[i] = v] for [0 <= i]; out of range raises [IndexError]. *)
Definition setitem {A} (l : list A) (i : nat) (v : A) : result (list A) :=
  if decide (i < length l) then ok (<[i := v]> l) else raise IndexError.

(** [[0] * n] *)
Definition zeros (n : nat) : list Z := replicate n 0%Z.

(** [list(enumerate(l))] *)
Definition enumerate {A} (l : list A) : list (nat * A) := imap (fun i x => (i, x)) l.

(** [l[:-1]] *)
Definition drop_last {A} (l : list A) : list A := take (length l - 1) l.

(** [l[a:b]] with Python's treatment of negative and out-of-range bounds. *)
Definition clamp (len : nat) (i : Z) : nat :=
  let j := if (i <? 0)%Z then (i + Z.of_nat len)%Z else i in
  Z.to_nat (Z.min (Z.max j 0) (Z.of_nat len)).

Definition slice {A} (l : list A) (a b : Z) : list A :=
  let lo := clamp (length l) a in
  let hi := clamp (length l) b in
  take (hi - lo) (drop lo l).

(** [pandas.Series.unique().tolist()]: distinct values, first seen first. *)
Fixpoint unique (seen : list string) (l : list string) : list string :=
  match l with
  | [] => []
  | x :: l' => if decide (x ∈ seen) then unique seen l' else x :: unique (x :: seen) l'
  end.

End PyList.

(** ** Sets and dicts *)

(** A Python [set] gives no promise on the order in which it is iterated:
    CPython walks the slots of its hash table and the hash of a [str] is
    salted per process.  [set_iter] is that order; it is only known to
    enumerate the elements once each. *)
Class PySetOrder := {
  set_iter : list string -> list string;
  set_iter_perm : forall l, set_iter l ≡ₚ l
}.

Module PySet.

(** The elements, without repetition, in the order they were added. *)
Definition t := list string.

Definition empty : t := [].

(** [s.add(x)] *)
Definition add (x : string) (s : t) : t :=
  if decide (x ∈ s) then s else s ++ [x].

(** [list(s)] *)
Definition to_list `{PySetOrder} (s : t) : list string := set_iter s.

End PySet.

Module PyDict.

Definition t (V : Type) := list (string * V).

Definition empty {V} : t V := [].

(** [d[k]] read *)
Fixpoint get {V} (d : t V) (k : string) : option V :=
  match d with
  | [] => None
  | (k', v) :: d' => if decide (k = k') then Some v else get d' k
  end.

Definition getitem {V} (d : t V) (k : string) : result V :=
  match get d k with
  | Some v => ok v
  | None => raise (KeyError k)
  end.

(** [d[k] = v]: an existing key keeps its place, a new one goes last. *)
Fixpoint set {V} (d : t V) (k : string) (v : V) : t V :=
  match d with
  | [] => [(k, v)]
  | (k', v') :: d' =>
      if decide (k = k') then (k', v) :: d' else (k', v') :: set d' k v
  end.

(** [list(d.keys())] *)
Definition keys {V} (d : t V) : list string := d.*1.

End PyDict.


(** ** Monadic notation *)

Notation "x <- e ;; k" := (rbind e (fun x => k))
  (at level 100, e at next level, k at level 200, right associativity,
   format "'[v' x  <-  e  ;; '/' k ']'").

(** A loop whose body can raise: the first exception ends it. *)
Fixpoint for_each {A S} (f : S -> A -> result S) (l : list A) (s : S) : result S :=
  match l with
  | [] => ok s
  | x :: l' => s' <- f s x ;; for_each f l' s'
  end.

(** ** IEEE-754 binary64 and Python's [round] *)

Module PyFloat.

Definition prec : Z := 53.
Definition emax : Z := 1024.

(** [float(n)] for an [int]: the nearest double, [OverflowError] beyond the
    range. *)
Definition of_int (n : Z) : result spec_float :=
  match binary_normalize prec emax n 0 false with
  | S754_infinity _ => raise OverflowError
  | f => ok f
  end.

Definition mul (x y : spec_float) : spec_float := SFmul prec emax x y.

(** The literals [0.8] and [0.9]: the doubles nearest to 4/5 and 9/10. *)
Definition lit_0_8 : spec_float := S754_finite false 7205759403792794 (-53).
Definition lit_0_9 : spec_float := S754_finite false 8106479329266893 (-53).

(** Nearest integer to [a / b] for [0 < b], a tie going to the even one. *)
Definition rne_div (a b : Z) : Z :=
  let q := (a / b)%Z in
  match (2 * (a mod b) ?= b)%Z with
  | Lt => q
  | Gt => (q + 1)%Z
  | Eq => if Z.even q then q else (q + 1)%Z
  end.

(** [round(x)] with one argument: the nearest [int], ties to even. *)
Definition round (x : spec_float) : result Z :=
  match x with
  | S754_zero _ => ok 0%Z
  | S754_infinity _ => raise OverflowError
  | S754_nan => raise (ValueError "cannot convert float NaN to integer")
  | S754_finite s m e =>
      ok (cond_Zopp s
            (if (0 <=? e)%Z then (Zpos m * 2 ^ e)%Z
             else rne_div (Zpos m) (2 ^ (- e))))
  end.

(** [round(n * c)] for an [int] [n] and a [float] [c]. *)
Definition round_mul (n : Z) (c : spec_float) : result Z :=
  x <- of_int n ;; round (mul x c).

End PyFloat.

(** ** torch datasets *)

(** A [TensorDataset] pairs the rows of two tensors; a [Subset] selects rows
    of another dataset through a list of indices. *)
Inductive Dataset : Type :=
| TensorDataset (input_ids target : list (list Z))
| Subset (d : Dataset) (indices : list nat).

Definition example : Type := list Z * list Z.

(** [len(d)] *)
Definition ds_len (d : Dataset) : nat :=
  match d with
  | TensorDataset input_ids _ => length input_ids
  | Subset _ indices => length indices
  end.

(** [d[i]] *)
Fixpoint ds_getitem (d : Dataset) (i : nat) : option example :=
  match d with
  | TensorDataset input_ids target =>
      match input_ids !! i, target !! i with
      | Some x, Some y => Some (x, y)
      | _, _ => None
      end
  | Subset d' indices =>
      match indices !! i with
      | Some j => ds_getitem d' j
      | None => None
      end
  end.

(** The rows of the underlying [TensorDataset] a dataset selects, in order. *)
Fixpoint ds_rows (d : Dataset) : list nat :=
  match d with
  | TensorDataset input_ids _ => seq 0 (length input_ids)
  | Subset d' indices => omap (fun j => ds_rows d' !! j) indices
  end.

(** The examples of a dataset, in order. *)
Definition ds_examples (d : Dataset) : list example :=
  omap (ds_getitem d) (seq 0 (ds_len d)).

(** [TensorDataset(a, b)] asserts that both tensors have as many rows. *)
Definition tensor_dataset (input_ids target : list (list Z)) : result Dataset :=
  if decide (length input_ids = length target)
  then ok (TensorDataset input_ids target)
  else raise AssertionError.

(** ** The world: files, random generator, standard output *)

(** [torch.randperm] draws from the global generator; all that is known of
    it is that it returns a permutation of [0 .. n-1]. *)
Class TorchRandom := {
  rng_state : Type;
  randperm : rng_state -> nat -> list nat * rng_state;
  randperm_perm : forall g n, (randperm g n).1 ≡ₚ seq 0 n
}.

(** What a path names: a file, by what was written to it, or a directory.
    A path that is no key of [files] names nothing. *)
Inductive blob : Type :=
| TextFile (content : string)
| TorchFile (d : Dataset)
| PickleFile (h : list (Dataset * Dataset * Dataset))
| Directory.

(** [os.path.dirname(p)] for a relative path: the text before the last
    [/], empty when there is none.  The empty path stands for the
    directory the program runs in, which exists. *)
Fixpoint dirname_go (cur dir : string) (s : string) : string :=
  match s with
  | EmptyString => dir
  | String c s' =>
      if Ascii.eqb c "/"
      then dirname_go (PyStr.snoc cur c) cur s'
      else dirname_go (PyStr.snoc cur c) dir s'
  end.

Definition dirname (p : string) : string := dirname_go EmptyString EmptyString p.

Record world `{TorchRandom} : Type := World {
  files : gmap string blob;
  rng : rng_state;
  stdout : list string
}.

Definition M `{TorchRandom} (A : Type) : Type := world -> result (A * world).

Definition mret `{TorchRandom} {A} (a : A) : M A := fun w => ok (a, w).
Definition mbind `{TorchRandom} {A B} (m : M A) (k : A -> M B) : M B :=
  fun w => match m w with
           | inl e => inl e
           | inr (a, w') => k a w'
           end.
Definition lift `{TorchRandom} {A} (r : result A) : M A :=
  fun w => match r with inl e => inl e | inr a => ok (a, w) end.

Notation "x <~ e ;; k" := (mbind e (fun x => k))
  (at level 100, e at next level, k at level 200, right associativity,
   format "'[v' x  <~  e  ;; '/' k ']'").

Section World.
Context `{TorchRandom}.

(** [print(s)] *)
Definition print (s : string) : M unit :=
  fun w => ok (tt, World _ (files w) (rng w) (stdout w ++ [s])).

(** [os.path.exists(p)] *)
Definition path_exists (p : string) : M bool :=
  fun w => ok (bool_decide (is_Some (files w !! p)), w).

(** [torch.load(p)] *)
Definition torch_load (p : string) : M Dataset :=
  fun w => match files w !! p with
           | None => raise (FileNotFoundError p)
           | Some (TorchFile d) => ok (d, w)
           | Some Directory => raise (IsADirectoryError p)
           | Some _ => raise (UnpicklingError p)
           end.

(** [torch.save(d, p)] and [pickle.dump(h, open(p, "wb"))].  Both open
    the path for writing, which creates the file or replaces it but
    creates no directory: the directory of the path has to exist, or the
    call raises [FileNotFoundError]. *)
Definition write_file (p : string) (b : blob) : M unit :=
  fun w =>
    let target : result (unit * world) :=
      match files w !! p with
      | Some Directory => raise (IsADirectoryError p)
      | _ => ok (tt, World _ (<[p := b]> (files w)) (rng w) (stdout w))
      end in
    if decide (dirname p = EmptyString) then target
    else match files w !! dirname p with
         | Some Directory => target
         | Some _ => raise (NotADirectoryError p)
         | None => raise (FileNotFoundError p)
         end.

(** [open(p, "r")] and the text read through it *)
Definition read_text (p : string) : M string :=
  fun w => match files w !! p with
           | None => raise (FileNotFoundError p)
           | Some (TextFile s) => ok (s, w)
           | Some Directory => raise (IsADirectoryError p)
           | Some _ => raise (ValueError p)
           end.

(** [torch.randperm(n).tolist()] *)
Definition draw_randperm (n : nat) : M (list nat) :=
  fun w => let '(p, g) := randperm (rng w) n in
           ok (p, World _ (files w) g (stdout w)).

End World.

(** A loop in the world. *)
Fixpoint for_each_M `{TorchRandom} {A S} (f : S -> A -> M S) (l : list A) (s : S) : M S :=
  match l with
  | [] => mret s
  | x :: l' => s' <~ f s x ;; for_each_M f l' s'
  end.

(** ** The input table *)

(** A row of the input table.  The table is read by position: column 0 is
    the text, column 3 the path; the column named [leaf] holds the leaf
    label; column 4 is the column [label_idx] that [preprocessing_data]
    appends to a table of four columns.  A missing cell is [None]. *)
Record row : Type := Row {
  col_text : option string;
  col_1 : option string;
  col_leaf : option string;
  col_path : option string
}.

(** A row of [dataset.values.tolist()] once [label_idx] is added. *)
Record sample : Type := Sample {
  data_0 : string;
  data_1 : string;
  data_leaf : string;
  data_3 : string;
  data_4 : nat
}.

(** [dataset.dropna()]: the rows with no missing cell. *)
Definition dropna (t : list row) : list (string * string * string * string) :=
  omap (fun r =>
          match col_text r, col_1 r, col_leaf r, col_path r with
          | Some a, Some b, Some c, Some d => Some (a, b, c, d)
          | _, _, _, _ => None
          end) t.

(** ** The per-parent buckets *)

(** An entry of [segmented_by_hierarchy]: the empty list it starts as, or
    the dict with keys [input_ids] and [hierarchical_target]. *)
Inductive bucket : Type :=
| EmptyList
| Bucket (input_ids hierarchical_target : list (list Z)).

(** [l[i]] read *)
Definition getitem {A} (l : list A) (i : nat) : result A :=
  match l !! i with
  | Some x => ok x
  | None => raise IndexError
  end.

(** ** The class [Preprocessor] *)

Record Preprocessor : Type := {
  batch_size : nat;
  self_dataset : list row;
  num_classes : nat;
  hierarchy_tree : string
}.

(** The character [\n] as a string. *)
Definition nl : string := String PyStr.newline EmptyString.

Definition train_path : string := "datasets/train_set.pt".
Definition valid_path : string := "datasets/valid_set.pt".
Definition test_path : string := "datasets/test_set.pt".
Definition hierarchical_path : string := "datasets/hierarchical_dataset.pkl".

(** The directory of the four paths. *)
Definition datasets_dir : string := "datasets".

Section Preprocessor.
Context `{PySetOrder} `{TorchRandom}.

(** The text cleaner and the tokenizer are external: [data_cleaning] stands
    for the method of that name, [tokenizer name max_length] for the
    [input_ids] the BERT tokenizer returns. *)
Variable data_cleaning : string -> string.
Variable tokenizer : string -> nat -> list Z.

(** *** [generate_hierarchy_segment] *)

(** [try: d[parent].add(node) except: d[parent] = set(); d[parent].add(node)] *)
Definition add_child (d : PyDict.t PySet.t) (parent node : string) : PyDict.t PySet.t :=
  match PyDict.get d parent with
  | Some s => PyDict.set d parent (PySet.add node s)
  | None => PyDict.set d parent (PySet.add node PySet.empty)
  end.

(** [path[:-1].lower().split(" > ")] *)
Definition nodes_of_line (path : string) : list string :=
  PyStr.split " > " (PyStr.lower (PyStr.drop_last path)).

(** The body of [for path in tree]. *)
Definition add_path (d : PyDict.t PySet.t) (path : string) : PyDict.t PySet.t :=
  let nodes := nodes_of_line path in
  fold_left
    (fun d dn =>
       let '(depth, node) := dn in
       if decide (0 < depth)
       then match nodes !! (depth - 1) with
            | Some parent => add_child d parent node
            | None => d
            end
       else d)
    (PyList.enumerate nodes) d.

(** The dict built from the text of the hierarchy file. *)
Definition segment_lines (lines : list string) : PyDict.t PySet.t :=
  fold_left add_path lines PyDict.empty.

Definition generate_hierarchy_segment (self : Preprocessor) : M (PyDict.t PySet.t) :=
  text <~ read_text (hierarchy_tree self) ;;
  mret (segment_lines (PyStr.lines text)).

(** *** [get_max_length] *)

Definition get_max_length (rows : list sample) : result nat :=
  let token_length := map (fun data => length (PyStr.words (data_0 data))) rows in
  match token_length with
  | [] => raise (ValueError "max() arg is an empty sequence")
  | n :: ns => ok (fold_left Nat.max ns n + 10)
  end.

(** *** [data_splitting] *)

(** [torch.utils.data.random_split(d, lengths)] for integer lengths: the
    sum must be [len(d)], one permutation of the indices is drawn and cut
    into consecutive slices [indices[offset - length : offset]].  (Recent
    versions of torch read lengths that sum to 1 as fractions; the only
    lengths [data_splitting] passes that sum to 1 are [[1, 0]], for which
    both readings give the same slices.) *)
Fixpoint accumulate (acc : Z) (lengths : list Z) : list Z :=
  match lengths with
  | [] => []
  | l :: ls => (acc + l)%Z :: accumulate (acc + l)%Z ls
  end.

Definition random_split (d : Dataset) (lengths : list Z) : M (list Dataset) :=
  let total := fold_left Z.add lengths 0%Z in
  if decide (total = Z.of_nat (ds_len d))
  then
    indices <~ draw_randperm (Z.to_nat total) ;;
    mret (map (fun ol => let '(offset, length) := ol in
                         Subset d (PyList.slice indices (offset - length) offset))
              (zip (accumulate 0 lengths) lengths))
  else lift (raise (ValueError "Sum of input lengths does not equal the length of the input dataset!")).

Definition unpack2 {A} (l : list A) : M (A * A) :=
  match l with
  | [a; b] => mret (a, b)
  | _ => lift (raise (ValueError "unpack"))
  end.

(** [torch.tensor] keeps the rows of a list of lists; the rows of one
    list have the same length here (the tokenizer pads to [max_length], a
    one-hot vector of a parent has as many entries as the parent has
    children), so the conversion is the identity. *)
Definition data_splitting (input_ids target : list (list Z))
  : M (Dataset * Dataset * Dataset) :=
  tensor_dataset <~ lift (tensor_dataset input_ids target) ;;
  train_valid_size <~ lift (PyFloat.round_mul (Z.of_nat (ds_len tensor_dataset)) PyFloat.lit_0_8) ;;
  let test_size := (Z.of_nat (ds_len tensor_dataset) - train_valid_size)%Z in
  tt <~ random_split tensor_dataset [train_valid_size; test_size] ;;
  tt <~ unpack2 tt ;;
  let '(train_valid_set, test_set) := tt in
  train_size <~ lift (PyFloat.round_mul (Z.of_nat (ds_len train_valid_set)) PyFloat.lit_0_9) ;;
  let valid_size := (Z.of_nat (ds_len train_valid_set) - train_size)%Z in
  tv <~ random_split train_valid_set [train_size; valid_size] ;;
  tv <~ unpack2 tv ;;
  let '(train_set, valid_set) := tv in
  mret (train_set, valid_set, test_set).

(** *** [preprocessing_data] *)

(** Lines 124 to 128: the one-hot vector over the children of [node]. *)
Definition hierarchical_binary (segmented_parent_child : PyDict.t PySet.t)
    (node child : string) : result (list Z) :=
  s <- PyDict.getitem segmented_parent_child node ;;
  let child_of_parent := PySet.to_list s in
  child_idx <- PyList.index child child_of_parent ;;
  PyList.setitem (PyList.zeros (length child_of_parent)) child_idx 1%Z.

(** The body of [for depth, node in enumerate(nodes[:-1])]. *)
Definition encode_pair (segmented_parent_child : PyDict.t PySet.t)
    (parents_idx : PyDict.t nat) (input_ids : list Z) (nodes : list string)
    (segmented_by_hierarchy : list bucket) (dn : nat * string)
  : result (list bucket) :=
  let '(depth, node) := dn in
  child <- getitem nodes (depth + 1) ;;
  hierarchical_binary <- hierarchical_binary segmented_parent_child node child ;;
  parent_idx <- PyDict.getitem parents_idx node ;;
  b <- getitem segmented_by_hierarchy parent_idx ;;
  let '(ids, targets) :=
    match b with
    | EmptyList => ([], [])
    | Bucket ids targets => (ids, targets)
    end in
  PyList.setitem segmented_by_hierarchy parent_idx
    (Bucket (ids ++ [input_ids]) (targets ++ [hierarchical_binary])).

(** Lines 114 and 115: the one-hot vector over the leaf classes. *)
Definition flat_binary (self : Preprocessor) (data : sample) : result (list Z) :=
  PyList.setitem (PyList.zeros (num_classes self)) (data_4 data) 1%Z.

(** What the loop over the rows carries: the buckets and the flat lists. *)
Definition acc : Type := list bucket * list (list Z) * list (list Z).

(** The body of [for data in dataset.values.tolist()]. *)
Definition encode_row (self : Preprocessor)
    (segmented_parent_child : PyDict.t PySet.t) (parents_idx : PyDict.t nat)
    (max_length : nat) (a : acc) (data : sample) : result acc :=
  let '(segmented_by_hierarchy, flat_input_ids, flat_target) := a in
  let name := data_cleaning (data_0 data) in
  flat_binary <- flat_binary self data ;;
  let input_ids := tokenizer name max_length in
  let nodes := PyStr.split " > " (PyStr.lower (data_3 data)) in
  segmented_by_hierarchy <-
    for_each (encode_pair segmented_parent_child parents_idx input_ids nodes)
             (PyList.enumerate (PyList.drop_last nodes)) segmented_by_hierarchy ;;
  ok (segmented_by_hierarchy, flat_input_ids ++ [input_ids], flat_target ++ [flat_binary]).

(** Lines 102 and 103: the column [label_idx]. *)
Definition with_label_idx (rows : list (string * string * string * string))
  : result (list sample) :=
  let labels_idx := PyList.unique [] (map (fun r => r.1.2) rows) in
  for_each
    (fun out r =>
       let '(a, b, leaf, d) := r in
       i <- PyList.index leaf labels_idx ;;
       ok (out ++ [Sample a b leaf d i]))
    rows [].

(** [{parent: index for index, parent in enumerate(d.keys())}] *)
Definition make_parents_idx (d : PyDict.t PySet.t) : PyDict.t nat :=
  fold_left (fun p ik => PyDict.set p ik.2 ik.1) (PyList.enumerate (PyDict.keys d)) PyDict.empty.

(** The body of [for data in segmented_by_hierarchy]. *)
Definition split_bucket (hierarchical_dataset : list (Dataset * Dataset * Dataset))
    (data : bucket) : M (list (Dataset * Dataset * Dataset)) :=
  match data with
  | EmptyList => lift (raise TypeError)
  | Bucket hierarchical_input_ids hierarchical_target =>
      sets <~ data_splitting hierarchical_input_ids hierarchical_target ;;
      mret (hierarchical_dataset ++ [sets])
  end.

Definition preprocessing_data (self : Preprocessor) (dataset : list row)
  : M (Dataset * Dataset * Dataset) :=
  let dataset := dropna dataset in
  dataset <~ lift (with_label_idx dataset) ;;
  segmented_parent_child <~ generate_hierarchy_segment self ;;
  let parents_idx := make_parents_idx segmented_parent_child in
  let segmented_by_hierarchy := replicate (length parents_idx) EmptyList in
  max_length <~ lift (get_max_length dataset) ;;
  a <~ lift (for_each (encode_row self segmented_parent_child parents_idx max_length)
                      dataset (segmented_by_hierarchy, [], [])) ;;
  let '(segmented_by_hierarchy, flat_input_ids, flat_target) := a in
  hierarchical_dataset <~ for_each_M split_bucket segmented_by_hierarchy [] ;;
  _ <~ write_file hierarchical_path (PickleFile hierarchical_dataset) ;;
  sets <~ data_splitting flat_input_ids flat_target ;;
  let '(train_set, valid_set, test_set) := sets in
  _ <~ write_file train_path (TorchFile train_set) ;;
  _ <~ write_file valid_path (TorchFile valid_set) ;;
  _ <~ write_file test_path (TorchFile test_set) ;;
  mret (train_set, valid_set, test_set).

(** *** [preprocessor] *)

(** The body of [preprocessor], with the call
    [self.preprocessing_data(self.dataset)] as [build]. *)
Definition load_or_build (build : M (Dataset * Dataset * Dataset))
  : M (Dataset * Dataset * Dataset) :=
  e1 <~ path_exists train_path ;;
  e2 <~ (if e1 then path_exists valid_path else mret false) ;;
  e3 <~ (if e2 then path_exists test_path else mret false) ;;
  if e3 then
    _ <~ print (nl +:+ "Loading Data...") ;;
    train_set <~ torch_load train_path ;;
    valid_set <~ torch_load valid_path ;;
    test_set <~ torch_load test_path ;;
    _ <~ print ("[ Loading Completed ]" +:+ nl) ;;
    mret (train_set, valid_set, test_set)
  else
    _ <~ print (nl +:+ "Preprocessing Data...") ;;
    sets <~ build ;;
    _ <~ print ("[ Preprocessing Completed ]" +:+ nl) ;;
    mret sets.

Definition preprocessor (self : Preprocessor) : M (Dataset * Dataset * Dataset) :=
  load_or_build (preprocessing_data self (self_dataset self)).

End Preprocessor.

(** ** Vocabulary of the specification *)

(** The (parent, child) pairs a sequence of nodes passes through. *)
Definition adjacent_pairs (nodes : list string) : list (string * string) :=
  zip nodes (tail nodes).

(** All (parent, child) pairs of a hierarchy file, in reading order. *)
Definition file_pairs (lines : list string) : list (string * string) :=
  flat_map (fun path => adjacent_pairs (nodes_of_line path)) lines.

(** The children of [parent] among some pairs, in order, with repetitions. *)
Definition children_in (parent : string) (pairs : list (string * string)) : list string :=
  omap (fun pc => if decide (pc.1 = parent) then Some pc.2 else None) pairs.

(** The distinct children of [parent] in the order in which the hierarchy
    file first mentions them. *)
Definition first_encounter (lines : list string) (parent : string) : list string :=
  PyList.unique [] (children_in parent (file_pairs lines)).

(** The children of [parent] as [preprocessing_data] lists them:
    [list(segmented_parent_child[parent])]. *)
Definition children_list `{PySetOrder} (lines : list string) (parent : string)
  : option (list string) :=
  PySet.to_list <$> PyDict.get (segment_lines lines) parent.

(** A one-hot vector: [1] at position [i], [0] everywhere else. *)
Definition one_hot_at (v : list Z) (i : nat) : Prop :=
  v !! i = Some 1%Z /\ forall j, j <> i -> j < length v -> v !! j = Some 0%Z.

(** A pair (parent, child) of a path that the parsed hierarchy does not
    hold: the parent is no key, or the child is not among its children. *)
Definition unrecorded (d : PyDict.t PySet.t) (parent child : string) : Prop :=
  match PyDict.get d parent with
  | None => True
  | Some s => child ∉ s
  end.


(** ** Vocabulary of the proofs *)

(** Recording (parent, child) pairs one after the other. *)
Definition record_pairs (pairs : list (string * string)) (d : PyDict.t PySet.t)
  : PyDict.t PySet.t :=
  fold_left (fun d pc => add_child d pc.1 pc.2) pairs d.

(** The column [leaf] of the table without its incomplete rows. *)
Definition leaves (rows : list (string * string * string * string)) : list string :=
  map (fun r => r.1.2) rows.

(** A row with its [label_idx]: the position of its leaf in [labels_idx]. *)
Definition to_sample (labels_idx : list string) (r : string * string * string * string)
  : sample :=
  let '(a, b, leaf, d) := r in
  Sample a b leaf d (default 0 (PyList.index_of leaf labels_idx)).

(** The samples [preprocessing_data] loops over. *)
Definition samples_of (dataset : list row) : list sample :=
  map (to_sample (PyList.unique [] (leaves (dropna dataset)))) (dropna dataset).

(** The nodes of a sample's path: [path.lower().split(" > ")]. *)
Definition path_nodes (path : string) : list string :=
  PyStr.split " > " (PyStr.lower path).

(** [parent] is directly followed by [child] in [nodes]. *)
Definition path_pair (nodes : list string) (parent child : string) : Prop :=
  exists depth, nodes !! depth = Some parent /\ nodes !! S depth = Some child.

(** The exception that belongs to an unrecorded pair: [KeyError] with the
    parent when the parent is no key of the hierarchy, [ValueError] with
    the child when the parent is a key and the child is not among its
    children. *)
Definition lookup_error (d : PyDict.t PySet.t) (parent child : string) (e : exn) : Prop :=
  (PyDict.get d parent = None /\ e = KeyError parent) \/
  (exists s, PyDict.get d parent = Some s /\ (child ∉ s) /\ e = ValueError child).

(** The step of the inner loop at [(depth, node)] meets a recorded pair. *)
Definition pair_good (d : PyDict.t PySet.t) (nodes : list string) (dn : nat * string) : Prop :=
  forall child, nodes !! S dn.1 = Some child -> ~ unrecorded d dn.2 child.

(** The step at [(depth, node)] meets an unrecorded pair and raises [e]. *)
Definition pair_bad (d : PyDict.t PySet.t) (nodes : list string) (dn : nat * string)
    (e : exn) : Prop :=
  exists child, nodes !! dn.1 = Some dn.2 /\ nodes !! S dn.1 = Some child /\
                unrecorded d dn.2 child /\ lookup_error d dn.2 child e.

(** A sample that is encoded: its label fits and its path is recorded. *)
Definition row_good (self : Preprocessor) (d : PyDict.t PySet.t) (data : sample) : Prop :=
  data_4 data < num_classes self /\
  forall p c, path_pair (path_nodes (data_3 data)) p c -> ~ unrecorded d p c.

(** A sample whose encoding raises [e]. *)
Definition row_bad (self : Preprocessor) (d : PyDict.t PySet.t) (data : sample) (e : exn)
  : Prop :=
  (e = IndexError /\ ~ data_4 data < num_classes self) \/
  (data_4 data < num_classes self /\
   exists p c, path_pair (path_nodes (data_3 data)) p c /\ unrecorded d p c /\
               lookup_error d p c e).

(** There is one bucket per parent. *)
Definition acc_ok (d : PyDict.t PySet.t) (a : acc) : Prop :=
  length a.1.1 = length (make_parents_idx d).

(** The sizes the specification gives: [round(0.8 * n)] and
    [round(0.9 * round(0.8 * n))] in exact arithmetic, a tie going to the
    even integer as Python's [round] has it. *)
Definition train_valid_count (n : nat) : nat :=
  Z.to_nat (PyFloat.rne_div (8 * Z.of_nat n) 10).

Definition train_count (n : nat) : nat :=
  Z.to_nat (PyFloat.rne_div (9 * Z.of_nat (train_valid_count n)) 10).

(** ** Set orders and generators to compute with *)

(** The order of an insertion-ordered set. *)
#[export] Instance insertion_order : PySetOrder :=
  {| set_iter := fun l => l; set_iter_perm := fun l => reflexivity l |}.

(** The order of a hash table without collisions: by ascending hash. *)
Definition hash_le (hash : string -> nat) (x y : string) : Prop := hash x <= hash y.

#[export] Instance hash_le_dec hash x y : Decision (hash_le hash x y) :=
  Nat.le_dec (hash x) (hash y).

Definition hash_order (hash : string -> nat) : PySetOrder :=
  {| set_iter := merge_sort (hash_le hash);
     set_iter_perm := merge_sort_Permutation (hash_le hash) |}.

(** A hash that is the code of the first character. *)
Definition first_char_hash (s : string) : nat :=
  match s with
  | EmptyString => 0
  | String c _ => nat_of_ascii c
  end.

(** A generator whose permutations count down. *)
#[export] Instance countdown_generator : TorchRandom :=
  {| rng_state := unit;
     randperm := fun g n => (rev (seq 0 n), g);
     randperm_perm := fun g n => Permutation_sym (Permutation_rev (seq 0 n)) |}.

(** A tokenizer that pads or cuts the character codes to [max_length]. *)
Definition code_tokenizer (name : string) (max_length : nat) : list Z :=
  take max_length
    (map (fun c => Z.of_nat (nat_of_ascii c)) (list_ascii_of_string name)
     ++ replicate max_length 0%Z).

Definition no_cleaning (text : string) : string := text.

Definition empty_world `{TorchRandom} (g : rng_state) : world :=
  World _ ∅ g [].

(** A world that holds the hierarchy file [tree.txt] and an empty
    directory [datasets]. *)
Definition tree_world (text : string) : world :=
  World _ {[ "tree.txt" := TextFile text; datasets_dir := Directory ]} tt [].

(** A [Preprocessor] reading the hierarchy from [tree.txt]. *)
Definition tree_self (rows : list row) (classes : nat) : Preprocessor :=
  {| batch_size := 1; self_dataset := rows; num_classes := classes;
     hierarchy_tree := "tree.txt" |}.

(** A table of one complete row. *)
Definition one_row (text leaf path : string) : list row :=
  [Row (Some text) (Some "-") (Some leaf) (Some path)].


(** A world whose directory [datasets] holds the three datasets of the
    cache and nothing else. *)
Definition cached_world : world :=
  World _ {[ datasets_dir := Directory;
             train_path := TorchFile (TensorDataset [[1%Z]] [[1%Z]]);
             valid_path := TorchFile (TensorDataset [[2%Z]] [[1%Z]]);
             test_path := TorchFile (TensorDataset [[3%Z]] [[1%Z]]) ]} tt [].

(** ** Vocabulary of the further properties *)

(** A string without upper-case ASCII letters. *)
Definition is_lower (s : string) : Prop := PyStr.lower s = s.

(** A row without a missing cell. *)
Definition complete (r : row) : Prop :=
  is_Some (col_text r) /\ is_Some (col_1 r) /\ is_Some (col_leaf r) /\ is_Some (col_path r).

(** What the inner loop does with the pair [(node, child)] once the child
    is read: the rest of the body of the loop. *)
Definition encode_pc `{PySetOrder} (d : PyDict.t PySet.t) (parents_idx : PyDict.t nat)
    (input_ids : list Z) (segmented_by_hierarchy : list bucket) (pc : string * string)
  : result (list bucket) :=
  hierarchical_binary <- hierarchical_binary d pc.1 pc.2 ;;
  parent_idx <- PyDict.getitem parents_idx pc.1 ;;
  b <- getitem segmented_by_hierarchy parent_idx ;;
  let '(ids, targets) :=
    match b with
    | EmptyList => ([], [])
    | Bucket ids targets => (ids, targets)
    end in
  PyList.setitem segmented_by_hierarchy parent_idx
    (Bucket (ids ++ [input_ids]) (targets ++ [hierarchical_binary])).

(** The examples a path adds to the bucket of [k]: one for each place
    where the path passes through [k], with the one-hot vector of the node
    that follows. *)
Definition pair_examples `{PySetOrder} (d : PyDict.t PySet.t) (input_ids : list Z)
    (k : string) (pairs : list (string * string)) : list example :=
  omap (fun pc =>
          if decide (pc.1 = k)
          then match hierarchical_binary d pc.1 pc.2 with
               | inr v => Some (input_ids, v)
               | inl _ => None
               end
          else None) pairs.

(** The examples of the bucket of [k] after the rows [rows]. *)
Definition bucket_examples `{PySetOrder} (data_cleaning : string -> string)
    (tokenizer : string -> nat -> list Z) (d : PyDict.t PySet.t) (max_length : nat)
    (k : string) (rows : list sample) : list example :=
  flat_map (fun data =>
              pair_examples d (tokenizer (data_cleaning (data_0 data)) max_length) k
                (adjacent_pairs (path_nodes (data_3 data)))) rows.

(** The entry of [segmented_by_hierarchy] that holds the examples [es]. *)
Definition bucket_of (es : list example) : bucket :=
  match es with
  | [] => EmptyList
  | _ => Bucket (es.*1) (es.*2)
  end.

(** The buckets hold, parent by parent, the examples [E] gives. *)
Definition buckets_hold (d : PyDict.t PySet.t) (sbh : list bucket)
    (E : string -> list example) : Prop :=
  length sbh = length (make_parents_idx d) /\
  forall k j, PyDict.get (make_parents_idx d) k = Some j -> sbh !! j = Some (bucket_of (E k)).

(** How often a path passes through [k]. *)
Definition passes (k : string) (nodes : list string) : nat :=
  length (filter (fun pc => pc.1 = k) (adjacent_pairs nodes)).

(** The flat target of a sample. *)
Definition flat_one_hot (self : Preprocessor) (data : sample) : list Z :=
  <[data_4 data := 1%Z]> (PyList.zeros (num_classes self)).

(** The three datasets split the examples [es]: the sizes are those of the
    two roundings and the examples are those of [es], each as often. *)
Definition split_of (es : list example) (t : Dataset * Dataset * Dataset) : Prop :=
  ds_len t.1.1 = train_count (length es) /\
  ds_len t.1.1 + ds_len t.1.2 = train_valid_count (length es) /\
  ds_len t.1.1 + ds_len t.1.2 + ds_len t.2 = length es /\
  ds_examples t.1.1 ++ ds_examples t.1.2 ++ ds_examples t.2 ≡ₚ es.

(** How often the paths of [rows] pass through [k]. *)
Definition passages (k : string) (rows : list sample) : nat :=
  sum_list (map (fun data => passes k (path_nodes (data_3 data))) rows).

(** The files after [preprocessing_data] has written its four. *)
Definition written (hs : list (Dataset * Dataset * Dataset))
    (sets : Dataset * Dataset * Dataset) (fs : gmap string blob) : gmap string blob :=
  <[test_path := TorchFile sets.2]>
    (<[valid_path := TorchFile sets.1.2]>
       (<[train_path := TorchFile sets.1.1]>
          (<[hierarchical_path := PickleFile hs]> fs))).

(** The four files can be written: the directory [datasets] exists and
    none of the four paths names a directory. *)
Definition cache_writable (fs : gmap string blob) : Prop :=
  fs !! datasets_dir = Some Directory /\
  Forall (fun p => fs !! p <> Some Directory)
         [hierarchical_path; train_path; valid_path; test_path].

(** Lines 150 to 158 of [preprocessing_data]: what it does once the
    buckets are split. *)
Definition save_datasets `{TorchRandom}
    (hierarchical_dataset : list (Dataset * Dataset * Dataset))
    (flat_input_ids flat_target : list (list Z)) : M (Dataset * Dataset * Dataset) :=
  _ <~ write_file hierarchical_path (PickleFile hierarchical_dataset) ;;
  sets <~ data_splitting flat_input_ids flat_target ;;
  let '(train_set, valid_set, test_set) := sets in
  _ <~ write_file train_path (TorchFile train_set) ;;
  _ <~ write_file valid_path (TorchFile valid_set) ;;
  _ <~ write_file test_path (TorchFile test_set) ;;
  mret (train_set, valid_set, test_set).

(** The flat examples of the rows: token ids and one-hot leaf class. *)
Definition flat_examples (data_cleaning : string -> string)
    (tokenizer : string -> nat -> list Z) (self : Preprocessor) (max_length : nat)
    (rows : list sample) : list example :=
  map (fun data => (tokenizer (data_cleaning (data_0 data)) max_length,
                    flat_one_hot self data)) rows.

(** ** [setup] and the data loaders *)

(** The attributes [setup] assigns; an attribute that was never assigned
    is [None], and reading it raises [AttributeError]. *)
Record attrs : Type := Attrs {
  train_set : option Dataset;
  valid_set : option Dataset;
  test_set : option Dataset
}.

Definition no_attrs : attrs := Attrs None None None.

Inductive attribute_error : Type :=
| AttributeError (name : string).

(** A [DataLoader] as the arguments it is built from; [shuffle] is
    [False] when it is not given.  What torch does with them is not part
    of this file. *)
Record DataLoader : Type := {
  dl_dataset : Dataset;
  dl_batch_size : nat;
  dl_shuffle : bool;
  dl_num_workers : nat
}.

Section Setup.
Context `{PySetOrder} `{TorchRandom}.
Variable data_cleaning : string -> string.
Variable tokenizer : string -> nat -> list Z.
(** [multiprocessing.cpu_count()] *)
Variable cpu_count : nat.

(** [setup(stage)]; [stage] is [None] when it is not given. *)
Definition setup (self : Preprocessor) (a : attrs) (stage : option string) : M attrs :=
  sets <~ preprocessor data_cleaning tokenizer self ;;
  let '(train, valid, test) := sets in
  if decide (stage = Some "fit")
  then mret (Attrs (Some train) (Some valid) (test_set a))
  else if decide (stage = Some "test")
       then mret (Attrs (train_set a) (valid_set a) (Some test))
       else mret a.

Definition train_dataloader (self : Preprocessor) (a : attrs)
  : attribute_error + DataLoader :=
  match train_set a with
  | None => inl (AttributeError "train_set")
  | Some d => inr {| dl_dataset := d; dl_batch_size := batch_size self;
                     dl_shuffle := true; dl_num_workers := cpu_count |}
  end.

Definition val_dataloader (self : Preprocessor) (a : attrs)
  : attribute_error + DataLoader :=
  match valid_set a with
  | None => inl (AttributeError "valid_set")
  | Some d => inr {| dl_dataset := d; dl_batch_size := batch_size self;
                     dl_shuffle := false; dl_num_workers := cpu_count |}
  end.

Definition test_dataloader (self : Preprocessor) (a : attrs)
  : attribute_error + DataLoader :=
  match test_set a with
  | None => inl (AttributeError "test_set")
  | Some d => inr {| dl_dataset := d; dl_batch_size := batch_size self;
                     dl_shuffle := false; dl_num_workers := cpu_count |}
  end.

End Setup.

(** ** [data_cleaning] *)

(** The text is ASCII, as for [PyStr.lower]; the classes [\w], [\d] and
    [\S] are given by their ASCII members.  The stop words and the stemmer
    of Sastrawi are parameters.  [Cleaning.data_cleaning stop_words stem]
    is a cleaner the methods above can be given as [data_cleaning]. *)
Module Cleaning.

(** The code of [c] is from [lo] to [hi]. *)
Definition in_range (lo hi : nat) (c : ascii) : bool :=
  let n := nat_of_ascii c in (lo <=? n) && (n <=? hi).

(** [\d] *)
Definition is_digit (c : ascii) : bool := in_range 48 57 c.

(** [a-z] *)
Definition is_lower_letter (c : ascii) : bool := in_range 97 122 c.

(** [A-Za-z] *)
Definition is_letter (c : ascii) : bool := in_range 65 90 c || is_lower_letter c.

(** [\w] *)
Definition is_word (c : ascii) : bool :=
  is_letter c || is_digit c || Ascii.eqb c "_".

(** [\S] *)
Definition is_nonspace (c : ascii) : bool := negb (PyStr.is_space c).

(** [c] is one of the characters of [s]. *)
Fixpoint one_of (s : string) (c : ascii) : bool :=
  match s with
  | EmptyString => false
  | String x s' => Ascii.eqb c x || one_of s' c
  end.

(** The class [[A-Za-z0-9(),!?\'\-`]]. *)
Definition kept (c : ascii) : bool :=
  is_letter c || is_digit c || one_of "(),!?'-`" c.

(** [string.punctuation] *)
Definition punctuation : string :=
  String "!" (String (ascii_of_nat 34) "#$%&'()*+,-./:;<=>?@[\]^_`{|}~").

(** [re.sub] of a pattern that matches one character, by one character. *)
Fixpoint map_chars (f : ascii -> ascii) (s : string) : string :=
  match s with
  | EmptyString => EmptyString
  | String c s' => String (f c) (map_chars f s')
  end.

(** The characters of a class deleted: [str.translate] with a deletion
    table, and [re.sub] by the empty string of a pattern [c] or [c+] for a
    class [c]. *)
Fixpoint delete_chars (p : ascii -> bool) (s : string) : string :=
  match s with
  | EmptyString => EmptyString
  | String c s' => if p c then delete_chars p s' else String c (delete_chars p s')
  end.

(** The pattern [lit c+] matches at the start of [s]: [lit] is there and
    a character of the class [c] follows it. *)
Definition follows (lit : string) (cls : ascii -> bool) (s : string) : bool :=
  String.prefix lit s &&
  match String.get (String.length lit) s with
  | Some c => cls c
  | None => false
  end.

(** [re.sub(lit c+, '', s)] for a non-empty literal [lit] and a class [c]:
    the text is scanned from the left; where the pattern matches, the
    literal and the longest run of characters of the class after it are
    left out and the scan resumes behind them.  [skip] counts the
    characters of the literal still to pass, [run] tells that a match is
    being left out. *)
Fixpoint sub_go (lit : string) (cls : ascii -> bool) (skip : nat) (run : bool)
    (s : string) : string :=
  match s with
  | EmptyString => EmptyString
  | String c s' =>
      match skip with
      | S k => sub_go lit cls k run s'
      | O =>
          if run && cls c then sub_go lit cls 0 true s'
          else if follows lit cls s
               then sub_go lit cls (String.length lit - 1) true s'
               else String c (sub_go lit cls 0 false s')
      end
  end.

Definition sub_run (lit : string) (cls : ascii -> bool) (s : string) : string :=
  sub_go lit cls 0 false s.

(** [sep.join(ws)] *)
Fixpoint join (sep : string) (ws : list string) : string :=
  match ws with
  | [] => EmptyString
  | [w] => w
  | w :: ws' => w +:+ sep +:+ join sep ws'
  end.

(** [s.lstrip()] *)
Fixpoint lstrip (s : string) : string :=
  match s with
  | EmptyString => EmptyString
  | String c s' => if PyStr.is_space c then lstrip s' else s
  end.

(** [s.rstrip()] *)
Fixpoint rstrip (s : string) : string :=
  match s with
  | EmptyString => EmptyString
  | String c s' =>
      match rstrip s' with
      | EmptyString => if PyStr.is_space c then EmptyString else String c EmptyString
      | r => String c r
      end
  end.

(** [s.strip()] *)
Definition strip (s : string) : string := rstrip (lstrip s).

(** [word not in self.stop_words and len(word) > 1] *)
Definition keep_word (stop_words : list string) (word : string) : bool :=
  bool_decide (word ∉ stop_words) && (1 <? String.length word).

(** The text handed to the stemmer. *)
Definition cleaned (stop_words : list string) (text : string) : string :=
  let text := PyStr.lower text in
  let text := map_chars (fun c => if kept c then c else " "%char) text in
  let text := map_chars (fun c => if Ascii.eqb c PyStr.newline then " "%char else c) text in
  let text := sub_run "@" is_word text in
  let text := sub_run "http" is_nonspace text in
  let text := delete_chars (one_of punctuation) text in
  let text := delete_chars (fun c => Ascii.eqb c "'") text in
  let text := delete_chars is_digit text in
  let text := join " " (filter (fun w => keep_word stop_words w = true) (PyStr.words text)) in
  strip text.

(** [stop_words] is the list of the Sastrawi stop word remover, [stem] the
    Sastrawi stemmer. *)
Definition data_cleaning (stop_words : list string) (stem : string -> string)
    (text : string) : string :=
  stem (cleaned stop_words text).

(** All characters of [s] are of the class [p]. *)
Fixpoint all_chars (p : ascii -> bool) (s : string) : bool :=
  match s with
  | EmptyString => true
  | String c s' => p c && all_chars p s'
  end.

(** What the first substitution writes for [c]. *)
Definition blank (c : ascii) : ascii := if kept c then c else " "%char.

(** Lowercase letters, digits, the eight signs the first substitution
    keeps, and the space it writes. *)
Definition after_blank (c : ascii) : bool :=
  is_lower_letter c || is_digit c || one_of "(),!?'-` " c.

(** A word: not empty and without white space. *)
Definition wordlike (w : string) : Prop :=
  w <> EmptyString /\ all_chars is_nonspace w = true.

(** The steps that do something. *)
Definition live_steps (text : string) : string :=
  delete_chars is_digit
    (delete_chars (one_of punctuation)
       (sub_run "http" is_nonspace (map_chars blank (PyStr.lower text)))).

End Cleaning.

(** ** More inputs to compute with *)

(** A sample, a hierarchy and a world to compute with. *)
Definition ab_sample : sample := Sample "some text" "-" "b" "a > b" 0.
Definition ab_rows : list row := one_row "some text" "b" "a > b".
Definition ab_self : Preprocessor := tree_self ab_rows 1.
Definition ab_world : world := tree_world ("a > b" +:+ nl).

(** A world whose cache holds one of the three files. *)
Definition half_cached_world : world :=
  World _ {[ "tree.txt" := TextFile ("a > b" +:+ nl);
             datasets_dir := Directory;
             train_path := TorchFile (TensorDataset [] []) ]} tt [].

(** A world that holds the hierarchy file [a > b] and no directory. *)
Definition bare_tree_world : world :=
  World _ {[ "tree.txt" := TextFile ("a > b" +:+ nl) ]} tt [].

(** * Facts *)

(** ** Binary64 products and Python's [round]

    For an [int] [n] below [2^49], [round(n * 0.8)] and [round(n * 0.9)]
    computed in binary64 are the nearest integers to [8 n / 10] and
    [9 n / 10], ties to even: the error of the literal and that of the
    product are too small to move the result. *)

Module PyFloatFacts.
Import PyFloat.
Local Open Scope Z_scope.

Lemma digits2_pos_bounds (m : positive) :
  2 ^ (Zpos (digits2_pos m) - 1) <= Zpos m < 2 ^ Zpos (digits2_pos m).
Proof.
  induction m as [m IH | m IH |]; cbn [digits2_pos].
  - rewrite Pos2Z.inj_succ.
    replace (Z.succ (Zpos (digits2_pos m)) - 1) with (Z.succ (Zpos (digits2_pos m) - 1)) by lia.
    rewrite !Z.pow_succ_r by lia. lia.
  - rewrite Pos2Z.inj_succ.
    replace (Z.succ (Zpos (digits2_pos m)) - 1) with (Z.succ (Zpos (digits2_pos m) - 1)) by lia.
    rewrite !Z.pow_succ_r by lia. lia.
  - cbn. lia.
Qed.

Lemma digits2_pos_unique (m : positive) (d : Z) :
  2 ^ (d - 1) <= Zpos m < 2 ^ d -> Zpos (digits2_pos m) = d.
Proof.
  intros [Hlo Hhi].
  pose proof (digits2_pos_bounds m) as [Hlo' Hhi'].
  assert (0 < d) as Hd.
  { destruct (Z.lt_trichotomy d 0) as [Hn | [Hn | Hn]]; [| | lia].
    - rewrite (Z.pow_neg_r 2 d) in Hhi by lia. lia.
    - subst d. cbn in Hhi. lia. }
  destruct (Z.lt_trichotomy (Zpos (digits2_pos m)) d) as [Hlt | [Heq | Hgt]]; [| exact Heq |].
  - assert (2 ^ Zpos (digits2_pos m) <= 2 ^ (d - 1)) by (apply Z.pow_le_mono_r; lia). lia.
  - assert (2 ^ d <= 2 ^ (Zpos (digits2_pos m) - 1)) by (apply Z.pow_le_mono_r; lia). lia.
Qed.

Lemma iter_pos_nat {A} (f : A -> A) (p : positive) (x : A) :
  SpecFloat.iter_pos f p x = Nat.iter (Pos.to_nat p) f x.
Proof.
  revert x. induction p as [p IH | p IH |]; intros x; cbn [SpecFloat.iter_pos].
  - rewrite !IH. rewrite Pos2Nat.inj_xI.
    replace (S (2 * Pos.to_nat p))%nat with (Pos.to_nat p + (Pos.to_nat p + 1))%nat by lia.
    rewrite !Nat.iter_add. cbn. reflexivity.
  - rewrite !IH. rewrite Pos2Nat.inj_xO.
    replace (2 * Pos.to_nat p)%nat with (Pos.to_nat p + Pos.to_nat p)%nat by lia.
    rewrite Nat.iter_add. reflexivity.
  - reflexivity.
Qed.

Lemma shr_1_nonneg (m : Z) (r s : bool) :
  0 <= m ->
  shr_1 (Build_shr_record m r s) = Build_shr_record (m / 2) (Z.odd m) (r || s).
Proof.
  intros Hm. destruct m as [| p | p]; [reflexivity | | lia].
  destruct p as [p | p |]; cbn [shr_1 Z.odd].
  - f_equal. rewrite Pos2Z.inj_xI. apply Z.div_unique with (r := 1); lia.
  - f_equal. rewrite Pos2Z.inj_xO. apply Z.div_unique with (r := 0); lia.
  - reflexivity.
Qed.


(** [rne_div] as the nearest integer. *)
Lemma rne_div_near (a b : Z) :
  0 < b -> - b <= 2 * (b * rne_div a b - a) <= b.
Proof.
  intros Hb. unfold rne_div.
  pose proof (Z.div_mod a b ltac:(lia)) as Hdm.
  pose proof (Z.mod_pos_bound a b Hb) as Hr.
  destruct (Z.compare_spec (2 * (a mod b)) b); [destruct (Z.even (a / b)) | |]; nia.
Qed.

Lemma rne_div_unique (a b x : Z) :
  0 < b -> - b < 2 * (b * x - a) < b -> rne_div a b = x.
Proof.
  intros Hb Hx. unfold rne_div.
  pose proof (Z.div_mod a b ltac:(lia)) as Hdm.
  pose proof (Z.mod_pos_bound a b Hb) as Hr.
  destruct (Z.compare_spec (2 * (a mod b)) b); [destruct (Z.even (a / b)) | |]; nia.
Qed.

Lemma rne_div_tie (a b k : Z) :
  0 < b -> 2 * a = (2 * k + 1) * b -> rne_div a b = if Z.even k then k else k + 1.
Proof.
  intros Hb Ha. unfold rne_div.
  pose proof (Z.div_mod a b ltac:(lia)) as Hdm.
  pose proof (Z.mod_pos_bound a b Hb) as Hr.
  assert (a / b = k) as Hq.
  { symmetry. apply Z.div_unique with (r := a - b * k); nia. }
  rewrite Hq in *.
  destruct (Z.compare_spec (2 * (a mod b)) b); [reflexivity | nia | nia].
Qed.

Lemma shr_iter (m : Z) (k : nat) :
  0 <= m ->
  Nat.iter (S k) shr_1 (Build_shr_record m false false) =
  Build_shr_record (m / 2 ^ Z.of_nat (S k))
    (Z.odd (m / 2 ^ Z.of_nat k))
    (negb (m mod 2 ^ Z.of_nat k =? 0)).
Proof.
  intros Hm. induction k as [| k IH].
  - cbn [Nat.iter]. rewrite shr_1_nonneg by lia.
    change (2 ^ Z.of_nat 0) with 1. change (2 ^ Z.of_nat 1) with 2.
    rewrite Z.div_1_r, Z.mod_1_r. reflexivity.
  - change (Nat.iter (S (S k)) shr_1 ?x) with (shr_1 (Nat.iter (S k) shr_1 x)).
    rewrite IH. rewrite shr_1_nonneg by (apply Z.div_pos; lia).
    rewrite !Nat2Z.inj_succ, !Z.pow_succ_r by lia.
    set (P := 2 ^ Z.of_nat k). assert (0 < P) by (apply Z.pow_pos_nonneg; lia).
    f_equal.
    + rewrite Z.div_div by lia. f_equal. lia.
    + pose proof (Z.div_mod m P ltac:(lia)) as Hdm.
      pose proof (Z.mod_pos_bound m P ltac:(lia)) as Hr.
      destruct (Z.odd (m / P)) eqn:Hodd.
      * apply Z.odd_spec in Hodd. destruct Hodd as [j Hj].
        assert (m mod (2 * P) = P + m mod P) as ->.
        { symmetry. apply Z.mod_unique with (q := j); nia. }
        destruct (Z.eqb_spec (P + m mod P) 0); [lia | reflexivity].
      * assert (Z.even (m / P) = true) as Hev by (rewrite <- Z.negb_odd, Hodd; reflexivity).
        apply Z.even_spec in Hev. destruct Hev as [j Hj].
        assert (m mod (2 * P) = m mod P) as ->.
        { symmetry. apply Z.mod_unique with (q := j); nia. }
        reflexivity.
Qed.

Lemma shr_round (m : Z) (p : positive) :
  0 <= m ->
  let mrs := SpecFloat.iter_pos shr_1 p (Build_shr_record m false false) in
  round_nearest_even (shr_m mrs) (loc_of_shr_record mrs) = rne_div m (2 ^ Zpos p).
Proof.
  intros Hm mrs. subst mrs. rewrite iter_pos_nat.
  destruct (Pos2Nat.is_succ p) as [k Hk]. rewrite Hk.
  rewrite shr_iter by lia.
  replace (Zpos p) with (Z.of_nat (S k)) by lia.
  rewrite Nat2Z.inj_succ, Z.pow_succ_r by lia.
  set (P := 2 ^ Z.of_nat k). assert (0 < P) by (apply Z.pow_pos_nonneg; lia).
  pose proof (Z.div_mod m P ltac:(lia)) as Hdm.
  pose proof (Z.mod_pos_bound m P ltac:(lia)) as Hr.
  cbn [shr_m loc_of_shr_record].
  destruct (Z.odd (m / P)) eqn:Hodd.
  - apply Z.odd_spec in Hodd. destruct Hodd as [j Hj].
    assert (m / (2 * P) = j) as Hq.
    { symmetry. apply Z.div_unique with (r := P + m mod P); nia. }
    assert (m mod (2 * P) = P + m mod P) as Hrem.
    { symmetry. apply Z.mod_unique with (q := j); nia. }
    unfold rne_div. rewrite Hq, Hrem.
    destruct (Z.eqb_spec (m mod P) 0) as [Hz | Hz]; cbn [negb round_nearest_even].
    + rewrite Hz. replace (2 * (P + 0)) with (2 * P) by lia.
      rewrite Z.compare_refl. reflexivity.
    + destruct (Z.compare_spec (2 * (P + m mod P)) (2 * P)); [lia | lia | reflexivity].
  - assert (Z.even (m / P) = true) as Hev by (rewrite <- Z.negb_odd, Hodd; reflexivity).
    apply Z.even_spec in Hev. destruct Hev as [j Hj].
    assert (m / (2 * P) = j) as Hq.
    { symmetry. apply Z.div_unique with (r := m mod P); nia. }
    assert (m mod (2 * P) = m mod P) as Hrem.
    { symmetry. apply Z.mod_unique with (q := j); nia. }
    unfold rne_div. rewrite Hq, Hrem.
    destruct (Z.compare_spec (2 * (m mod P)) (2 * P)); [lia | | lia].
    destruct (Z.eqb_spec (m mod P) 0); reflexivity.
Qed.

Lemma rne_div_double (a b : Z) : 0 < b -> rne_div (2 * a) (2 * b) = rne_div a b.
Proof.
  intros Hb. unfold rne_div.
  pose proof (Z.div_mod a b ltac:(lia)) as Hdm.
  pose proof (Z.mod_pos_bound a b Hb) as Hr.
  assert (2 * a / (2 * b) = a / b) as Hq.
  { symmetry. apply Z.div_unique with (r := 2 * (a mod b)); nia. }
  assert ((2 * a) mod (2 * b) = 2 * (a mod b)) as Hrem.
  { symmetry. apply Z.mod_unique with (q := a / b); nia. }
  rewrite Hq, Hrem.
  destruct (Z.compare_spec (2 * (a mod b)) b), (Z.compare_spec (2 * (2 * (a mod b))) (2 * b));
    try reflexivity; lia.
Qed.

Lemma binary_round_aux_exact (m : positive) (e : Z) :
  Zpos (digits2_pos m) = 53 -> -1074 <= e <= 971 ->
  binary_round_aux prec emax false (Zpos m) e loc_Exact = S754_finite false m e.
Proof.
  intros Hd He.
  unfold binary_round_aux, shr_fexp, fexp, emin, prec, emax.
  cbn [shr_record_of_loc Zdigits2]. rewrite Hd.
  replace (Z.max (53 + e - 53) (3 - 1024 - 53) - e) with 0 by lia.
  cbn [shr shr_m loc_of_shr_record round_nearest_even Zdigits2].
  rewrite Hd.
  replace (Z.max (53 + e - 53) (3 - 1024 - 53) - e) with 0 by lia.
  cbn [shr shr_m].
  destruct (Z.leb_spec e (1024 - 53)); [reflexivity | lia].
Qed.

Lemma rne_div_range (m : positive) (k : positive) :
  Zpos (digits2_pos m) = 53 + Zpos k ->
  2 ^ 52 <= rne_div (Zpos m) (2 ^ Zpos k) <= 2 ^ 53.
Proof.
  intros Hd.
  pose proof (digits2_pos_bounds m) as Hb. rewrite Hd in Hb.
  replace (53 + Zpos k - 1) with (52 + Zpos k) in Hb by lia.
  rewrite !Z.pow_add_r in Hb by lia.
  set (P := 2 ^ Zpos k) in *. assert (0 < P) by (apply Z.pow_pos_nonneg; lia).
  pose proof (rne_div_near (Zpos m) P ltac:(lia)) as Hn.
  set (x := rne_div (Zpos m) P) in *.
  change (2 ^ 52) with 4503599627370496 in *.
  change (2 ^ 53) with 9007199254740992 in *.
  split; nia.
Qed.

Lemma round_binary_round_aux (m k : positive) (e : Z) :
  Zpos (digits2_pos m) = 53 + Zpos k ->
  -1074 <= e + Zpos k -> e + Zpos k + 1 < 0 ->
  PyFloat.round (binary_round_aux prec emax false (Zpos m) e loc_Exact) =
  ok (rne_div (rne_div (Zpos m) (2 ^ Zpos k)) (2 ^ (- (e + Zpos k)))).
Proof.
  intros Hd Hlo Hhi.
  pose proof (rne_div_range m k Hd) as Hrange.
  pose proof (shr_round (Zpos m) k ltac:(lia)) as Hround. cbv zeta in Hround.
  unfold binary_round_aux, shr_fexp, fexp, emin, prec, emax.
  cbn [shr_record_of_loc Zdigits2]. rewrite Hd.
  replace (Z.max (53 + Zpos k + e - 53) (3 - 1024 - 53) - e) with (Zpos k) by lia.
  cbn [shr]. rewrite Hround.
  set (m1 := rne_div (Zpos m) (2 ^ Zpos k)) in *.
  destruct m1 as [| p1 | p1] eqn:Hm1; [cbn in Hrange; lia | | cbn in Hrange; lia].
  cbn [shr_record_of_loc Zdigits2].
  destruct (Z.eq_dec (Zpos p1) (2 ^ 53)) as [Htop | Hnot].
  - assert (Zpos (digits2_pos p1) = 54) as Hd1.
    { apply digits2_pos_unique. rewrite Htop. cbn. lia. }
    rewrite Hd1.
    replace (Z.max (54 + (e + Zpos k) - 53) (3 - 1024 - 53) - (e + Zpos k)) with 1 by lia.
    cbn [shr SpecFloat.iter_pos]. rewrite shr_1_nonneg by lia.
    cbn [shr_m]. rewrite Htop. change (2 ^ 53 / 2) with (Zpos 4503599627370496).
    cbv iota beta.
    destruct (Z.leb_spec (e + Zpos k + 1) (1024 - 53)); [| lia].
    unfold round. destruct (Z.leb_spec 0 (e + Zpos k + 1)); [lia |].
    cbn [cond_Zopp]. f_equal.
    replace (- (e + Zpos k)) with (Z.succ (- (e + Zpos k + 1))) by lia.
    rewrite Z.pow_succ_r by lia.
    change (2 ^ 53) with (2 * 4503599627370496).
    rewrite rne_div_double by (apply Z.pow_pos_nonneg; lia). reflexivity.
  - assert (Zpos (digits2_pos p1) = 53) as Hd1.
    { apply digits2_pos_unique. change (2 ^ (53 - 1)) with (2 ^ 52). lia. }
    rewrite Hd1.
    replace (Z.max (53 + (e + Zpos k) - 53) (3 - 1024 - 53) - (e + Zpos k)) with 0 by lia.
    cbn [shr shr_m].
    destruct (Z.leb_spec (e + Zpos k) (1024 - 53)); [| lia].
    unfold round. destruct (Z.leb_spec 0 (e + Zpos k)); [lia |].
    reflexivity.
Qed.

Lemma double_rounding (M s c num delta T P Q : Z) :
  0 <= M -> 16 <= s -> 0 < T -> 0 < P -> 0 < Q ->
  M * s < T -> P <= T -> T <= 2 * P -> P * Q = s * T ->
  (exists Q', Q = 2 * Q') ->
  10 * c = num * T + delta -> 0 <= delta <= 4 ->
  ((num * M) mod 10 = 5 -> delta <= 2) ->
  rne_div (rne_div (M * s * c) P) Q = rne_div (num * M) 10.
Proof.
  intros HM Hs HT HP HQ HMs HPT HTP HPQ [Q' HQ'] Hc Hdelta Htie.
  set (m := M * s * c).
  assert (10 * m = num * M * (s * T) + delta * (M * s)) as Hm.
  { unfold m. replace (10 * (M * s * c)) with (M * s * (10 * c)) by ring. rewrite Hc. ring. }
  destruct (Z.eq_dec ((num * M) mod 10) 5) as [Heq | Hne].
  - (* a tie: the first rounding is exact enough *)
    specialize (Htie Heq).
    pose proof (Z.div_mod (num * M) 10 ltac:(lia)) as Hdm. rewrite Heq in Hdm.
    set (kappa := num * M / 10) in *.
    assert (rne_div m P = (2 * kappa + 1) * Q') as H1.
    { apply rne_div_unique; [lia |].
      assert (10 * (P * ((2 * kappa + 1) * Q') - m) = - (delta * (M * s))) as Hw.
      { rewrite Z.mul_sub_distr_l, Hm, Hdm.
        replace (10 * (P * ((2 * kappa + 1) * Q'))) with (5 * (2 * kappa + 1) * (P * (2 * Q'))) by ring.
        rewrite <- HQ', HPQ. ring. }
      assert (0 <= delta * (M * s)) by (apply Z.mul_nonneg_nonneg; lia).
      assert (delta * (M * s) <= 2 * (M * s)) by (apply Z.mul_le_mono_nonneg_r; lia).
      lia. }
    rewrite H1.
    rewrite (rne_div_tie ((2 * kappa + 1) * Q') Q kappa) by (try lia; rewrite HQ'; ring).
    rewrite (rne_div_tie (num * M) 10 kappa) by lia.
    reflexivity.
  - pose proof (rne_div_near m P HP) as Hn1.
    set (m1 := rne_div m P) in *.
    pose proof (rne_div_near m1 Q HQ) as Hn2.
    set (R := rne_div m1 Q) in *.
    symmetry. apply rne_div_unique; [lia |].
    assert (-6 < 10 * R - num * M < 6) as Hsix.
    { assert ((10 * R - num * M) * (s * T) =
              delta * (M * s) + 10 * (P * m1 - m) + 10 * (P * (Q * R - m1))) as Hid.
      { rewrite Z.mul_sub_distr_l, (Z.mul_sub_distr_l P).
        replace (P * (Q * R)) with (P * Q * R) by ring. rewrite HPQ. lia. }
      assert (- (5 * (s * T)) <= 10 * (P * (Q * R - m1)) <= 5 * (s * T)) as Hb2.
      { rewrite <- HPQ.
        assert (- (P * Q) <= 2 * (P * (Q * R - m1)) <= P * Q); [| lia].
        replace (2 * (P * (Q * R - m1))) with (P * (2 * (Q * R - m1))) by ring.
        split.
        - replace (- (P * Q)) with (P * (- Q)) by ring. apply Z.mul_le_mono_nonneg_l; lia.
        - apply Z.mul_le_mono_nonneg_l; lia. }
      assert (0 <= delta * (M * s) <= 4 * T) as Hb0.
      { split; [apply Z.mul_nonneg_nonneg; lia |].
        transitivity (4 * (M * s)); [apply Z.mul_le_mono_nonneg_r; lia | lia]. }
      assert (16 * T <= s * T) as HsT by (apply Z.mul_le_mono_nonneg_r; lia).
      split.
      - apply Z.mul_lt_mono_pos_r with (p := s * T); [lia |]. lia.
      - apply Z.mul_lt_mono_pos_r with (p := s * T); [lia |]. lia. }
    pose proof (Z.div_mod (num * M) 10 ltac:(lia)) as Hdm.
    pose proof (Z.mod_pos_bound (num * M) 10 ltac:(lia)) as Hmb.
    clearbody R m1 m. clear - Hsix Hne Hdm Hmb.
    generalize dependent (num * M). intros x. intros.
    generalize dependent (x mod 10). generalize dependent (x / 10). intros. lia.
Qed.

Lemma iter_xO_value (m d : positive) : Zpos (Pos.iter xO m d) = Zpos m * 2 ^ Zpos d.
Proof.
  change (Pos.iter xO m d) with (shift_pos d m).
  rewrite Zpower.shift_pos_correct. rewrite Zpower.Zpower_pos_nat, Zpower.Zpower_nat_Z.
  rewrite positive_nat_Z. lia.
Qed.

Lemma of_int_normal (p : positive) :
  Zpos p < 2 ^ 53 ->
  exists mx a, of_int (Zpos p) = ok (S754_finite false mx (- a)) /\
               0 <= a /\ Zpos mx = Zpos p * 2 ^ a /\ 2 ^ 52 <= Zpos mx < 2 ^ 53.
Proof.
  intros Hp.
  pose proof (digits2_pos_bounds p) as Hb.
  set (d := Zpos (digits2_pos p)) in *.
  assert (1 <= d) as Hd1 by (unfold d; lia).
  assert (d <= 53) as Hd53.
  { destruct (Z.le_gt_cases d 53) as [Hle | Hgt]; [exact Hle |].
    assert (2 ^ 53 <= 2 ^ (d - 1)) by (apply Z.pow_le_mono_r; lia). lia. }
  unfold of_int, binary_normalize, binary_round, shl_align, fexp, emin, prec, emax.
  fold d.
  replace (Z.max (d + 0 - 53) (3 - 1024 - 53) - 0) with (d - 53) by lia.
  replace (Z.max (d + 0 - 53) (3 - 1024 - 53)) with (d - 53) by lia.
  destruct (d - 53) as [| q | q] eqn:Hq; [| lia |].
  - exists p, 0. change (- 0) with 0.
    assert (Zpos (digits2_pos p) = 53) as Hdp by (fold d; lia).
    pose proof (binary_round_aux_exact p 0 Hdp ltac:(lia)) as Hex.
    unfold prec, emax in Hex. rewrite Hex.
    replace d with 53 in Hb by lia.
    repeat split; try lia.
  - exists (Pos.iter xO p q), (Zpos q).
    assert (Zpos (Pos.iter xO p q) = Zpos p * 2 ^ Zpos q) as Hval by apply iter_xO_value.
    assert (2 ^ 52 <= Zpos (Pos.iter xO p q) < 2 ^ 53) as Hrng.
    { rewrite Hval. replace 52 with (d - 1 + Zpos q) by lia.
      replace 53 with (d + Zpos q) by lia.
      rewrite !Z.pow_add_r by lia.
      assert (0 < 2 ^ Zpos q) by (apply Z.pow_pos_nonneg; lia). nia. }
    assert (Zpos (digits2_pos (Pos.iter xO p q)) = 53) as Hdp.
    { apply digits2_pos_unique. change (53 - 1) with 52. exact Hrng. }
    pose proof (binary_round_aux_exact (Pos.iter xO p q) (Zneg q) Hdp ltac:(lia)) as Hex.
    unfold prec, emax in Hex. rewrite Hex.
    change (- Zpos q) with (Zneg q).
    repeat split; try lia.
Qed.

Lemma round_mul_exact (n num delta : Z) (c : positive) :
  0 <= n < 2 ^ 49 ->
  2 ^ 52 <= Zpos c < 2 ^ 53 ->
  10 * Zpos c = num * 2 ^ 53 + delta -> 0 <= delta <= 4 ->
  (forall M, (num * M) mod 10 = 5 -> delta <= 2) ->
  round_mul n (S754_finite false c (-53)) = ok (rne_div (num * n) 10).
Proof.
  intros Hn Hc Hnum Hdelta Htie.
  destruct n as [| p | p]; [| | lia].
  - rewrite Z.mul_0_r. reflexivity.
  - destruct (of_int_normal p) as (mx & a & Hof & Ha & Hmx & Hrng).
    { assert (2 ^ 49 < 2 ^ 53) by (apply Z.pow_lt_mono_r; lia). lia. }
    unfold round_mul. rewrite Hof. cbn [rbind ok].
    unfold mul, SFmul. cbn [xorb].
    assert (4 <= a) as Ha4.
    { destruct (Z.le_gt_cases 4 a) as [Hle | Hgt]; [exact Hle |].
      assert (2 ^ a <= 2 ^ 3) by (apply Z.pow_le_mono_r; lia).
      change (2 ^ 3) with 8 in *. change (2 ^ 49) with 562949953421312 in *.
      change (2 ^ 52) with 4503599627370496 in *. nia. }
    assert (a <= 52) as Ha52.
    { destruct (Z.le_gt_cases a 52) as [Hle | Hgt]; [exact Hle |].
      assert (2 ^ 53 <= 2 ^ a) by (apply Z.pow_le_mono_r; lia). nia. }
    set (s := 2 ^ a) in *. assert (16 <= s).
    { change 16 with (2 ^ 4). apply Z.pow_le_mono_r; lia. }
    assert (2 ^ 104 <= Zpos (mx * c) < 2 ^ 106) as Hprod.
    { rewrite Pos2Z.inj_mul. change (2 ^ 104) with (2 ^ 52 * 2 ^ 52).
      change (2 ^ 106) with (2 ^ 53 * 2 ^ 53). nia. }
    assert (exists k : positive, (Zpos k = 52 \/ Zpos k = 53) /\
                                 Zpos (digits2_pos (mx * c)) = 53 + Zpos k) as (k & Hk & Hd).
    { destruct (Z.lt_ge_cases (Zpos (mx * c)) (2 ^ 105)) as [Hlt | Hge].
      - exists 52%positive. split; [left; reflexivity |].
        apply digits2_pos_unique. change (53 + 52 - 1) with 104. change (53 + 52) with 105. lia.
      - exists 53%positive. split; [right; reflexivity |].
        apply digits2_pos_unique. change (53 + 53 - 1) with 105. change (53 + 53) with 106. lia. }
    rewrite (round_binary_round_aux (mx * c) k (- a + -53) Hd) by lia.
    f_equal. rewrite Pos2Z.inj_mul, Hmx.
    set (q := - (- a + -53 + Zpos k)).
    assert (1 <= q) as Hq by (unfold q; lia).
    assert (0 < 2 ^ Zpos k) as HP by (apply Z.pow_pos_nonneg; lia).
    assert (0 < 2 ^ q) as HQ by (apply Z.pow_pos_nonneg; lia).
    assert (2 ^ Zpos k <= 2 ^ 53) as HPT by (apply Z.pow_le_mono_r; lia).
    assert (2 ^ 53 <= 2 * 2 ^ Zpos k) as HTP.
    { destruct Hk as [-> | ->]; [change (2 ^ 53) with (2 * 2 ^ 52) |]; lia. }
    assert (2 ^ Zpos k * 2 ^ q = s * 2 ^ 53) as HPQ.
    { unfold s. rewrite <- !Z.pow_add_r by lia. f_equal. unfold q. lia. }
    assert (exists Q', 2 ^ q = 2 * Q') as HQ'.
    { exists (2 ^ (q - 1)). rewrite <- Z.pow_succ_r by lia. f_equal. lia. }
    apply double_rounding with (delta := delta) (T := 2 ^ 53);
      solve [assumption | lia | apply Htie].
Qed.

Lemma round_mul_0_8 (n : Z) :
  0 <= n < 2 ^ 49 -> round_mul n lit_0_8 = ok (rne_div (8 * n) 10).
Proof.
  intros Hn. unfold lit_0_8.
  apply round_mul_exact with (delta := 4);
    [exact Hn | cbn; lia | reflexivity | lia | intros M HM].
  pose proof (Z.div_mod (8 * M) 10 ltac:(lia)) as Hdm. rewrite HM in Hdm. lia.
Qed.

Lemma round_mul_0_9 (n : Z) :
  0 <= n < 2 ^ 49 -> round_mul n lit_0_9 = ok (rne_div (9 * n) 10).
Proof.
  intros Hn. unfold lit_0_9.
  apply round_mul_exact with (delta := 2);
    [exact Hn | cbn; lia | reflexivity | lia | intros M HM; lia].
Qed.

End PyFloatFacts.

(** ** Lists, sets and dicts *)

Lemma index_of_Some (x : string) (l : list string) :
  x ∈ l -> exists i, PyList.index_of x l = Some i /\ l !! i = Some x.
Proof.
  induction l as [| y l IH]; intros Hin.
  - inversion Hin.
  - cbn. destruct (decide (x = y)) as [-> | Hne].
    + exists 0. split; reflexivity.
    + apply elem_of_cons in Hin as [Heq | Hin]; [contradiction |].
      destruct (IH Hin) as (i & Hi & Hl). exists (S i). rewrite Hi. split; [reflexivity | exact Hl].
Qed.

Lemma index_of_None (x : string) (l : list string) :
  x ∉ l -> PyList.index_of x l = None.
Proof.
  induction l as [| y l IH]; intros Hin; [reflexivity |].
  cbn. apply not_elem_of_cons in Hin as [Hne Hin].
  destruct (decide (x = y)); [contradiction |]. rewrite (IH Hin). reflexivity.
Qed.


Lemma elem_of_unique (x : string) (seen l : list string) :
  x ∈ PyList.unique seen l <-> x ∈ l /\ x ∉ seen.
Proof.
  revert seen. induction l as [| y l IH]; intros seen; cbn.
  - split; [intros Hx; inversion Hx | intros [Hx _]; inversion Hx].
  - destruct (decide (y ∈ seen)) as [Hy | Hy].
    + rewrite IH, elem_of_cons. split; [tauto |].
      intros [[-> | Hx] Hn]; [contradiction | tauto].
    + rewrite elem_of_cons, IH, !elem_of_cons.
      destruct (decide (x = y)) as [-> | Hne]; [tauto |]. tauto.
Qed.

Lemma NoDup_unique (seen l : list string) : NoDup (PyList.unique seen l).
Proof.
  revert seen. induction l as [| y l IH]; intros seen; cbn; [constructor |].
  destruct (decide (y ∈ seen)); [apply IH |].
  constructor; [| apply IH].
  rewrite elem_of_unique, not_elem_of_cons. tauto.
Qed.

Lemma unique_snoc (seen l : list string) (x : string) :
  PyList.unique seen (l ++ [x]) =
  if decide (x ∈ seen ++ l) then PyList.unique seen l else PyList.unique seen l ++ [x].
Proof.
  revert seen. induction l as [| y l IH]; intros seen; cbn.
  - rewrite app_nil_r. destruct (decide (x ∈ seen)); reflexivity.
  - destruct (decide (y ∈ seen)) as [Hy | Hy].
    + rewrite IH. destruct (decide (x ∈ seen ++ l)) as [H1 | H1],
        (decide (x ∈ seen ++ y :: l)) as [H2 | H2]; try reflexivity; exfalso.
      * apply H2. rewrite elem_of_app, elem_of_cons. apply elem_of_app in H1. tauto.
      * apply H1. rewrite elem_of_app. rewrite elem_of_app, elem_of_cons in H2.
        destruct H2 as [H2 | [-> | H2]]; tauto.
    + rewrite IH. destruct (decide (x ∈ (y :: seen) ++ l)) as [H1 | H1],
        (decide (x ∈ seen ++ y :: l)) as [H2 | H2]; try reflexivity; exfalso.
      * apply H2. rewrite elem_of_app, elem_of_cons. cbn in H1.
        rewrite elem_of_cons, elem_of_app in H1. tauto.
      * apply H1. cbn. rewrite elem_of_cons, elem_of_app.
        rewrite elem_of_app, elem_of_cons in H2. tauto.
Qed.

Lemma unique_snoc_add (l : list string) (x : string) :
  PyList.unique [] (l ++ [x]) = PySet.add x (PyList.unique [] l).
Proof.
  rewrite unique_snoc. unfold PySet.add, PySet.t. cbn [app].
  pose proof (elem_of_unique x [] l) as Hx.
  destruct (decide (x ∈ l)) as [Hl | Hl], (decide (x ∈ PyList.unique [] l)) as [Hu | Hu];
    try reflexivity; exfalso.
  - apply Hu, Hx. split; [exact Hl | apply not_elem_of_nil].
  - apply Hl, Hx, Hu.
Qed.

Lemma dict_get_set {V} (d : PyDict.t V) (k k' : string) (v : V) :
  PyDict.get (PyDict.set d k v) k' = if decide (k' = k) then Some v else PyDict.get d k'.
Proof.
  induction d as [| [k0 v0] d IH]; cbn.
  - destruct (decide (k' = k)); reflexivity.
  - destruct (decide (k = k0)) as [-> | Hne]; cbn.
    + destruct (decide (k' = k0)); reflexivity.
    + destruct (decide (k' = k0)) as [-> | Hne'].
      * destruct (decide (k0 = k)); [congruence | reflexivity].
      * exact IH.
Qed.

Lemma dict_keys_set {V} (d : PyDict.t V) (k : string) (v : V) :
  PyDict.keys (PyDict.set d k v) =
  if decide (k ∈ PyDict.keys d) then PyDict.keys d else PyDict.keys d ++ [k].
Proof.
  unfold PyDict.keys. induction d as [| [k0 v0] d IH]; cbn.
  - destruct (decide (k ∈ [])) as [Hin | _]; [inversion Hin | reflexivity].
  - destruct (decide (k = k0)) as [-> | Hne]; cbn.
    + destruct (decide (k0 ∈ k0 :: d.*1)) as [_ | Hn]; [reflexivity |].
      exfalso. apply Hn. left.
    + rewrite IH. destruct (decide (k ∈ d.*1)) as [H1 | H1],
        (decide (k ∈ k0 :: d.*1)) as [H2 | H2]; try reflexivity; exfalso.
      * apply H2. right. exact H1.
      * apply elem_of_cons in H2 as [? | ?]; contradiction.
Qed.

Lemma dict_get_keys {V} (d : PyDict.t V) (k : string) :
  is_Some (PyDict.get d k) <-> k ∈ PyDict.keys d.
Proof.
  unfold PyDict.keys. induction d as [| [k0 v0] d IH]; cbn.
  - split; [intros [? ?]; discriminate | intros Hin; inversion Hin].
  - destruct (decide (k = k0)) as [-> | Hne].
    + split; [intros _; left | intros _; eexists; reflexivity].
    + rewrite IH, elem_of_cons. tauto.
Qed.

(** ** Hierarchy parsing *)

Lemma enumerate_fold_pairs (nodes pre suf : list string) (x : string) (d : PyDict.t PySet.t) :
  nodes = pre ++ x :: suf ->
  fold_left
    (fun d (dn : nat * string) =>
       let '(depth, node) := dn in
       if decide (0 < depth)
       then match nodes !! (depth - 1) with
            | Some parent => add_child d parent node
            | None => d
            end
       else d)
    (imap (fun i y => (S (length pre) + i, y)) suf) d
  = record_pairs (zip (x :: suf) suf) d.
Proof.
  revert pre x d. induction suf as [| y suf IH]; intros pre x d Hn; [reflexivity |].
  cbn [imap fold_left zip zip_with record_pairs].
  destruct (decide (0 < S (length pre) + 0)) as [_ | Hf]; [| lia].
  replace (S (length pre) + 0 - 1) with (length pre) by lia.
  assert (nodes !! length pre = Some x) as ->.
  { rewrite Hn. rewrite lookup_app_r by lia. rewrite Nat.sub_diag. reflexivity. }
  cbn [fst snd].
  rewrite <- (IH (pre ++ [x]) y).
  - f_equal. apply imap_ext. intros i z _. cbn. f_equal. rewrite length_app. cbn. lia.
  - rewrite Hn, <- app_assoc. reflexivity.
Qed.

Lemma add_path_pairs (d : PyDict.t PySet.t) (path : string) :
  add_path d path = record_pairs (adjacent_pairs (nodes_of_line path)) d.
Proof.
  unfold add_path, adjacent_pairs, PyList.enumerate.
  destruct (nodes_of_line path) as [| x suf] eqn:Hn; [reflexivity |].
  cbn [imap fold_left tail]. destruct (decide (0 < 0)) as [Hf | _]; [lia |].
  exact (enumerate_fold_pairs (x :: suf) [] suf x d eq_refl).
Qed.

Lemma segment_lines_pairs (lines : list string) :
  segment_lines lines = record_pairs (file_pairs lines) PyDict.empty.
Proof.
  unfold segment_lines, file_pairs. generalize (@PyDict.empty PySet.t).
  induction lines as [| path lines IH]; intros d; [reflexivity |].
  cbn [fold_left flat_map]. unfold record_pairs. rewrite fold_left_app.
  rewrite IH, add_path_pairs. reflexivity.
Qed.

Lemma get_add_child (d : PyDict.t PySet.t) (parent node p : string) :
  PyDict.get (add_child d parent node) p =
  if decide (p = parent)
  then Some (PySet.add node (default PySet.empty (PyDict.get d parent)))
  else PyDict.get d p.
Proof.
  unfold add_child. destruct (PyDict.get d parent) as [s |] eqn:Hs;
    rewrite dict_get_set; reflexivity.
Qed.

Lemma children_in_snoc (p a b : string) (pairs : list (string * string)) :
  children_in p (pairs ++ [(a, b)]) =
  children_in p pairs ++ (if decide (a = p) then [b] else []).
Proof.
  unfold children_in. rewrite omap_app. cbn. destruct (decide (a = p)); reflexivity.
Qed.

Lemma record_pairs_get (pairs : list (string * string)) (p : string) :
  PyDict.get (record_pairs pairs PyDict.empty) p =
  match children_in p pairs with
  | [] => None
  | cs => Some (PyList.unique [] cs)
  end.
Proof.
  induction pairs as [| [a b] pairs IH] using rev_ind; [reflexivity |].
  unfold record_pairs in *. rewrite fold_left_app. cbn [fold_left fst snd].
  rewrite get_add_child, children_in_snoc.
  destruct (decide (p = a)) as [-> | Hne].
  - destruct (decide (a = a)) as [_ | Hf]; [| contradiction].
    rewrite IH.
    destruct (children_in a pairs) as [| c cs] eqn:Hcs; [reflexivity |].
    transitivity (Some (PySet.add b (PyList.unique [] (c :: cs)))); [reflexivity |].
    rewrite <- unique_snoc_add. reflexivity.
  - destruct (decide (a = p)) as [Heq | _]; [congruence |].
    rewrite app_nil_r. exact IH.
Qed.

Lemma segment_lines_get (lines : list string) (p : string) :
  PyDict.get (segment_lines lines) p =
  match children_in p (file_pairs lines) with
  | [] => None
  | _ => Some (first_encounter lines p)
  end.
Proof.
  rewrite segment_lines_pairs, record_pairs_get. unfold first_encounter.
  destruct (children_in p (file_pairs lines)); reflexivity.
Qed.

Lemma elem_of_children_in (p c : string) (pairs : list (string * string)) :
  c ∈ children_in p pairs <-> (p, c) ∈ pairs.
Proof.
  unfold children_in. rewrite list_elem_of_omap. split.
  - intros ([a b] & Hin & Hf). cbn in Hf. destruct (decide (a = p)) as [-> | _]; [| discriminate].
    injection Hf as ->. exact Hin.
  - intros Hin. exists (p, c). split; [exact Hin |]. cbn.
    destruct (decide (p = p)); [reflexivity | contradiction].
Qed.

(** ** Strings *)

Lemma snoc_cons (a : ascii) (s : string) (c : ascii) :
  PyStr.snoc (String a s) c = String a (PyStr.snoc s c).
Proof. reflexivity. Qed.

Lemma snoc_not_empty (s : string) (c : ascii) : PyStr.snoc s c <> EmptyString.
Proof. destruct s; discriminate. Qed.

Lemma drop_last_snoc (s : string) (c : ascii) : PyStr.drop_last (PyStr.snoc s c) = s.
Proof.
  induction s as [| a s IH]; [reflexivity |].
  rewrite snoc_cons. cbn [PyStr.drop_last].
  destruct (PyStr.snoc s c) eqn:Hs; [exfalso; exact (snoc_not_empty _ _ Hs) |].
  rewrite IH. reflexivity.
Qed.

Lemma lower_snoc (s : string) (c : ascii) :
  PyStr.lower (PyStr.snoc s c) = PyStr.snoc (PyStr.lower s) (PyStr.lower_ascii c).
Proof.
  induction s as [| a s IH]; [reflexivity |].
  rewrite snoc_cons. cbn [PyStr.lower]. rewrite IH. reflexivity.
Qed.

Lemma length_snoc (s : string) (c : ascii) :
  String.length (PyStr.snoc s c) = S (String.length s).
Proof.
  induction s as [| a s IH]; [reflexivity |].
  rewrite snoc_cons. cbn [String.length]. rewrite IH. reflexivity.
Qed.

Lemma prefix_length (sep s : string) :
  String.prefix sep s = true -> String.length sep <= String.length s.
Proof.
  revert s. induction sep as [| a sep IH]; intros s Hp; [cbn; lia |].
  destruct s as [| b s]; [discriminate |]. cbn in *.
  destruct (ascii_dec a b); [| discriminate]. apply IH in Hp. lia.
Qed.

Lemma prefix_snoc (sep s : string) (c : ascii) :
  String.prefix sep s = true -> String.prefix sep (PyStr.snoc s c) = true.
Proof.
  revert s. induction sep as [| a sep IH]; intros s Hp; [destruct s; reflexivity |].
  destruct s as [| b s]; [discriminate |]. rewrite snoc_cons. cbn in *.
  destruct (ascii_dec a b); [| discriminate]. apply IH. exact Hp.
Qed.

Lemma prefix_snoc_only (sep s : string) (c : ascii) :
  String.prefix sep (PyStr.snoc s c) = true -> String.prefix sep s = false ->
  String.length sep = S (String.length s).
Proof.
  revert s. induction sep as [| a sep IH]; intros s Hp Hn; [destruct s; discriminate |].
  destruct s as [| b s];
    [change (PyStr.snoc EmptyString c) with (String c EmptyString) in Hp
    | rewrite snoc_cons in Hp]; cbn in *.
  - destruct (ascii_dec a c); [| discriminate].
    destruct sep; [reflexivity | cbn in Hp; discriminate Hp].
  - destruct (ascii_dec a b); [| discriminate]. f_equal. apply IH; assumption.
Qed.

Lemma split_go_skip_all (sep : string) (s cur : string) :
  PyStr.split_go sep (String.length s) cur s = [cur].
Proof. induction s as [| a s IH]; [reflexivity | exact IH]. Qed.

Lemma split_go_not_nil (sep : string) (skip : nat) (cur s : string) :
  PyStr.split_go sep skip cur s <> [].
Proof.
  revert skip cur. induction s as [| a s IH]; intros skip cur; [cbn; discriminate |].
  cbn [PyStr.split_go]. destruct skip; [| apply IH].
  destruct (String.prefix sep (String a s)); [discriminate | apply IH].
Qed.

(** Dropping the last character of a text shortens its last field by that
    character and leaves the other fields alone, as long as the character
    does not complete a separator. *)
Lemma split_go_drop_last (sep : string) (c : ascii) (s : string) :
  forall (skip : nat) (cur : string) (ns : list string) (name : string),
    skip <= String.length s ->
    PyStr.split_go sep skip cur (PyStr.snoc s c) = ns ++ [name] ->
    name <> EmptyString ->
    PyStr.split_go sep skip cur s = ns ++ [PyStr.drop_last name].
Proof.
  induction s as [| a s IH]; intros skip cur ns name Hskip Hsplit Hname.
  - cbn in Hskip. assert (skip = 0) as -> by lia.
    change (PyStr.snoc EmptyString c) with (String c EmptyString) in Hsplit.
    cbn [PyStr.split_go] in Hsplit.
    destruct (String.prefix sep (String c EmptyString)) eqn:Hp.
    + destruct ns as [| n0 [| n1 ns]]; cbn [app] in Hsplit.
      * discriminate Hsplit.
      * injection Hsplit as _ Hn. congruence.
      * injection Hsplit as _ _ Hn. destruct ns; discriminate Hn.
    + destruct ns as [| n0 ns]; cbn [app] in Hsplit.
      * injection Hsplit as <-. cbn [PyStr.split_go app]. rewrite drop_last_snoc. reflexivity.
      * injection Hsplit as _ Hn. destruct ns; discriminate Hn.
  - rewrite snoc_cons in Hsplit.
    cbn [PyStr.split_go] in *. destruct skip as [| k].
    + destruct (String.prefix sep (String a s)) eqn:Hp.
      * pose proof (prefix_snoc _ _ c Hp) as Hp'.
        rewrite snoc_cons in Hp'.
        rewrite Hp' in Hsplit.
        destruct ns as [| n0 ns]; cbn in Hsplit.
        { injection Hsplit as _ Hnil. exfalso. exact (split_go_not_nil _ _ _ _ Hnil). }
        injection Hsplit as <- Hrest. cbn. f_equal.
        apply IH; [| exact Hrest | exact Hname].
        apply prefix_length in Hp. cbn in Hp. lia.
      * destruct (String.prefix sep (String a (PyStr.snoc s c))) eqn:Hp'.
        { exfalso. pose proof (prefix_snoc_only sep (String a s) c Hp' Hp) as Hlen.
          cbn in Hlen. rewrite Hlen in Hsplit.
          replace (S (S (String.length s)) - 1) with (String.length (PyStr.snoc s c)) in Hsplit
            by (rewrite length_snoc; lia).
          rewrite split_go_skip_all in Hsplit.
          destruct ns as [| n0 [| n1 ns]]; cbn [app] in Hsplit.
          - discriminate Hsplit.
          - injection Hsplit as _ Hn. congruence.
          - injection Hsplit as _ _ Hn. destruct ns; discriminate Hn. }
        apply IH; [lia | exact Hsplit | exact Hname].
    + apply IH; [cbn in Hskip; lia | exact Hsplit | exact Hname].
Qed.

Lemma split_drop_last (sep s : string) (c : ascii) (ns : list string) (name : string) :
  PyStr.split sep (PyStr.snoc s c) = ns ++ [name] -> name <> EmptyString ->
  PyStr.split sep s = ns ++ [PyStr.drop_last name].
Proof. intros Hs Hn. apply (split_go_drop_last sep c s 0); [lia | exact Hs | exact Hn]. Qed.

Lemma lines_go_last (body cur : string) (c : ascii) :
  c <> PyStr.newline ->
  exists ls l, PyStr.lines_go cur (PyStr.snoc body c) = ls ++ [PyStr.snoc l c].
Proof.
  intros Hc. revert cur. induction body as [| a body IH]; intros cur.
  - change (PyStr.snoc EmptyString c) with (String c EmptyString).
    cbn [PyStr.lines_go].
    destruct (Ascii.eqb_spec c PyStr.newline) as [Heq | _]; [contradiction |].
    exists [], cur. destruct cur; reflexivity.
  - rewrite snoc_cons.
    cbn [PyStr.lines_go]. destruct (Ascii.eqb a PyStr.newline).
    + destruct (IH EmptyString) as (ls & l & Hl). rewrite Hl.
      exists (PyStr.snoc cur a :: ls), l. reflexivity.
    + apply IH.
Qed.

(** ** One-hot vectors *)

Lemma setitem_zeros_one_hot (n i : nat) :
  i < n ->
  exists v, PyList.setitem (PyList.zeros n) i 1%Z = ok v /\ length v = n /\ one_hot_at v i.
Proof.
  intros Hi. unfold PyList.setitem, PyList.zeros.
  rewrite length_replicate. destruct (decide (i < n)) as [_ | Hf]; [| contradiction].
  eexists. split; [reflexivity |]. split; [| split].
  - rewrite length_insert, length_replicate. reflexivity.
  - apply list_lookup_insert_eq. rewrite length_replicate. exact Hi.
  - intros j Hne Hj. rewrite length_insert, length_replicate in Hj.
    rewrite list_lookup_insert_ne by congruence.
    apply lookup_replicate_2. exact Hj.
Qed.

Lemma setitem_zeros_out_of_range (n i : nat) :
  ~ i < n -> PyList.setitem (PyList.zeros n) i 1%Z = raise IndexError.
Proof.
  intros Hi. unfold PyList.setitem, PyList.zeros. rewrite length_replicate.
  destruct (decide (i < n)); [contradiction | reflexivity].
Qed.


(** ** Loops *)

(** What a loop that can raise ends in: every element was processed and
    was [Good], or the exception is the [Bad] one of some element. *)
Lemma for_each_outcome {A S} (f : S -> A -> result S) (l : list A)
    (I : S -> Prop) (Good : A -> Prop) (Bad : A -> exn -> Prop) :
  (forall s x, I s -> x ∈ l ->
     match f s x with inr s' => I s' /\ Good x | inl e => Bad x e end) ->
  forall s, I s ->
    match for_each f l s with
    | inr s' => I s' /\ Forall Good l
    | inl e => exists x, x ∈ l /\ Bad x e
    end.
Proof.
  induction l as [| x l IH]; intros Hstep s Hs.
  - cbn. split; [exact Hs | constructor].
  - cbn. pose proof (Hstep s x Hs ltac:(left)) as Hx.
    destruct (f s x) as [e | s'] eqn:Hf; cbn.
    + exists x. split; [left | exact Hx].
    + destruct Hx as [Hs' Hg].
      assert (forall s x, I s -> x ∈ l ->
                match f s x with inr s' => I s' /\ Good x | inl e => Bad x e end) as Hstep'.
      { intros s0 x0 H0 Hin. apply Hstep; [exact H0 | right; exact Hin]. }
      specialize (IH Hstep' s' Hs').
      destruct (for_each f l s') as [e | s''].
      * destruct IH as (y & Hy & Hb). exists y. split; [right; exact Hy | exact Hb].
      * destruct IH as [HI HF]. split; [exact HI | constructor; assumption].
Qed.

(** ** The column [label_idx] *)

Lemma with_label_idx_go (labels_idx : list string)
    (rows : list (string * string * string * string)) (out : list sample) :
  (forall r, r ∈ rows -> r.1.2 ∈ labels_idx) ->
  for_each
    (fun out r =>
       let '(a, b, leaf, d) := r in
       i <- PyList.index leaf labels_idx ;;
       ok (out ++ [Sample a b leaf d i]))
    rows out
  = ok (out ++ map (to_sample labels_idx) rows).
Proof.
  revert out. induction rows as [| [[[a b] leaf] d] rows IH]; intros out Hin.
  - cbn. rewrite app_nil_r. reflexivity.
  - cbn [for_each]. unfold PyList.index at 1.
    destruct (index_of_Some leaf labels_idx) as (i & Hi & _).
    { apply (Hin (a, b, leaf, d)). left. }
    rewrite Hi. cbn [rbind ok]. rewrite IH.
    + cbn [map to_sample]. rewrite Hi. cbn [default]. rewrite <- app_assoc. reflexivity.
    + intros r Hr. apply Hin. right. exact Hr.
Qed.

Lemma with_label_idx_ok (rows : list (string * string * string * string)) :
  with_label_idx rows = ok (map (to_sample (PyList.unique [] (leaves rows))) rows).
Proof.
  unfold with_label_idx. fold (leaves rows). rewrite with_label_idx_go; [reflexivity |].
  intros r Hr. apply elem_of_unique. split; [| apply not_elem_of_nil].
  unfold leaves. apply list_elem_of_fmap. exists r. split; [reflexivity | exact Hr].
Qed.

(** ** Keys of the parsed hierarchy and [parents_idx] *)

Lemma NoDup_keys_set {V} (d : PyDict.t V) (k : string) (v : V) :
  NoDup (PyDict.keys d) -> NoDup (PyDict.keys (PyDict.set d k v)).
Proof.
  intros Hd. rewrite dict_keys_set. destruct (decide (k ∈ PyDict.keys d)); [exact Hd |].
  apply NoDup_app. split; [exact Hd |]. split.
  - intros x Hx Hk. apply list_elem_of_singleton in Hk. subst. contradiction.
  - apply NoDup_singleton.
Qed.

Lemma NoDup_keys_record_pairs (pairs : list (string * string)) (d : PyDict.t PySet.t) :
  NoDup (PyDict.keys d) -> NoDup (PyDict.keys (record_pairs pairs d)).
Proof.
  revert d. induction pairs as [| [a b] pairs IH]; intros d Hd; [exact Hd |].
  cbn. apply IH. unfold add_child.
  destruct (PyDict.get d a); apply NoDup_keys_set; exact Hd.
Qed.

Lemma NoDup_keys_segment_lines (lines : list string) :
  NoDup (PyDict.keys (segment_lines lines)).
Proof. rewrite segment_lines_pairs. apply NoDup_keys_record_pairs. constructor. Qed.

Lemma parents_idx_go (ks : list string) (n0 : nat) (p : PyDict.t nat) :
  NoDup ks -> (forall k, k ∈ ks -> k ∉ PyDict.keys p) ->
  fold_left (fun p (ik : nat * string) => PyDict.set p ik.2 ik.1)
            (imap (fun i k => (n0 + i, k)) ks) p
  = p ++ imap (fun i k => (k, n0 + i)) ks.
Proof.
  revert n0 p. induction ks as [| k ks IH]; intros n0 p Hnd Hfresh.
  - cbn. rewrite app_nil_r. reflexivity.
  - cbn [imap fold_left fst snd]. apply NoDup_cons in Hnd as [Hk Hnd].
    assert (PyDict.set p k (n0 + 0) = p ++ [(k, n0 + 0)]) as ->.
    { assert (k ∉ PyDict.keys p) as Hkp by (apply Hfresh; left).
      clear - Hkp. unfold PyDict.keys in Hkp. induction p as [| [k0 v0] p IHp]; [reflexivity |].
      cbn in *. apply not_elem_of_cons in Hkp as [Hne Hkp].
      destruct (decide (k = k0)); [contradiction |]. rewrite IHp by exact Hkp. reflexivity. }
    rewrite (imap_ext _ (fun i k => (S n0 + i, k)) ks) by (intros; cbn; f_equal; lia).
    rewrite IH.
    + rewrite <- app_assoc. cbn [app]. do 2 f_equal.
      apply imap_ext. intros. cbn. f_equal. lia.
    + exact Hnd.
    + intros k' Hk'. unfold PyDict.keys. rewrite fmap_app. cbn.
      rewrite elem_of_app, list_elem_of_singleton. intros [Hin | ->].
      * apply (Hfresh k'); [right; exact Hk' | exact Hin].
      * contradiction.
Qed.

Lemma make_parents_idx_eq (d : PyDict.t PySet.t) :
  NoDup (PyDict.keys d) ->
  make_parents_idx d = imap (fun i k => (k, i)) (PyDict.keys d).
Proof.
  intros Hnd. unfold make_parents_idx, PyList.enumerate.
  apply (parents_idx_go (PyDict.keys d) 0 PyDict.empty Hnd).
  intros k _. apply not_elem_of_nil.
Qed.

Lemma get_imap_keys (ks : list string) (n0 : nat) (k : string) :
  k ∈ ks ->
  exists i, PyDict.get (imap (fun i k => (k, n0 + i)) ks) k = Some (n0 + i) /\ i < length ks.
Proof.
  revert n0. induction ks as [| k0 ks IH]; intros n0 Hin; [inversion Hin |].
  cbn [imap PyDict.get]. destruct (decide (k = k0)) as [-> | Hne].
  - exists 0. split; [reflexivity | cbn; lia].
  - apply elem_of_cons in Hin as [? | Hin]; [contradiction |].
    destruct (IH (S n0) Hin) as (i & Hi & Hlt). exists (S i). split; [| cbn; lia].
    rewrite (imap_ext _ (fun i k => (k, S n0 + i)) ks) by (intros; cbn; f_equal; lia).
    rewrite Hi. f_equal. lia.
Qed.

Lemma parents_idx_lookup (d : PyDict.t PySet.t) (k : string) :
  NoDup (PyDict.keys d) -> is_Some (PyDict.get d k) ->
  exists i, PyDict.get (make_parents_idx d) k = Some i /\ i < length (make_parents_idx d).
Proof.
  intros Hnd Hk. rewrite make_parents_idx_eq by exact Hnd.
  apply dict_get_keys in Hk.
  destruct (get_imap_keys (PyDict.keys d) 0 k Hk) as (i & Hi & Hlt).
  exists i. split; [exact Hi |]. rewrite length_imap. exact Hlt.
Qed.

Section Encoding.
Context `{PySetOrder}.

Lemma to_list_length (s : PySet.t) : length (PySet.to_list s) = length s.
Proof. unfold PySet.to_list. apply Permutation_length, set_iter_perm. Qed.

Lemma elem_of_to_list (x : string) (s : PySet.t) : x ∈ PySet.to_list s <-> x ∈ s.
Proof. unfold PySet.to_list. rewrite set_iter_perm. reflexivity. Qed.

Lemma hierarchical_binary_recorded (d : PyDict.t PySet.t) (node child : string) (s : PySet.t) :
  PyDict.get d node = Some s -> child ∈ s ->
  exists i v, PyList.index_of child (PySet.to_list s) = Some i /\
              hierarchical_binary d node child = ok v /\
              length v = length s /\ one_hot_at v i.
Proof.
  intros Hs Hc. apply elem_of_to_list in Hc.
  destruct (index_of_Some _ _ Hc) as (i & Hi & Hl).
  assert (i < length (PySet.to_list s)) as Hlt by (apply lookup_lt_is_Some; eauto).
  destruct (setitem_zeros_one_hot _ _ Hlt) as (v & Hv & Hlen & Hone).
  exists i, v. split; [exact Hi |]. split; [| split].
  - unfold hierarchical_binary, PyDict.getitem. rewrite Hs. cbn [rbind ok].
    unfold PyList.index. rewrite Hi. cbn [rbind ok]. exact Hv.
  - rewrite Hlen. apply to_list_length.
  - exact Hone.
Qed.

Lemma hierarchical_binary_unrecorded (d : PyDict.t PySet.t) (node child : string) :
  unrecorded d node child ->
  hierarchical_binary d node child =
  match PyDict.get d node with
  | None => raise (KeyError node)
  | Some _ => raise (ValueError child)
  end.
Proof.
  unfold unrecorded, hierarchical_binary, PyDict.getitem.
  destruct (PyDict.get d node) as [s |]; intros Hu; [| reflexivity].
  cbn [rbind ok]. unfold PyList.index.
  rewrite index_of_None; [reflexivity |]. rewrite elem_of_to_list. exact Hu.
Qed.

Lemma unrecorded_dec (d : PyDict.t PySet.t) (node child : string) :
  {unrecorded d node child} + {exists s, PyDict.get d node = Some s /\ child ∈ s}.
Proof.
  unfold unrecorded. destruct (PyDict.get d node) as [s |]; [| left; exact I].
  destruct (decide (child ∈ s)) as [Hin | Hn]; [right; eauto | left; exact Hn].
Defined.

Lemma encode_pair_outcome (d : PyDict.t PySet.t) (input_ids : list Z)
    (nodes : list string) (sbh : list bucket) (dn : nat * string) :
  NoDup (PyDict.keys d) ->
  length sbh = length (make_parents_idx d) ->
  dn ∈ PyList.enumerate (PyList.drop_last nodes) ->
  match encode_pair d (make_parents_idx d) input_ids nodes sbh dn with
  | inr sbh' => length sbh' = length (make_parents_idx d) /\ pair_good d nodes dn
  | inl e => pair_bad d nodes dn e
  end.
Proof.
  intros Hnd Hlen Hin. destruct dn as [depth node].
  unfold PyList.enumerate in Hin. apply elem_of_lookup_imap in Hin as (i & x & Heq & Hl).
  injection Heq as <- <-. unfold PyList.drop_last in Hl.
  apply lookup_take_Some in Hl as [Hl Hlt].
  assert (is_Some (nodes !! S depth)) as [child Hchild] by (apply lookup_lt_is_Some; lia).
  unfold encode_pair, getitem. replace (depth + 1) with (S depth) by lia.
  rewrite Hchild. cbn [rbind ok].
  destruct (unrecorded_dec d node child) as [Hu | (s & Hs & Hc)].
  - rewrite (hierarchical_binary_unrecorded d node child Hu).
    destruct (PyDict.get d node) as [s |] eqn:Hget; cbn [raise rbind];
      exists child; cbn [fst snd];
      (split; [exact Hl |]); (split; [exact Hchild |]); (split; [exact Hu |]);
      unfold lookup_error, unrecorded in *; rewrite Hget in *.
    + right. exists s. split; [reflexivity |]. split; [exact Hu | reflexivity].
    + left. split; reflexivity.
  - destruct (hierarchical_binary_recorded d node child s Hs Hc) as (i & v & _ & Hv & _).
    rewrite Hv. cbn [rbind ok].
    destruct (parents_idx_lookup d node Hnd ltac:(eauto)) as (j & Hj & Hjlt).
    unfold PyDict.getitem. rewrite Hj. cbn [rbind ok].
    assert (is_Some (sbh !! j)) as [b Hb] by (apply lookup_lt_is_Some; lia).
    rewrite Hb. cbn [rbind ok].
    destruct (match b with EmptyList => ([], []) | Bucket ids targets => (ids, targets) end)
      as [ids targets].
    unfold PyList.setitem. destruct (decide (j < length sbh)) as [_ | Hf]; [| lia].
    split; [rewrite length_insert; exact Hlen |].
    intros child' Hchild' Hu. cbn [fst snd] in *. rewrite Hchild in Hchild'.
    injection Hchild' as <-. unfold unrecorded in Hu. rewrite Hs in Hu. contradiction.
Qed.

End Encoding.

Section Rows.
Context `{PySetOrder} `{TorchRandom}.
Variable data_cleaning : string -> string.
Variable tokenizer : string -> nat -> list Z.

Lemma encode_row_outcome (self : Preprocessor) (d : PyDict.t PySet.t)
    (max_length : nat) (a : acc) (data : sample) :
  NoDup (PyDict.keys d) -> acc_ok d a ->
  match encode_row data_cleaning tokenizer self d (make_parents_idx d) max_length a data with
  | inr a' => acc_ok d a' /\ row_good self d data
  | inl e => row_bad self d data e
  end.
Proof.
  intros Hnd Ha. destruct a as [[sbh fi] ft]. unfold acc_ok in Ha. cbn [fst] in Ha.
  unfold encode_row, flat_binary.
  destruct (decide (data_4 data < num_classes self)) as [Hlt | Hge].
  - destruct (setitem_zeros_one_hot _ _ Hlt) as (v & Hv & _). rewrite Hv. cbn [rbind ok].
    fold (path_nodes (data_3 data)). set (nodes := path_nodes (data_3 data)).
    pose proof (for_each_outcome
                  (encode_pair d (make_parents_idx d)
                     (tokenizer (data_cleaning (data_0 data)) max_length) nodes)
                  (PyList.enumerate (PyList.drop_last nodes))
                  (fun sbh => length sbh = length (make_parents_idx d))
                  (pair_good d nodes) (pair_bad d nodes)) as Hloop.
    specialize (Hloop ltac:(intros s x Hs Hx; apply encode_pair_outcome; assumption) sbh Ha).
    destruct (for_each _ _ sbh) as [e | sbh'].
    + cbn [rbind]. destruct Hloop as ([depth node] & _ & child & Hp & Hc & Hu & He).
      right. split; [exact Hlt |]. exists node, child. cbn [fst snd] in *.
      split; [exists depth; split; assumption |]. split; assumption.
    + cbn [rbind ok]. destruct Hloop as [Hlen Hall]. split; [exact Hlen |].
      split; [exact Hlt |]. intros p c (depth & Hp & Hc).
      rewrite Forall_forall in Hall.
      apply (Hall (depth, p)); [| exact Hc].
      unfold PyList.enumerate. apply elem_of_lookup_imap. exists depth, p. split; [reflexivity |].
      unfold PyList.drop_last. apply lookup_take_Some. split; [exact Hp |].
      apply lookup_lt_Some in Hc. unfold nodes. lia.
  - rewrite setitem_zeros_out_of_range by exact Hge. cbn [rbind raise].
    left. split; [reflexivity | exact Hge].
Qed.

Lemma encode_rows_outcome (self : Preprocessor) (d : PyDict.t PySet.t)
    (max_length : nat) (rows : list sample) (a : acc) :
  NoDup (PyDict.keys d) -> acc_ok d a ->
  match for_each (encode_row data_cleaning tokenizer self d (make_parents_idx d) max_length)
                 rows a with
  | inr a' => acc_ok d a' /\ Forall (row_good self d) rows
  | inl e => exists data, data ∈ rows /\ row_bad self d data e
  end.
Proof.
  intros Hnd Ha. apply for_each_outcome; [| exact Ha].
  intros s x Hs _. apply encode_row_outcome; assumption.
Qed.

Lemma get_max_length_ok (rows : list sample) :
  rows <> [] -> exists n, get_max_length rows = ok n.
Proof. destruct rows; [contradiction |]. intros _. eexists. reflexivity. Qed.

Lemma generate_hierarchy_segment_ok (self : Preprocessor) (w : world) (text : string) :
  files w !! hierarchy_tree self = Some (TextFile text) ->
  generate_hierarchy_segment self w = ok (segment_lines (PyStr.lines text), w).
Proof.
  intros Hf. unfold generate_hierarchy_segment, mbind, read_text. rewrite Hf. reflexivity.
Qed.

Lemma preprocessing_data_fails (self : Preprocessor) (dataset : list row) (w : world)
    (text : string) :
  files w !! hierarchy_tree self = Some (TextFile text) ->
  (exists data, data ∈ samples_of dataset /\
                ~ row_good self (segment_lines (PyStr.lines text)) data) ->
  exists e, preprocessing_data data_cleaning tokenizer self dataset w = inl e /\
            exists data, data ∈ samples_of dataset /\
                         row_bad self (segment_lines (PyStr.lines text)) data e.
Proof.
  intros Hf (data & Hin & Hbad).
  set (d := segment_lines (PyStr.lines text)) in *.
  assert (samples_of dataset <> []) as Hne by (intros Hnil; rewrite Hnil in Hin; inversion Hin).
  destruct (get_max_length_ok _ Hne) as [ml Hml].
  unfold preprocessing_data, mbind, lift.
  rewrite with_label_idx_ok. fold (samples_of dataset). cbn [ok].
  rewrite (generate_hierarchy_segment_ok self w text Hf). fold d. cbn [ok].
  rewrite Hml. unfold ok. cbv beta iota.
  pose proof (encode_rows_outcome self d ml (samples_of dataset)
                (replicate (length (make_parents_idx d)) EmptyList, [], [])
                (NoDup_keys_segment_lines _)) as Hloop.
  specialize (Hloop ltac:(unfold acc_ok; cbn [fst]; apply length_replicate)).
  destruct (for_each _ (samples_of dataset) _) as [e | a'].
  - exists e. split; [reflexivity | exact Hloop].
  - exfalso. destruct Hloop as [_ Hall]. rewrite Forall_forall in Hall.
    exact (Hbad (Hall data Hin)).
Qed.

End Rows.

(** ** Slices and random splits *)

Lemma clamp_nat (len i : nat) : i <= len -> PyList.clamp len (Z.of_nat i) = i.
Proof.
  intros Hi. unfold PyList.clamp.
  destruct (Z.ltb_spec (Z.of_nat i) 0); lia.
Qed.

Lemma slice_nat {A} (l : list A) (a b : nat) (za zb : Z) :
  za = Z.of_nat a -> zb = Z.of_nat b -> a <= b <= length l ->
  PyList.slice l za zb = take (b - a) (drop a l).
Proof.
  intros -> -> Hab. unfold PyList.slice. rewrite !clamp_nat by lia. reflexivity.
Qed.

Lemma rne_div_fraction (num n : Z) :
  (0 <= n)%Z -> (0 <= num <= 10)%Z ->
  (0 <= PyFloat.rne_div (num * n) 10 <= n)%Z.
Proof.
  intros Hn Hnum.
  pose proof (PyFloatFacts.rne_div_near (num * n) 10 ltac:(lia)) as Hnear.
  assert (0 <= num * n <= 10 * n)%Z by nia. lia.
Qed.

Section Splitting.
Context `{TorchRandom}.

Lemma randperm_length (g : rng_state) (n : nat) : length (randperm g n).1 = n.
Proof. rewrite (Permutation_length (randperm_perm g n)). apply length_seq. Qed.

Lemma random_split_two (d : Dataset) (a b : nat) (za zb : Z) (w : world) :
  za = Z.of_nat a -> zb = Z.of_nat b -> ds_len d = a + b ->
  random_split d [za; zb] w =
  ok ([Subset d (take a (randperm (rng w) (a + b)).1);
       Subset d (drop a (randperm (rng w) (a + b)).1)],
      World _ (files w) (randperm (rng w) (a + b)).2 (stdout w)).
Proof.
  intros -> -> Hlen. unfold random_split. cbn [fold_left].
  rewrite decide_True by lia.
  unfold mbind, draw_randperm, mret.
  replace (Z.to_nat (0 + Z.of_nat a + Z.of_nat b)) with (a + b) by lia.
  pose proof (randperm_length (rng w) (a + b)) as Hp.
  destruct (randperm (rng w) (a + b)) as [p g]. cbn [fst snd] in *.
  cbn [accumulate zip zip_with map]. unfold ok. do 3 f_equal.
  - f_equal. rewrite (slice_nat p 0 a) by lia.
    rewrite drop_0. f_equal. lia.
  - do 2 f_equal. rewrite (slice_nat p a (a + b)) by lia.
    apply take_ge. rewrite length_drop. lia.
Qed.

End Splitting.

Lemma train_valid_count_le (n : nat) : train_valid_count n <= n.
Proof.
  unfold train_valid_count.
  pose proof (rne_div_fraction 8 (Z.of_nat n) ltac:(lia) ltac:(lia)). lia.
Qed.

Lemma train_count_le (n : nat) : train_count n <= train_valid_count n.
Proof.
  unfold train_count.
  pose proof (rne_div_fraction 9 (Z.of_nat (train_valid_count n)) ltac:(lia) ltac:(lia)). lia.
Qed.

Section SplittingResult.
Context `{TorchRandom}.

Lemma mbind_ok {A B} (m : M A) (k : A -> M B) (w w' : world) (a : A) :
  m w = ok (a, w') -> mbind m k w = k a w'.
Proof. intros Hm. unfold mbind. rewrite Hm. reflexivity. Qed.

Lemma mbind_lift_ok {A B} (a : A) (k : A -> M B) (w : world) :
  mbind (lift (ok a)) k w = k a w.
Proof. reflexivity. Qed.

Lemma mbind_mret {A B} (a : A) (k : A -> M B) (w : world) :
  mbind (mret a) k w = k a w.
Proof. reflexivity. Qed.

Lemma data_splitting_spec (input_ids target : list (list Z)) (w : world) :
  length input_ids = length target ->
  (Z.of_nat (length input_ids) < 2 ^ 49)%Z ->
  let n := length input_ids in
  let tv := train_valid_count n in
  let tr := train_count n in
  let d := TensorDataset input_ids target in
  let r1 := randperm (rng w) n in
  let tvs := Subset d (take tv r1.1) in
  let r2 := randperm r1.2 tv in
  data_splitting input_ids target w =
  ok ((Subset tvs (take tr r2.1), Subset tvs (drop tr r2.1), Subset d (drop tv r1.1)),
      World _ (files w) r2.2 (stdout w)).
Proof.
  intros Hlen Hn n tv tr d r1 tvs r2.
  pose proof (train_valid_count_le n) as Htv. fold tv in Htv.
  pose proof (train_count_le n) as Htr. fold tv tr in Htr.
  assert (PyFloat.rne_div (8 * Z.of_nat n) 10 = Z.of_nat tv) as Htv_eq.
  { unfold tv, train_valid_count. rewrite Z2Nat.id; [reflexivity |].
    apply (rne_div_fraction 8); lia. }
  assert (PyFloat.rne_div (9 * Z.of_nat tv) 10 = Z.of_nat tr) as Htr_eq.
  { unfold tr, train_count. fold tv. rewrite Z2Nat.id; [reflexivity |].
    apply (rne_div_fraction 9); lia. }
  assert (ds_len d = n) as Hd by reflexivity.
  assert (ds_len tvs = tv) as Hlen_tvs.
  { cbn [ds_len tvs]. rewrite length_take. unfold r1. rewrite randperm_length. lia. }
  unfold data_splitting, tensor_dataset.
  rewrite decide_True by exact Hlen. fold d.
  rewrite mbind_lift_ok. rewrite Hd.
  rewrite PyFloatFacts.round_mul_0_8 by (unfold n; lia).
  rewrite Htv_eq, mbind_lift_ok.
  erewrite mbind_ok;
    [| apply (random_split_two d tv (n - tv)); [reflexivity | lia | rewrite Hd; lia]].
  replace (tv + (n - tv)) with n by lia. fold r1.
  unfold unpack2 at 1. rewrite mbind_mret. fold tvs.
  rewrite Hlen_tvs.
  rewrite PyFloatFacts.round_mul_0_9 by (unfold n in *; lia).
  rewrite Htr_eq, mbind_lift_ok.
  erewrite mbind_ok;
    [| apply (random_split_two tvs tr (tv - tr)); [reflexivity | lia | rewrite Hlen_tvs; lia]].
  replace (tr + (tv - tr)) with tv by lia. cbn [rng]. fold r2.
  unfold unpack2 at 1. rewrite mbind_mret. reflexivity.
Qed.

End SplittingResult.

(** ** Subsets as partitions *)

Lemma omap_seq_S {B} (f : nat -> option B) (start len : nat) :
  omap f (seq (S start) len) = omap (fun i => f (S i)) (seq start len).
Proof.
  revert start. induction len as [| len IH]; intros start; [reflexivity |].
  cbn [seq omap list_omap]. destruct (f (S start)); rewrite IH; reflexivity.
Qed.

Lemma omap_seq_lookup {A B} (f : A -> option B) (l : list A) :
  omap (fun i => match l !! i with Some x => f x | None => None end) (seq 0 (length l))
  = omap f l.
Proof.
  induction l as [| x l IH]; [reflexivity |].
  cbn [length seq omap list_omap].
  rewrite omap_seq_S, <- IH. reflexivity.
Qed.

Lemma ds_examples_subset (d : Dataset) (indices : list nat) :
  ds_examples (Subset d indices) = omap (ds_getitem d) indices.
Proof. unfold ds_examples. cbn [ds_len ds_getitem]. apply omap_seq_lookup. Qed.

Lemma ds_examples_tensor (input_ids target : list (list Z)) :
  length input_ids = length target ->
  ds_examples (TensorDataset input_ids target) = zip input_ids target.
Proof.
  unfold ds_examples. cbn [ds_len ds_getitem].
  revert target. induction input_ids as [| x xs IH]; intros [| y ys] Hlen;
    try discriminate; [reflexivity |].
  cbn [length seq omap list_omap zip zip_with].
  rewrite omap_seq_S, <- (IH ys) by (cbn in Hlen; lia). reflexivity.
Qed.

Lemma omap_lookup_seq {A} (l : list A) :
  omap (fun j => l !! j) (seq 0 (length l)) = l.
Proof.
  induction l as [| x l IH]; [reflexivity |].
  cbn [length seq omap list_omap].
  rewrite omap_seq_S. cbn [lookup list_lookup]. f_equal. exact IH.
Qed.

Lemma omap_lookup_self (l : list nat) (idx : list nat) :
  idx ≡ₚ seq 0 (length l) -> omap (fun j => l !! j) idx ≡ₚ l.
Proof. intros Hp. rewrite Hp, omap_lookup_seq. reflexivity. Qed.

Lemma omap_lookup_range (n : nat) (idx : list nat) :
  Forall (fun j => j < n) idx -> omap (fun j => seq 0 n !! j) idx = idx.
Proof.
  induction 1 as [| j idx Hj _ IH]; [reflexivity |].
  cbn [omap list_omap]. rewrite lookup_seq_lt by exact Hj. cbn. f_equal. exact IH.
Qed.

(** A permutation of the positions of a dataset, cut in two, selects every
    example once. *)
Lemma subset_cut_examples (d : Dataset) (idx : list nat) (k : nat) :
  idx ≡ₚ seq 0 (ds_len d) ->
  ds_examples (Subset d (take k idx)) ++ ds_examples (Subset d (drop k idx))
  ≡ₚ ds_examples d.
Proof.
  intros Hp. rewrite !ds_examples_subset, <- omap_app, take_drop.
  unfold ds_examples. rewrite Hp. reflexivity.
Qed.

Lemma subset_cut_rows (d : Dataset) (idx : list nat) (k : nat) :
  idx ≡ₚ seq 0 (length (ds_rows d)) ->
  ds_rows (Subset d (take k idx)) ++ ds_rows (Subset d (drop k idx)) ≡ₚ ds_rows d.
Proof.
  intros Hp. cbn [ds_rows]. rewrite <- omap_app, take_drop.
  apply omap_lookup_self. exact Hp.
Qed.

Lemma NoDup_app3_disjoint {A} (a b c : list A) :
  NoDup (a ++ b ++ c) -> a ## b /\ a ## c /\ b ## c.
Proof.
  intros Hnd. apply NoDup_app in Hnd as (_ & Habc & Hbc).
  apply NoDup_app in Hbc as (_ & Hbc & _).
  repeat split; intros x Hx Hy.
  - apply (Habc x Hx). apply elem_of_app. left. exact Hy.
  - apply (Habc x Hx). apply elem_of_app. right. exact Hy.
  - exact (Hbc x Hx Hy).
Qed.

(** ** Membership in the parsed hierarchy *)

Lemma segment_lines_elem (lines : list string) (p c : string) :
  (p, c) ∈ file_pairs lines <->
  exists s, PyDict.get (segment_lines lines) p = Some s /\ c ∈ s.
Proof.
  rewrite segment_lines_get. unfold first_encounter.
  rewrite <- elem_of_children_in.
  destruct (children_in p (file_pairs lines)) as [| x xs] eqn:Hcs.
  - split; [intros Hin; inversion Hin | intros (s & Hs & _); discriminate].
  - split.
    + intros Hin. eexists. split; [reflexivity |].
      apply elem_of_unique. split; [exact Hin | apply not_elem_of_nil].
    + intros (s & Hs & Hc).
      assert (s = PyList.unique [] (x :: xs)) as -> by congruence.
      apply elem_of_unique in Hc. tauto.
Qed.

Lemma add_path_short (d : PyDict.t PySet.t) (path : string) :
  length (nodes_of_line path) < 2 -> add_path d path = d.
Proof.
  intros Hlen. rewrite add_path_pairs. unfold adjacent_pairs.
  destruct (nodes_of_line path) as [| x [| y nodes]]; [reflexivity | reflexivity |].
  cbn in Hlen. lia.
Qed.

Lemma segment_lines_skip (before after : list string) (path : string) :
  length (nodes_of_line path) < 2 ->
  segment_lines (before ++ path :: after) = segment_lines (before ++ after).
Proof.
  intros Hlen. unfold segment_lines. rewrite !fold_left_app. cbn [fold_left].
  rewrite add_path_short by exact Hlen. reflexivity.
Qed.

(** ** Sizes of the split *)

Section SplitSizes.
Context `{TorchRandom}.

Lemma data_splitting_sizes (input_ids target : list (list Z)) (w : world) :
  length input_ids = length target ->
  (Z.of_nat (length input_ids) < 2 ^ 49)%Z ->
  exists train valid test w',
    data_splitting input_ids target w = ok ((train, valid, test), w') /\
    ds_len train = train_count (length input_ids) /\
    ds_len train + ds_len valid = train_valid_count (length input_ids) /\
    ds_len train + ds_len valid + ds_len test = length input_ids.
Proof.
  intros Hlen Hn.
  pose proof (data_splitting_spec input_ids target w Hlen Hn) as Hspec. cbv zeta in Hspec.
  pose proof (train_valid_count_le (length input_ids)) as Htv.
  pose proof (train_count_le (length input_ids)) as Htr.
  eexists _, _, _, _. split; [exact Hspec |].
  cbn [ds_len]. rewrite !length_take, !length_drop, !randperm_length. lia.
Qed.

End SplitSizes.

(** ** The cache *)

Section Cache.
Context `{TorchRandom}.

Lemma path_exists_present (p : string) (b : blob) (w : world) :
  files w !! p = Some b -> path_exists p w = ok (true, w).
Proof.
  intros Hp. unfold path_exists. rewrite Hp.
  rewrite bool_decide_eq_true_2 by (eexists; reflexivity). reflexivity.
Qed.

Lemma torch_load_present (p : string) (d : Dataset) (w : world) :
  files w !! p = Some (TorchFile d) -> torch_load p w = ok (d, w).
Proof. intros Hp. unfold torch_load. rewrite Hp. reflexivity. Qed.

Lemma load_or_build_hit (build : M (Dataset * Dataset * Dataset)) (w : world)
    (train valid test : Dataset) :
  files w !! train_path = Some (TorchFile train) ->
  files w !! valid_path = Some (TorchFile valid) ->
  files w !! test_path = Some (TorchFile test) ->
  load_or_build build w =
  ok ((train, valid, test),
      World _ (files w) (rng w)
        (stdout w ++ [nl +:+ "Loading Data..."; "[ Loading Completed ]" +:+ nl])).
Proof.
  intros Htrain Hvalid Htest. unfold load_or_build.
  rewrite (mbind_ok _ _ _ _ _ (path_exists_present _ _ _ Htrain)).
  rewrite (mbind_ok _ _ _ _ _ (path_exists_present _ _ _ Hvalid)).
  rewrite (mbind_ok _ _ _ _ _ (path_exists_present _ _ _ Htest)).
  unfold mbind at 1, print at 1. unfold ok at 1. cbv beta iota.
  erewrite mbind_ok; [| apply torch_load_present; exact Htrain].
  erewrite mbind_ok; [| apply torch_load_present; exact Hvalid].
  erewrite mbind_ok; [| apply torch_load_present; exact Htest].
  unfold mbind, print, mret, ok. cbn [files rng stdout].
  rewrite <- app_assoc. reflexivity.
Qed.

End Cache.

(** ** Leaf indices *)





(** ** Outcomes of preprocessing *)

Lemma row_bad_class (self : Preprocessor) (d : PyDict.t PySet.t) (data : sample) (e : exn) :
  row_bad self d data e -> exn_class e ∈ ["KeyError"; "ValueError"; "IndexError"].
Proof.
  intros [[-> _] | (_ & p & c & _ & _ & [[_ ->] | (s & _ & _ & ->)])]; cbn [exn_class].
  - do 2 apply list_elem_of_further. apply list_elem_of_here.
  - apply list_elem_of_here.
  - apply list_elem_of_further, list_elem_of_here.
Qed.

(** A bucket that is still the empty list stops the loop that splits the
    buckets: the loop raises there, or earlier. *)
Lemma split_buckets_empty `{TorchRandom} (buckets : list bucket)
    (hierarchical_dataset : list (Dataset * Dataset * Dataset)) (w : world) :
  EmptyList ∈ buckets ->
  exists e, for_each_M split_bucket buckets hierarchical_dataset w = inl e.
Proof.
  revert hierarchical_dataset w.
  induction buckets as [| b buckets IH]; intros acc w Hin; [inversion Hin |].
  cbn [for_each_M]. unfold mbind.
  destruct b as [| ids targets].
  - exists TypeError. reflexivity.
  - apply elem_of_cons in Hin as [Heq | Hin]; [discriminate |].
    destruct (split_bucket acc (Bucket ids targets) w) as [e | [acc' w']].
    + exists e. reflexivity.
    + apply IH. exact Hin.
Qed.

(** ** Buckets no sample touches *)

Lemma get_imap_keys_inv (ks : list string) (n0 m : nat) (k : string) :
  PyDict.get (imap (fun i k => (k, n0 + i)) ks) k = Some m ->
  exists i, m = n0 + i /\ ks !! i = Some k.
Proof.
  revert n0. induction ks as [| k0 ks IH]; intros n0 Hget; [discriminate |].
  cbn [imap PyDict.get] in Hget. destruct (decide (k = k0)) as [-> | Hne].
  - injection Hget as <-. exists 0. split; [lia | reflexivity].
  - rewrite (imap_ext _ (fun i k => (k, S n0 + i)) ks) in Hget
      by (intros; cbn; f_equal; lia).
    destruct (IH (S n0) Hget) as (i & -> & Hi). exists (S i). split; [lia | exact Hi].
Qed.

Lemma parents_idx_injective (d : PyDict.t PySet.t) (k k' : string) (i : nat) :
  NoDup (PyDict.keys d) ->
  PyDict.get (make_parents_idx d) k = Some i ->
  PyDict.get (make_parents_idx d) k' = Some i ->
  k = k'.
Proof.
  intros Hnd Hk Hk'. rewrite make_parents_idx_eq in Hk, Hk' by exact Hnd.
  destruct (get_imap_keys_inv _ 0 _ _ Hk) as (j & -> & Hj).
  destruct (get_imap_keys_inv _ 0 _ _ Hk') as (j' & Heq & Hj').
  assert (j = j') as -> by lia. congruence.
Qed.

Section Untouched.
Context `{PySetOrder} `{TorchRandom}.
Variable data_cleaning : string -> string.
Variable tokenizer : string -> nat -> list Z.

(** A step of the inner loop leaves the buckets of the other parents as
    they are. *)
Lemma encode_pair_other (d : PyDict.t PySet.t) (input_ids : list Z)
    (nodes : list string) (sbh sbh' : list bucket) (depth j : nat) (node k : string) :
  NoDup (PyDict.keys d) ->
  PyDict.get (make_parents_idx d) k = Some j ->
  node <> k ->
  encode_pair d (make_parents_idx d) input_ids nodes sbh (depth, node) = ok sbh' ->
  sbh' !! j = sbh !! j.
Proof.
  intros Hnd Hk Hne. unfold encode_pair.
  destruct (getitem nodes (depth + 1)) as [e | child]; [discriminate |]. cbn [rbind].
  destruct (hierarchical_binary d node child) as [e | v]; [discriminate |]. cbn [rbind].
  unfold PyDict.getitem.
  destruct (PyDict.get (make_parents_idx d) node) as [i |] eqn:Hi; [| discriminate].
  cbn [rbind ok].
  destruct (getitem sbh i) as [e | b]; [discriminate |]. cbn [rbind].
  destruct (match b with EmptyList => ([], []) | Bucket ids targets => (ids, targets) end)
    as [ids targets].
  unfold PyList.setitem. destruct (decide (i < length sbh)); [| discriminate].
  intros Hok. injection Hok as <-.
  apply list_lookup_insert_ne. intros <-.
  apply Hne. exact (parents_idx_injective d node k i Hnd Hi Hk).
Qed.

Lemma encode_pairs_other (d : PyDict.t PySet.t) (input_ids : list Z)
    (nodes : list string) (pairs : list (nat * string)) (j : nat) (k : string) :
  NoDup (PyDict.keys d) ->
  PyDict.get (make_parents_idx d) k = Some j ->
  (forall dn, dn ∈ pairs -> dn.2 <> k) ->
  forall sbh sbh',
    for_each (encode_pair d (make_parents_idx d) input_ids nodes) pairs sbh = ok sbh' ->
    sbh' !! j = sbh !! j.
Proof.
  intros Hnd Hk. induction pairs as [| [depth node] pairs IH]; intros Hother sbh sbh' Hrun.
  - injection Hrun as <-. reflexivity.
  - cbn [for_each] in Hrun.
    destruct (encode_pair d (make_parents_idx d) input_ids nodes sbh (depth, node))
      as [e | sbh1] eqn:Hstep; [discriminate |].
    cbn [rbind] in Hrun.
    rewrite (IH ltac:(intros dn Hdn; apply Hother; right; exact Hdn) sbh1 sbh' Hrun).
    apply (encode_pair_other d input_ids nodes sbh sbh1 depth j node k Hnd Hk);
      [| exact Hstep].
    apply (Hother (depth, node)). left.
Qed.

(** The rows that do not pass through [k] leave its bucket as it is. *)
Lemma encode_rows_other (self : Preprocessor) (d : PyDict.t PySet.t) (max_length : nat)
    (rows : list sample) (j : nat) (k : string) :
  NoDup (PyDict.keys d) ->
  PyDict.get (make_parents_idx d) k = Some j ->
  (forall data c, data ∈ rows -> ~ path_pair (path_nodes (data_3 data)) k c) ->
  forall a a',
    for_each (encode_row data_cleaning tokenizer self d (make_parents_idx d) max_length)
             rows a = ok a' ->
    a'.1.1 !! j = a.1.1 !! j.
Proof.
  intros Hnd Hk. induction rows as [| data rows IH]; intros Hother a a' Hrun.
  - injection Hrun as <-. reflexivity.
  - cbn [for_each] in Hrun.
    destruct (encode_row data_cleaning tokenizer self d (make_parents_idx d) max_length a data)
      as [e | a1] eqn:Hstep; [discriminate |].
    cbn [rbind] in Hrun.
    rewrite (IH ltac:(intros x c Hx; apply Hother; right; exact Hx) a1 a' Hrun).
    clear Hrun IH. destruct a as [[sbh fi] ft]. unfold encode_row in Hstep.
    destruct (flat_binary self data) as [e | fb]; [discriminate |]. cbn [rbind] in Hstep.
    fold (path_nodes (data_3 data)) in Hstep.
    destruct (for_each _ (PyList.enumerate (PyList.drop_last (path_nodes (data_3 data)))) sbh)
      as [e | sbh1] eqn:Hpairs; [discriminate |].
    cbn [rbind] in Hstep. injection Hstep as <-. cbn [fst].
    apply (encode_pairs_other d _ _ _ j k Hnd Hk) with (2 := Hpairs).
    intros [depth node] Hdn Heq. cbn [snd] in Heq. subst node.
    unfold PyList.enumerate in Hdn. apply elem_of_lookup_imap in Hdn as (i & x & Heq & Hl).
    injection Heq as <- <-. unfold PyList.drop_last in Hl.
    apply lookup_take_Some in Hl as [Hl Hlt].
    assert (is_Some (path_nodes (data_3 data) !! S depth)) as [c Hc]
      by (apply lookup_lt_is_Some; lia).
    apply (Hother data c); [left |]. exists depth. split; assumption.
Qed.

Lemma preprocessing_data_untouched (self : Preprocessor) (dataset : list row) (w : world)
    (text : string) (k : string) :
  files w !! hierarchy_tree self = Some (TextFile text) ->
  is_Some (PyDict.get (segment_lines (PyStr.lines text)) k) ->
  (forall data c, data ∈ samples_of dataset -> ~ path_pair (path_nodes (data_3 data)) k c) ->
  exists e, preprocessing_data data_cleaning tokenizer self dataset w = inl e.
Proof.
  intros Hf Hk Hother.
  set (d := segment_lines (PyStr.lines text)) in *.
  pose proof (NoDup_keys_segment_lines (PyStr.lines text)) as Hnd. fold d in Hnd.
  destruct (parents_idx_lookup d k Hnd Hk) as (j & Hj & Hjlt).
  unfold preprocessing_data, mbind, lift.
  rewrite with_label_idx_ok. fold (samples_of dataset). cbn [ok].
  rewrite (generate_hierarchy_segment_ok self w text Hf). fold d. cbn [ok].
  destruct (get_max_length (samples_of dataset)) as [e | ml]; [exists e; reflexivity |].
  cbv beta iota. unfold ok at 1. cbv beta iota.
  destruct (for_each _ (samples_of dataset) _) as [e | a'] eqn:Hloop;
    [exists e; reflexivity |].
  pose proof (encode_rows_other self d ml (samples_of dataset) j k Hnd Hj Hother _ _ Hloop)
    as Hbucket.
  cbn [fst] in Hbucket. rewrite lookup_replicate_2 in Hbucket by exact Hjlt.
  unfold ok. cbv beta iota. destruct a' as [[sbh fi] ft]. cbn [fst] in Hbucket.
  destruct (split_buckets_empty sbh [] w) as [e He].
  { apply list_elem_of_lookup. exists j. exact Hbucket. }
  rewrite He. exists e. reflexivity.
Qed.

End Untouched.

(** * The claims *)



(** C2, as the code has it.  The children of a parent are kept in a
    [set]: the collection holds each child once, and what the program
    records is the membership, which is that of the distinct children in
    the order the file first mentions them.  The list the one-hot index is
    taken from is the iteration order of that set: a permutation of the
    first-encounter order, fixed for a given set, not that order itself. *)
Theorem children_are_a_set `{PySetOrder} (lines : list string) (parent : string)
    (s : PySet.t) :
  PyDict.get (segment_lines lines) parent = Some s ->
  s = first_encounter lines parent /\
  NoDup s /\
  children_list lines parent = Some (set_iter (first_encounter lines parent)) /\
  set_iter (first_encounter lines parent) ≡ₚ first_encounter lines parent.
Proof.
  intros Hs.
  assert (s = first_encounter lines parent) as Hfirst.
  { rewrite segment_lines_get in Hs.
    destruct (children_in parent (file_pairs lines)); [discriminate | congruence]. }
  split; [exact Hfirst |]. split; [rewrite Hfirst; apply NoDup_unique |].
  split; [| apply set_iter_perm].
  unfold children_list. rewrite Hs, Hfirst. reflexivity.
Qed.

Lemma children_are_a_set_witness :
  ["y"; "x"] = first_encounter ["a > y" +:+ nl; "a > x" +:+ nl] "a" /\
  NoDup ["y"; "x"] /\
  @children_list (hash_order first_char_hash) ["a > y" +:+ nl; "a > x" +:+ nl] "a" =
    Some (@set_iter (hash_order first_char_hash)
            (first_encounter ["a > y" +:+ nl; "a > x" +:+ nl] "a")) /\
  @set_iter (hash_order first_char_hash) (first_encounter ["a > y" +:+ nl; "a > x" +:+ nl] "a")
    ≡ₚ first_encounter ["a > y" +:+ nl; "a > x" +:+ nl] "a".
Proof.
  apply (@children_are_a_set (hash_order first_char_hash)
           ["a > y" +:+ nl; "a > x" +:+ nl] "a" ["y"; "x"]).
  vm_compute. reflexivity.
Defined.

(** C2, as stated, fails: with the children of [a] met in the order [y],
    [x] and a set that iterates by ascending hash, the children are listed
    as [x], [y] and the one-hot index of [y] is 1, not 0. *)
Lemma children_order_counterexample :
  first_encounter ["a > y" +:+ nl; "a > x" +:+ nl] "a" = ["y"; "x"] /\
  @children_list (hash_order first_char_hash) ["a > y" +:+ nl; "a > x" +:+ nl] "a"
    = Some ["x"; "y"] /\
  @children_list (hash_order first_char_hash) ["a > y" +:+ nl; "a > x" +:+ nl] "a"
    <> Some (first_encounter ["a > y" +:+ nl; "a > x" +:+ nl] "a") /\
  PyList.index_of "y" ["x"; "y"] = Some 1.
Proof.
  split; [vm_compute; reflexivity |]. split; [vm_compute; reflexivity |].
  split; [vm_compute; discriminate | vm_compute; reflexivity].
Qed.

(** C3.  For [N] examples the splitter returns three datasets whose sizes
    are: train and valid together the integer nearest to [0.8 N], test the
    rest of [N], train the integer nearest to [0.9] times the size of train
    and valid together, valid the rest of it; ties go to the even integer,
    as [round] does.  The products are computed in binary64 by the code and
    in exact arithmetic here.  For [N = 100] the sizes are 72, 8 and 20. *)
Theorem split_sizes `{TorchRandom} (input_ids target : list (list Z)) (w : world) :
  length input_ids = length target ->
  (Z.of_nat (length input_ids) < 2 ^ 49)%Z ->
  exists train valid test w',
    data_splitting input_ids target w = ok ((train, valid, test), w') /\
    Z.of_nat (ds_len train + ds_len valid) =
      PyFloat.rne_div (8 * Z.of_nat (length input_ids)) 10 /\
    ds_len test = length input_ids - (ds_len train + ds_len valid) /\
    Z.of_nat (ds_len train) =
      PyFloat.rne_div (9 * Z.of_nat (ds_len train + ds_len valid)) 10 /\
    ds_len valid = (ds_len train + ds_len valid) - ds_len train /\
    (length input_ids = 100 ->
     ds_len train = 72 /\ ds_len valid = 8 /\ ds_len test = 20).
Proof.
  intros Hlen Hn.
  destruct (data_splitting_sizes input_ids target w Hlen Hn)
    as (train & valid & test & w' & Hrun & Htr & Htv & Hsum).
  exists train, valid, test, w'. split; [exact Hrun |].
  pose proof (rne_div_fraction 8 (Z.of_nat (length input_ids)) ltac:(lia) ltac:(lia)) as H8.
  pose proof (rne_div_fraction 9 (Z.of_nat (train_valid_count (length input_ids)))
                ltac:(lia) ltac:(lia)) as H9.
  split; [rewrite Htv; unfold train_valid_count; lia |].
  split; [lia |].
  split; [rewrite Htv, Htr; unfold train_count; lia |].
  split; [lia |].
  intros H100. rewrite H100 in *.
  assert (train_count 100 = 72) as H72 by (vm_compute; reflexivity).
  assert (train_valid_count 100 = 80) as H80 by (vm_compute; reflexivity).
  lia.
Qed.

Lemma split_sizes_witness :
  exists train valid test w',
    data_splitting (replicate 100 [7%Z]) (replicate 100 [0%Z; 1%Z]) (@empty_world countdown_generator tt)
      = ok ((train, valid, test), w') /\
    ds_len train = 72 /\ ds_len valid = 8 /\ ds_len test = 20.
Proof.
  destruct (split_sizes (replicate 100 [7%Z]) (replicate 100 [0%Z; 1%Z]) (@empty_world countdown_generator tt))
    as (train & valid & test & w' & Hrun & _ & _ & _ & _ & H100).
  - vm_compute. reflexivity.
  - vm_compute. reflexivity.
  - exists train, valid, test, w'. split; [exact Hrun |]. apply H100. vm_compute. reflexivity.
Defined.

(** C4.  For a collection of [N] examples the three datasets the splitter
    returns have [N] examples together; the rows of the collection they
    select are each row once, so the three selections are pairwise
    disjoint; and their examples together are the examples of the
    collection, each as often as it occurs there. *)
Theorem split_is_a_partition `{TorchRandom} (input_ids target : list (list Z)) (w : world) :
  length input_ids = length target ->
  (Z.of_nat (length input_ids) < 2 ^ 49)%Z ->
  exists train valid test w',
    data_splitting input_ids target w = ok ((train, valid, test), w') /\
    ds_len train + ds_len valid + ds_len test = length input_ids /\
    ds_rows train ++ ds_rows valid ++ ds_rows test ≡ₚ seq 0 (length input_ids) /\
    ds_rows train ## ds_rows valid /\
    ds_rows train ## ds_rows test /\
    ds_rows valid ## ds_rows test /\
    ds_examples train ++ ds_examples valid ++ ds_examples test ≡ₚ zip input_ids target.
Proof.
  intros Hlen Hn.
  pose proof (data_splitting_spec input_ids target w Hlen Hn) as Hspec. cbv zeta in Hspec.
  destruct (data_splitting_sizes input_ids target w Hlen Hn)
    as (train & valid & test & w' & Hrun & _ & _ & Hsum).
  rewrite Hspec in Hrun. injection Hrun as <- <- <- <-.
  set (n := length input_ids) in *.
  set (tv := train_valid_count n) in *. set (tr := train_count n) in *.
  set (d := TensorDataset input_ids target) in *.
  set (r1 := randperm (rng w) n) in *.
  set (tvs := Subset d (take tv r1.1)) in *.
  set (r2 := randperm r1.2 tv) in *.
  pose proof (train_valid_count_le n) as Htv. fold tv in Htv.
  assert (r1.1 ≡ₚ seq 0 n) as Hp1 by apply randperm_perm.
  assert (r2.1 ≡ₚ seq 0 tv) as Hp2 by apply randperm_perm.
  assert (ds_rows tvs = take tv r1.1) as Hrows_tvs.
  { cbn [ds_rows tvs d]. fold n. apply omap_lookup_range.
    apply Forall_take. rewrite Hp1. apply Forall_forall. intros j Hj.
    apply elem_of_seq in Hj. lia. }
  assert (ds_rows (Subset tvs (take tr r2.1)) ++ ds_rows (Subset tvs (drop tr r2.1))
          ≡ₚ take tv r1.1) as Hrows_tv.
  { rewrite <- Hrows_tvs. apply subset_cut_rows.
    rewrite Hrows_tvs, length_take, (Permutation_length Hp1), length_seq.
    replace (tv `min` n) with tv by lia. exact Hp2. }
  assert (ds_rows (Subset d (drop tv r1.1)) = drop tv r1.1) as Hrows_test.
  { cbn [ds_rows d]. fold n. apply omap_lookup_range.
    apply Forall_drop. rewrite Hp1. apply Forall_forall. intros j Hj.
    apply elem_of_seq in Hj. lia. }
  assert (ds_rows (Subset tvs (take tr r2.1)) ++ ds_rows (Subset tvs (drop tr r2.1)) ++
          ds_rows (Subset d (drop tv r1.1)) ≡ₚ seq 0 n) as Hrows.
  { rewrite app_assoc, Hrows_tv, Hrows_test, take_drop. exact Hp1. }
  assert (ds_examples (Subset tvs (take tr r2.1)) ++ ds_examples (Subset tvs (drop tr r2.1)) ++
          ds_examples (Subset d (drop tv r1.1)) ≡ₚ zip input_ids target) as Hex.
  { rewrite app_assoc.
    rewrite (subset_cut_examples tvs r2.1 tr); cycle 1.
    { cbn [ds_len tvs]. rewrite length_take, (Permutation_length Hp1), length_seq.
      replace (tv `min` n) with tv by lia. exact Hp2. }
    unfold tvs. rewrite (subset_cut_examples d r1.1 tv) by exact Hp1.
    unfold d. rewrite ds_examples_tensor by exact Hlen. reflexivity. }
  eexists _, _, _, _. split; [exact Hspec |]. split; [exact Hsum |].
  split; [exact Hrows |].
  assert (NoDup (ds_rows (Subset tvs (take tr r2.1)) ++ ds_rows (Subset tvs (drop tr r2.1)) ++
                 ds_rows (Subset d (drop tv r1.1)))) as Hnd.
  { rewrite Hrows. apply NoDup_seq. }
  destruct (NoDup_app3_disjoint _ _ _ Hnd) as (H12 & H13 & H23).
  repeat split; assumption.
Qed.

Lemma split_is_a_partition_witness :
  exists train valid test w',
    data_splitting [[1%Z]; [2%Z]; [3%Z]; [4%Z]; [5%Z]]
                   [[1%Z; 0%Z]; [0%Z; 1%Z]; [1%Z; 0%Z]; [0%Z; 1%Z]; [1%Z; 0%Z]]
                   (@empty_world countdown_generator tt)
      = ok ((train, valid, test), w') /\
    ds_len train + ds_len valid + ds_len test = 5 /\
    ds_rows train ++ ds_rows valid ++ ds_rows test ≡ₚ [0; 1; 2; 3; 4] /\
    ds_rows train ## ds_rows valid /\
    ds_rows train ## ds_rows test /\
    ds_rows valid ## ds_rows test /\
    ds_examples train ++ ds_examples valid ++ ds_examples test ≡ₚ
      [([1%Z], [1%Z; 0%Z]); ([2%Z], [0%Z; 1%Z]); ([3%Z], [1%Z; 0%Z]);
       ([4%Z], [0%Z; 1%Z]); ([5%Z], [1%Z; 0%Z])].
Proof.
  apply (split_is_a_partition
           [[1%Z]; [2%Z]; [3%Z]; [4%Z]; [5%Z]]
           [[1%Z; 0%Z]; [0%Z; 1%Z]; [1%Z; 0%Z]; [0%Z; 1%Z]; [1%Z; 0%Z]]
           (@empty_world countdown_generator tt)).
  - reflexivity.
  - vm_compute. reflexivity.
Defined.

(** C5.  When the three flat artifacts are on disk, [preprocessor] returns
    what they hold, whatever the build would do, whatever table and
    hierarchy path the object was made with and whatever else is on disk,
    the hierarchical artifact included: no file is written, the random
    generator is not drawn from, and only the two loading messages are
    printed. *)
Theorem cache_hit_skips_build `{TorchRandom} (w : world) (train valid test : Dataset) :
  files w !! train_path = Some (TorchFile train) ->
  files w !! valid_path = Some (TorchFile valid) ->
  files w !! test_path = Some (TorchFile test) ->
  let loaded : result (Dataset * Dataset * Dataset * world) :=
    ok ((train, valid, test),
        World _ (files w) (rng w)
          (stdout w ++ [nl +:+ "Loading Data..."; "[ Loading Completed ]" +:+ nl])) in
  (forall build, load_or_build build w = loaded) /\
  (forall (order : PySetOrder) data_cleaning tokenizer self,
      @preprocessor order _ data_cleaning tokenizer self w = loaded).
Proof.
  intros Htrain Hvalid Htest loaded. split.
  - intros build. apply load_or_build_hit; assumption.
  - intros order data_cleaning tokenizer self. unfold preprocessor.
    apply load_or_build_hit; assumption.
Qed.

Lemma cache_hit_skips_build_witness :
  (forall build,
      load_or_build build cached_world =
      ok ((TensorDataset [[1%Z]] [[1%Z]], TensorDataset [[2%Z]] [[1%Z]],
           TensorDataset [[3%Z]] [[1%Z]]),
          World _ (files cached_world) tt
            [nl +:+ "Loading Data..."; "[ Loading Completed ]" +:+ nl])) /\
  (forall (order : PySetOrder) data_cleaning tokenizer self,
      @preprocessor order _ data_cleaning tokenizer self cached_world =
      ok ((TensorDataset [[1%Z]] [[1%Z]], TensorDataset [[2%Z]] [[1%Z]],
           TensorDataset [[3%Z]] [[1%Z]]),
          World _ (files cached_world) tt
            [nl +:+ "Loading Data..."; "[ Loading Completed ]" +:+ nl])).
Proof.
  apply (cache_hit_skips_build cached_world
           (TensorDataset [[1%Z]] [[1%Z]]) (TensorDataset [[2%Z]] [[1%Z]])
           (TensorDataset [[3%Z]] [[1%Z]])); vm_compute; reflexivity.
Defined.

(** C6, as the code has it.  A sample whose path holds an adjacent pair
    the parsed hierarchy does not record is not encoded: once its flat
    target is built, the loop over its path raises the lookup exception of
    an unrecorded pair of that path, [KeyError] with the parent when the
    parent is no key of the hierarchy, and [ValueError] with the child
    when the parent is a key whose children do not include the child.
    Nothing catches it: [preprocessing_data] ends in a [KeyError], a
    [ValueError] or an [IndexError] raised for some sample and returns no
    dataset. *)
Theorem unrecorded_pair_raises `{PySetOrder} `{TorchRandom}
    (data_cleaning : string -> string) (tokenizer : string -> nat -> list Z)
    (self : Preprocessor) (dataset : list row) (w : world) (text : string)
    (data : sample) (parent child : string) :
  files w !! hierarchy_tree self = Some (TextFile text) ->
  data ∈ samples_of dataset ->
  path_pair (path_nodes (data_3 data)) parent child ->
  unrecorded (segment_lines (PyStr.lines text)) parent child ->
  let d := segment_lines (PyStr.lines text) in
  (forall max_length a,
      acc_ok d a -> data_4 data < num_classes self ->
      exists e p c,
        encode_row data_cleaning tokenizer self d (make_parents_idx d) max_length a data
          = inl e /\
        path_pair (path_nodes (data_3 data)) p c /\ unrecorded d p c /\
        ((PyDict.get d p = None /\ e = KeyError p) \/
         (exists s, PyDict.get d p = Some s /\ (c ∉ s) /\ e = ValueError c))) /\
  (exists e,
      preprocessing_data data_cleaning tokenizer self dataset w = inl e /\
      exn_class e ∈ ["KeyError"; "ValueError"; "IndexError"] /\
      exists data', data' ∈ samples_of dataset /\
        ((e = IndexError /\ ~ data_4 data' < num_classes self) \/
         (data_4 data' < num_classes self /\
          exists p c, path_pair (path_nodes (data_3 data')) p c /\ unrecorded d p c /\
            ((PyDict.get d p = None /\ e = KeyError p) \/
             (exists s, PyDict.get d p = Some s /\ (c ∉ s) /\ e = ValueError c))))).
Proof.
  intros Hf Hin Hpair Hun d. split.
  - intros max_length a Ha Hlt.
    pose proof (encode_row_outcome data_cleaning tokenizer self d max_length a data
                  (NoDup_keys_segment_lines _) Ha) as Hout.
    destruct (encode_row _ _ _ _ _ _ _ _) as [e | a'].
    + destruct Hout as [[_ Hge] | (_ & p & c & Hp & Hu & He)]; [contradiction |].
      exists e, p, c. split; [reflexivity |]. split; [exact Hp |].
      split; [exact Hu | exact He].
    + exfalso. destruct Hout as [_ [_ Hgood]]. exact (Hgood parent child Hpair Hun).
  - destruct (preprocessing_data_fails data_cleaning tokenizer self dataset w text Hf)
      as (e & He & data' & Hin' & Hbad).
    { exists data. split; [exact Hin |]. intros [_ Hgood].
      exact (Hgood parent child Hpair Hun). }
    exists e. split; [exact He |]. split; [exact (row_bad_class _ _ _ _ Hbad) |].
    exists data'. split; [exact Hin' | exact Hbad].
Qed.

(** The hierarchy is [x > z].  A sample of path [q > y] ends in the
    [KeyError] of [q], which is no parent; a sample of path [x > y] in the
    [ValueError] of [y], which is no child of the parent [x]. *)
Lemma unrecorded_pair_raises_witness :
  (exists e,
      @preprocessing_data insertion_order countdown_generator no_cleaning code_tokenizer
        (tree_self (one_row "some text" "y" "q > y") 1) (one_row "some text" "y" "q > y")
        (tree_world ("x > z" +:+ nl)) = inl e /\
      e = KeyError "q") /\
  (exists e,
      @preprocessing_data insertion_order countdown_generator no_cleaning code_tokenizer
        (tree_self (one_row "some text" "y" "x > y") 1) (one_row "some text" "y" "x > y")
        (tree_world ("x > z" +:+ nl)) = inl e /\
      e = ValueError "y").
Proof.
  split.
  - destruct (@unrecorded_pair_raises insertion_order countdown_generator
                no_cleaning code_tokenizer
                (tree_self (one_row "some text" "y" "q > y") 1)
                (one_row "some text" "y" "q > y")
                (tree_world ("x > z" +:+ nl)) ("x > z" +:+ nl)
                (Sample "some text" "-" "y" "q > y" 0) "q" "y")
      as (_ & e & He & _ & _).
    + vm_compute. reflexivity.
    + vm_compute. apply list_elem_of_here.
    + exists 0. split; vm_compute; reflexivity.
    + vm_compute. exact I.
    + exists e. split; [exact He |]. vm_compute in He. injection He as <-. reflexivity.
  - destruct (@unrecorded_pair_raises insertion_order countdown_generator
                no_cleaning code_tokenizer
                (tree_self (one_row "some text" "y" "x > y") 1)
                (one_row "some text" "y" "x > y")
                (tree_world ("x > z" +:+ nl)) ("x > z" +:+ nl)
                (Sample "some text" "-" "y" "x > y" 0) "x" "y")
      as (_ & e & He & _ & _).
    + vm_compute. reflexivity.
    + vm_compute. apply list_elem_of_here.
    + exists 0. split; vm_compute; reflexivity.
    + vm_compute. intros Hin. apply list_elem_of_singleton in Hin. discriminate Hin.
    + exists e. split; [exact He |]. vm_compute in He. injection He as <-. reflexivity.
Defined.

(** C6, as stated, fails: with the hierarchy [x > z] and a sample of path
    [x > y], preprocessing ends in the [ValueError] of [list.index], which
    carries the child [y] only; no [HierarchyMismatchError] exists. *)
Lemma hierarchy_mismatch_counterexample :
  @preprocessing_data insertion_order countdown_generator no_cleaning code_tokenizer
    (tree_self (one_row "some text" "y" "x > y") 1) (one_row "some text" "y" "x > y")
    (tree_world ("x > z" +:+ nl))
  = inl (ValueError "y") /\
  exn_class (ValueError "y") <> "HierarchyMismatchError".
Proof. split; [vm_compute; reflexivity | cbn; discriminate]. Qed.

(** C7, as the code has it.  Hierarchy parsing never raises on the content
    of a readable file: it returns the dict built from the lines, and a line
    with fewer than two nodes (once its last character is dropped and it is
    split on the delimiter), a blank line among them, records nothing and is
    passed over as if it were not there. *)
Theorem short_lines_are_skipped `{TorchRandom} (self : Preprocessor) (w : world)
    (text : string) :
  files w !! hierarchy_tree self = Some (TextFile text) ->
  generate_hierarchy_segment self w = ok (segment_lines (PyStr.lines text), w) /\
  (forall before after path,
      length (nodes_of_line path) < 2 ->
      segment_lines (before ++ path :: after) = segment_lines (before ++ after)) /\
  length (nodes_of_line nl) < 2 /\
  length (nodes_of_line ("   " +:+ nl)) < 2.
Proof.
  intros Hf. split; [apply generate_hierarchy_segment_ok; exact Hf |].
  split; [intros before after path; apply segment_lines_skip |].
  split; vm_compute; lia.
Qed.

Lemma short_lines_are_skipped_witness :
  generate_hierarchy_segment (tree_self [] 1) (tree_world ("a > b" +:+ nl +:+ "c" +:+ nl)) =
    ok (segment_lines (PyStr.lines ("a > b" +:+ nl +:+ "c" +:+ nl)),
        tree_world ("a > b" +:+ nl +:+ "c" +:+ nl)) /\
  (forall before after path,
      length (nodes_of_line path) < 2 ->
      segment_lines (before ++ path :: after) = segment_lines (before ++ after)) /\
  length (nodes_of_line nl) < 2 /\
  length (nodes_of_line ("   " +:+ nl)) < 2.
Proof.
  apply (short_lines_are_skipped (tree_self [] 1)
           (tree_world ("a > b" +:+ nl +:+ "c" +:+ nl)) ("a > b" +:+ nl +:+ "c" +:+ nl)).
  vm_compute. reflexivity.
Defined.

(** C7, as stated, fails: a file with a one-node line and a blank line is
    parsed without any exception; the two lines leave no trace. *)
Lemma malformed_line_counterexample :
  generate_hierarchy_segment (tree_self [] 1)
    (tree_world ("a > b" +:+ nl +:+ "c" +:+ nl +:+ nl)) =
  ok ([("a", ["b"])], tree_world ("a > b" +:+ nl +:+ "c" +:+ nl +:+ nl)) /\
  length (nodes_of_line ("c" +:+ nl)) = 1 /\
  length (nodes_of_line nl) = 1.
Proof. repeat split; vm_compute; reflexivity. Qed.




(** C9, on the code.  When the parsed hierarchy has a parent that no
    sample's path passes through, preprocessing does not complete: the
    bucket of that parent is still the empty list it was created as when
    the buckets are split, and indexing it with ['input_ids'] raises (unless
    an exception was raised before).  Nothing is returned or written. *)
Theorem untouched_parent_raises `{PySetOrder} `{TorchRandom}
    (data_cleaning : string -> string) (tokenizer : string -> nat -> list Z)
    (self : Preprocessor) (dataset : list row) (w : world) (text : string)
    (parent : string) :
  files w !! hierarchy_tree self = Some (TextFile text) ->
  is_Some (PyDict.get (segment_lines (PyStr.lines text)) parent) ->
  (forall data child,
      data ∈ samples_of dataset -> ~ path_pair (path_nodes (data_3 data)) parent child) ->
  exists e, preprocessing_data data_cleaning tokenizer self dataset w = inl e.
Proof. apply preprocessing_data_untouched. Qed.

(** The hierarchy has the parents [a] and [c], the only sample has the
    path [a > b]: the exception is the [TypeError] of the bucket of [c];
    without the line [c > d] the same table is preprocessed. *)
Lemma untouched_parent_raises_witness :
  (exists e,
      @preprocessing_data insertion_order countdown_generator no_cleaning code_tokenizer
        (tree_self (one_row "some text" "b" "a > b") 1) (one_row "some text" "b" "a > b")
        (tree_world ("a > b" +:+ nl +:+ "c > d" +:+ nl)) = inl e) /\
  @preprocessing_data insertion_order countdown_generator no_cleaning code_tokenizer
    (tree_self (one_row "some text" "b" "a > b") 1) (one_row "some text" "b" "a > b")
    (tree_world ("a > b" +:+ nl +:+ "c > d" +:+ nl))
  = inl TypeError /\
  is_ok (@preprocessing_data insertion_order countdown_generator no_cleaning code_tokenizer
           (tree_self (one_row "some text" "b" "a > b") 1) (one_row "some text" "b" "a > b")
           (tree_world ("a > b" +:+ nl)))
  = true.
Proof.
  split; [| split; vm_compute; reflexivity].
  apply (@untouched_parent_raises insertion_order countdown_generator
           no_cleaning code_tokenizer
           (tree_self (one_row "some text" "b" "a > b") 1) (one_row "some text" "b" "a > b")
           (tree_world ("a > b" +:+ nl +:+ "c > d" +:+ nl))
           ("a > b" +:+ nl +:+ "c > d" +:+ nl) "c").
  - vm_compute. reflexivity.
  - vm_compute. eexists. reflexivity.
  - intros data child Hin (depth & Hp & _).
    apply list_elem_of_singleton in Hin. subst data.
    destruct depth as [| [| depth]]; vm_compute in Hp; discriminate Hp.
Defined.

Lemma length_drop_last (s : string) :
  s <> EmptyString -> String.length (PyStr.drop_last s) + 1 = String.length s.
Proof.
  induction s as [| a s IH]; [contradiction |]. intros _.
  destruct s as [| b s]; [reflexivity |].
  change (PyStr.drop_last (String a (String b s)))
    with (String a (PyStr.drop_last (String b s))).
  cbn [String.length] in *. rewrite <- IH by discriminate. lia.
Qed.

(** C10, as the code has it.  Every line loses its last character before
    it is lowercased and split.  When the file does not end in a newline,
    that character is the last one of the last line.  If that line, read
    in full, has two nodes or more and its last node is not empty, the
    character is the last one of the last node: the line's nodes are those
    of the full line with the last one a character short, and the parsed
    hierarchy records the shortened name as a child of the node before
    it. *)
Theorem last_line_is_truncated (body : string) (c : ascii) (before : list string)
    (l : string) (ns : list string) (parent name : string) :
  c <> PyStr.newline ->
  PyStr.lines (PyStr.snoc body c) = before ++ [PyStr.snoc l c] ->
  PyStr.split " > " (PyStr.lower (PyStr.snoc l c)) = ns ++ [parent; name] ->
  name <> EmptyString ->
  nodes_of_line (PyStr.snoc l c) = PyStr.split " > " (PyStr.lower l) /\
  nodes_of_line (PyStr.snoc l c) = ns ++ [parent; PyStr.drop_last name] /\
  String.length (PyStr.drop_last name) + 1 = String.length name /\
  exists s, PyDict.get (segment_lines (PyStr.lines (PyStr.snoc body c))) parent = Some s /\
            PyStr.drop_last name ∈ s.
Proof.
  intros Hc Hl Hsplit Hname.
  assert (nodes_of_line (PyStr.snoc l c) = PyStr.split " > " (PyStr.lower l)) as Hnodes.
  { unfold nodes_of_line. rewrite drop_last_snoc. reflexivity. }
  split; [exact Hnodes |].
  assert (nodes_of_line (PyStr.snoc l c) = ns ++ [parent; PyStr.drop_last name]) as Htrunc.
  { rewrite Hnodes. rewrite lower_snoc in Hsplit.
    change (ns ++ [parent; name]) with (ns ++ [parent] ++ [name]) in Hsplit.
    rewrite app_assoc in Hsplit.
    rewrite (split_drop_last _ _ _ _ _ Hsplit Hname), <- app_assoc. reflexivity. }
  split; [exact Htrunc |].
  split; [apply length_drop_last; exact Hname |].
  apply segment_lines_elem. rewrite Hl.
  unfold file_pairs. rewrite flat_map_app. apply elem_of_app. right.
  cbn [flat_map]. rewrite app_nil_r, Htrunc. unfold adjacent_pairs.
  apply elem_of_lookup_zip_with. exists (length ns), parent, (PyStr.drop_last name).
  split; [reflexivity |]. split.
  - rewrite lookup_app_r by lia. rewrite Nat.sub_diag. reflexivity.
  - rewrite lookup_tail. rewrite lookup_app_r by lia.
    replace (S (length ns) - length ns) with 1 by lia. reflexivity.
Qed.

(** A file of two lines whose last line [a > b > cde] has no newline: its
    last node is recorded as [cd], a child of [b]. *)
Lemma last_line_is_truncated_witness :
  nodes_of_line "a > b > cde" = PyStr.split " > " (PyStr.lower "a > b > cd") /\
  nodes_of_line "a > b > cde" = ["a"] ++ ["b"; PyStr.drop_last "cde"] /\
  String.length (PyStr.drop_last "cde") + 1 = String.length "cde" /\
  exists s, PyDict.get (segment_lines (PyStr.lines ("x > y" +:+ nl +:+ "a > b > cde"))) "b"
            = Some s /\
            PyStr.drop_last "cde" ∈ s.
Proof.
  apply (last_line_is_truncated ("x > y" +:+ nl +:+ "a > b > cd") "e"
           ["x > y" +:+ nl] "a > b > cd" ["a"] "b" "cde").
  - vm_compute. discriminate.
  - vm_compute. reflexivity.
  - vm_compute. reflexivity.
  - discriminate.
Defined.

(** C10, as stated, fails for a last line that ends in the delimiter or
    has a single node.  The last line [a > b > ] has the nodes [a], [b]
    and the empty name; the character it loses is the space of the
    delimiter, so it is parsed as [a] and [b >], and what the hierarchy
    records is the child [b >] of [a]: no node is a character short.  The
    last line [abc] is parsed as the single node [ab] and records
    nothing. *)
Lemma trailing_delimiter_counterexample :
  PyStr.lines "a > b > " = ["a > b > "] /\
  PyStr.split " > " (PyStr.lower "a > b > ") = ["a"; "b"; ""] /\
  nodes_of_line "a > b > " = ["a"; "b >"] /\
  segment_lines (PyStr.lines "a > b > ") = [("a", ["b >"])] /\
  nodes_of_line "abc" = ["ab"] /\
  segment_lines (PyStr.lines "abc") = [].
Proof. repeat split; vm_compute; reflexivity. Qed.

(** * Further properties *)

(** ** Parents and their order *)

Lemma keys_add_child (d : PyDict.t PySet.t) (parent node : string) :
  PyDict.keys (add_child d parent node) =
  if decide (parent ∈ PyDict.keys d) then PyDict.keys d else PyDict.keys d ++ [parent].
Proof. unfold add_child. destruct (PyDict.get d parent); apply dict_keys_set. Qed.

Lemma keys_record_pairs (pairs : list (string * string)) :
  PyDict.keys (record_pairs pairs PyDict.empty) = PyList.unique [] (pairs.*1).
Proof.
  induction pairs as [| [a b] pairs IH] using rev_ind; [reflexivity |].
  unfold record_pairs in *. rewrite fold_left_app. cbn [fold_left fst snd].
  rewrite keys_add_child, IH, fmap_app. cbn [fmap list_fmap fst].
  rewrite unique_snoc. cbn [app].
  destruct (decide (a ∈ PyList.unique [] (pairs.*1))) as [Hu | Hu],
           (decide (a ∈ pairs.*1)) as [Hp | Hp]; try reflexivity; exfalso.
  - apply Hp. apply elem_of_unique in Hu. tauto.
  - apply Hu. apply elem_of_unique. split; [exact Hp | apply not_elem_of_nil].
Qed.

Lemma get_imap_index (ks : list string) (k : string) (i : nat) :
  NoDup ks ->
  PyDict.get (imap (fun i k => (k, i)) ks) k = Some i <-> ks !! i = Some k.
Proof.
  intros Hnd. split.
  - intros Hget. destruct (get_imap_keys_inv ks 0 i k Hget) as (j & -> & Hj). exact Hj.
  - intros Hl.
    destruct (get_imap_keys ks 0 k) as (j & Hj & _).
    { apply list_elem_of_lookup. exists i. exact Hl. }
    destruct (get_imap_keys_inv ks 0 _ k Hj) as (j' & Heq & Hj').
    assert (j' = i) as Hji by (eapply NoDup_lookup; eassumption).
    change (PyDict.get (imap (fun i k => (k, 0 + i)) ks) k = Some i).
    rewrite Hj. f_equal. lia.
Qed.

(** X1.  The keys of the parsed hierarchy are the nodes that some line
    follows by another node, each once, in the order in which the file
    first has them as a parent; [parents_idx] numbers them in that order
    from 0, so it is a bijection between the parents and their positions;
    no parent has an empty set of children. *)
Theorem parents_are_indexed_in_file_order (lines : list string) :
  let d := segment_lines lines in
  PyDict.keys d = PyList.unique [] ((file_pairs lines).*1) /\
  NoDup (PyDict.keys d) /\
  length (make_parents_idx d) = length (PyDict.keys d) /\
  (forall k i, PyDict.get (make_parents_idx d) k = Some i <-> PyDict.keys d !! i = Some k) /\
  (forall k, is_Some (PyDict.get d k) <-> exists c, (k, c) ∈ file_pairs lines) /\
  (forall k, PyDict.get d k <> Some PySet.empty).
Proof.
  intros d. pose proof (NoDup_keys_segment_lines lines) as Hnd. fold d in Hnd.
  split; [unfold d; rewrite segment_lines_pairs; apply keys_record_pairs |].
  split; [exact Hnd |].
  split; [rewrite make_parents_idx_eq by exact Hnd; apply length_imap |].
  split; [intros k i; rewrite make_parents_idx_eq by exact Hnd; apply get_imap_index; exact Hnd |].
  split.
  - intros k. unfold d. rewrite segment_lines_get.
    destruct (children_in k (file_pairs lines)) as [| c cs] eqn:Hcs.
    + split; [intros [? ?]; discriminate |].
      intros [c Hc]. apply elem_of_children_in in Hc. rewrite Hcs in Hc. inversion Hc.
    + split; [| intros _; eexists; reflexivity].
      intros _. exists c. apply elem_of_children_in. rewrite Hcs. left.
  - intros k Hk. unfold d in Hk. rewrite segment_lines_get in Hk.
    destruct (children_in k (file_pairs lines)) as [| c cs] eqn:Hcs; [discriminate |].
    unfold first_encounter in Hk. rewrite Hcs in Hk. cbn in Hk. discriminate.
Qed.

(** ** Lines that repeat what is recorded *)

Lemma dict_set_same {V} (d : PyDict.t V) (k : string) (v : V) :
  PyDict.get d k = Some v -> PyDict.set d k v = d.
Proof.
  induction d as [| [k0 v0] d IH]; [discriminate |]. cbn.
  destruct (decide (k = k0)) as [-> | Hne].
  - intros Hv. injection Hv as ->. reflexivity.
  - intros Hv. rewrite IH by exact Hv. reflexivity.
Qed.

Lemma add_child_recorded (d : PyDict.t PySet.t) (parent node : string) (s : PySet.t) :
  PyDict.get d parent = Some s -> node ∈ s -> add_child d parent node = d.
Proof.
  intros Hs Hin. unfold add_child. rewrite Hs. unfold PySet.add, PySet.t in *.
  destruct (decide (node ∈ s)); [| contradiction]. apply dict_set_same. exact Hs.
Qed.

Lemma fold_add_path_pairs (lines : list string) (d : PyDict.t PySet.t) :
  fold_left add_path lines d = record_pairs (file_pairs lines) d.
Proof.
  revert d. induction lines as [| path lines IH]; intros d; [reflexivity |].
  cbn [fold_left file_pairs flat_map]. unfold record_pairs. rewrite fold_left_app.
  rewrite IH, add_path_pairs. reflexivity.
Qed.

Lemma record_pairs_recorded (pairs : list (string * string)) (d : PyDict.t PySet.t) :
  (forall p c, (p, c) ∈ pairs -> exists s, PyDict.get d p = Some s /\ c ∈ s) ->
  record_pairs pairs d = d.
Proof.
  induction pairs as [| [a b] pairs IH]; intros Hrec; [reflexivity |].
  cbn [record_pairs fold_left fst snd].
  destruct (Hrec a b ltac:(left)) as (s & Hs & Hb).
  rewrite (add_child_recorded d a b s Hs Hb).
  apply IH. intros p c Hin. apply Hrec. right. exact Hin.
Qed.

(** X2.  Lines whose (parent, child) pairs all occur in the lines before
    them add nothing to the parsed hierarchy: repeating a path, or listing
    a part of a path already listed, changes neither the children nor the
    order of the parents. *)
Theorem repeated_pairs_change_nothing (before after : list string) :
  (forall pc, pc ∈ file_pairs after -> pc ∈ file_pairs before) ->
  segment_lines (before ++ after) = segment_lines before.
Proof.
  intros Hsub. unfold segment_lines. rewrite fold_left_app.
  fold (segment_lines before). rewrite fold_add_path_pairs.
  apply record_pairs_recorded. intros p c Hin.
  apply segment_lines_elem. apply Hsub. exact Hin.
Qed.

Lemma repeated_pairs_change_nothing_witness :
  segment_lines (["a > b > c" +:+ nl; "a > d" +:+ nl] ++ ["a > b > c" +:+ nl; "a > d" +:+ nl])
  = segment_lines ["a > b > c" +:+ nl; "a > d" +:+ nl].
Proof.
  apply (repeated_pairs_change_nothing ["a > b > c" +:+ nl; "a > d" +:+ nl]
           ["a > b > c" +:+ nl; "a > d" +:+ nl]).
  intros pc Hin. exact Hin.
Defined.

(** ** Lower case *)

Lemma lower_ascii_idempotent (c : ascii) :
  PyStr.lower_ascii (PyStr.lower_ascii c) = PyStr.lower_ascii c.
Proof. destruct c as [[] [] [] [] [] [] [] []]; reflexivity. Qed.

Lemma lower_idempotent (s : string) : PyStr.lower (PyStr.lower s) = PyStr.lower s.
Proof.
  induction s as [| c s IH]; [reflexivity |].
  cbn [PyStr.lower]. rewrite lower_ascii_idempotent, IH. reflexivity.
Qed.

Lemma lower_drop_last (s : string) :
  PyStr.lower (PyStr.drop_last s) = PyStr.drop_last (PyStr.lower s).
Proof.
  induction s as [| c s IH]; [reflexivity |].
  destruct s as [| c' s]; [reflexivity |].
  change (PyStr.drop_last (String c (String c' s)))
    with (String c (PyStr.drop_last (String c' s))).
  cbn [PyStr.lower] in *.
  change (PyStr.drop_last (String (PyStr.lower_ascii c) (String (PyStr.lower_ascii c') (PyStr.lower s))))
    with (String (PyStr.lower_ascii c)
            (PyStr.drop_last (String (PyStr.lower_ascii c') (PyStr.lower s)))).
  rewrite IH. reflexivity.
Qed.

Lemma is_lower_snoc (s : string) (c : ascii) :
  is_lower s -> PyStr.lower_ascii c = c -> is_lower (PyStr.snoc s c).
Proof. unfold is_lower. intros Hs Hc. rewrite lower_snoc, Hs, Hc. reflexivity. Qed.

Lemma is_lower_cons (c : ascii) (s : string) :
  is_lower (String c s) -> PyStr.lower_ascii c = c /\ is_lower s.
Proof. unfold is_lower. cbn [PyStr.lower]. intros Heq. injection Heq as Hc Hs. tauto. Qed.

Lemma split_go_is_lower (sep : string) (s : string) :
  forall skip cur, is_lower cur -> is_lower s ->
                   Forall is_lower (PyStr.split_go sep skip cur s).
Proof.
  induction s as [| c s IH]; intros skip cur Hcur Hs.
  - cbn. constructor; [exact Hcur | constructor].
  - apply is_lower_cons in Hs as [Hc Hs]. cbn [PyStr.split_go].
    destruct skip as [| k]; [| apply IH; assumption].
    destruct (String.prefix sep (String c s)).
    + constructor; [exact Hcur |]. apply IH; [reflexivity | exact Hs].
    + apply IH; [apply is_lower_snoc; assumption | exact Hs].
Qed.

(** X3.  The hierarchy is read without regard to the case of ASCII
    letters: a line and its lower-case form give the same nodes, every
    recorded node is in lower case, and so is every node of a sample's
    path; a sample path [A > B] matches a hierarchy line [a > b]. *)
Theorem hierarchy_ignores_case (lines : list string) (path : string) :
  segment_lines (map PyStr.lower lines) = segment_lines lines /\
  path_nodes (PyStr.lower path) = path_nodes path /\
  Forall is_lower (path_nodes path) /\
  (forall line, Forall is_lower (nodes_of_line line)) /\
  (forall p c, (p, c) ∈ file_pairs lines -> is_lower p /\ is_lower c).
Proof.
  assert (forall line, nodes_of_line (PyStr.lower line) = nodes_of_line line) as Hnodes.
  { intros line. unfold nodes_of_line.
    rewrite <- lower_drop_last, lower_idempotent. reflexivity. }
  assert (forall line, Forall is_lower (nodes_of_line line)) as Hlow.
  { intros line. unfold nodes_of_line, PyStr.split.
    apply split_go_is_lower; [reflexivity | apply lower_idempotent]. }
  split.
  { unfold segment_lines. rewrite !fold_add_path_pairs. f_equal.
    unfold file_pairs. induction lines as [| l lines IH]; [reflexivity |].
    cbn [map flat_map]. rewrite Hnodes, IH. reflexivity. }
  split; [unfold path_nodes; rewrite lower_idempotent; reflexivity |].
  split.
  { unfold path_nodes, PyStr.split. apply split_go_is_lower; [reflexivity | apply lower_idempotent]. }
  split; [exact Hlow |].
  intros p c Hin. unfold file_pairs in Hin. apply list_elem_of_In, in_flat_map in Hin.
  destruct Hin as (line & _ & Hpc). apply list_elem_of_In in Hpc.
  unfold adjacent_pairs in Hpc.
  apply elem_of_lookup_zip_with in Hpc as (i & x & y & Heq & Hx & Hy).
  injection Heq as <- <-. specialize (Hlow line). rewrite Forall_forall in Hlow.
  split; apply Hlow.
  - apply list_elem_of_lookup. exists i. exact Hx.
  - rewrite lookup_tail in Hy. apply list_elem_of_lookup. exists (S i). exact Hy.
Qed.

(** ** [get_max_length] *)

Lemma fold_max_ge (ns : list nat) (n : nat) :
  n <= fold_left Nat.max ns n /\ Forall (fun m => m <= fold_left Nat.max ns n) ns.
Proof.
  revert n. induction ns as [| m ns IH]; intros n; cbn [fold_left].
  - split; [lia | constructor].
  - destruct (IH (Nat.max n m)) as [Hn Hall]. split; [lia |].
    constructor; [lia | exact Hall].
Qed.

Lemma fold_max_in (ns : list nat) (n : nat) :
  fold_left Nat.max ns n = n \/ fold_left Nat.max ns n ∈ ns.
Proof.
  revert n. induction ns as [| m ns IH]; intros n; cbn [fold_left]; [left; reflexivity |].
  destruct (IH (Nat.max n m)) as [Heq | Hin].
  - rewrite Heq. destruct (Nat.max_spec n m) as [[_ ->] | [_ ->]];
      [right; left | left; reflexivity].
  - right. right. exact Hin.
Qed.

(** X4.  On a table with rows [get_max_length] returns the largest number
    of white-space separated words of a text of the table plus 10: at
    least the count of every row plus 10, and exactly that of some row. *)
Theorem get_max_length_is_longest_plus_ten (rows : list sample) :
  rows <> [] ->
  exists n, get_max_length rows = ok n /\
            (forall data, data ∈ rows -> length (PyStr.words (data_0 data)) + 10 <= n) /\
            (exists data, data ∈ rows /\ n = length (PyStr.words (data_0 data)) + 10).
Proof.
  destruct rows as [| r rows]; [contradiction |]. intros _.
  unfold get_max_length. cbn [map].
  set (f := fun data => length (PyStr.words (data_0 data))).
  exists (fold_left Nat.max (map f rows) (f r) + 10). split; [reflexivity |].
  destruct (fold_max_ge (map f rows) (f r)) as [Hr Hall]. rewrite Forall_forall in Hall.
  split.
  - intros data Hin. apply elem_of_cons in Hin as [-> | Hin]; [fold (f r); lia |].
    assert (f data <= fold_left Nat.max (map f rows) (f r)).
    { apply Hall. apply list_elem_of_fmap. exists data. split; [reflexivity | exact Hin]. }
    unfold f in *. lia.
  - destruct (fold_max_in (map f rows) (f r)) as [Heq | Hin].
    + exists r. split; [left |]. rewrite Heq. reflexivity.
    + apply list_elem_of_fmap in Hin as (data & Heq & Hin).
      exists data. split; [right; exact Hin |]. rewrite Heq. reflexivity.
Qed.

Lemma get_max_length_is_longest_plus_ten_witness :
  exists n,
    get_max_length [Sample "one two  three" "-" "x" "a > x" 0; Sample "four" "-" "y" "a > y" 1]
    = ok n /\ n = 13.
Proof.
  destruct (get_max_length_is_longest_plus_ten
              [Sample "one two  three" "-" "x" "a > x" 0; Sample "four" "-" "y" "a > y" 1])
    as (n & Hn & _).
  - discriminate.
  - exists n. split; [exact Hn |]. vm_compute in Hn. injection Hn as <-. reflexivity.
Defined.

(** ** Labels *)

Lemma index_of_lookup (x : string) (l : list string) (i : nat) :
  NoDup l -> l !! i = Some x -> PyList.index_of x l = Some i.
Proof.
  intros Hnd Hl. destruct (index_of_Some x l) as (j & Hj & Hlj).
  { apply list_elem_of_lookup. exists i. exact Hl. }
  rewrite Hj. f_equal. eapply NoDup_lookup; eassumption.
Qed.

Lemma sample_label (dataset : list row) (data : sample) :
  data ∈ samples_of dataset ->
  data_leaf data ∈ leaves (dropna dataset) /\
  PyList.unique [] (leaves (dropna dataset)) !! data_4 data = Some (data_leaf data).
Proof.
  intros Hin. unfold samples_of in Hin.
  apply list_elem_of_fmap in Hin as ([[[a b] leaf] d] & -> & Hr).
  cbn [to_sample data_leaf data_4].
  assert (leaf ∈ leaves (dropna dataset)) as Hleaf.
  { unfold leaves. apply list_elem_of_fmap. exists (a, b, leaf, d). split; [reflexivity | exact Hr]. }
  split; [exact Hleaf |].
  destruct (index_of_Some leaf (PyList.unique [] (leaves (dropna dataset)))) as (i & Hi & Hl).
  { apply elem_of_unique. split; [exact Hleaf | apply not_elem_of_nil]. }
  rewrite Hi. exact Hl.
Qed.

(** X5.  The labels are numbered densely and without clashes: two samples
    have the same [label_idx] exactly when they have the same leaf, every
    [label_idx] is below the number of distinct leaves of the complete
    rows, and every number below it is the [label_idx] of some sample. *)
Theorem label_idx_is_a_bijection (dataset : list row) :
  let labels_idx := PyList.unique [] (leaves (dropna dataset)) in
  (forall d1 d2, d1 ∈ samples_of dataset -> d2 ∈ samples_of dataset ->
                 (data_4 d1 = data_4 d2 <-> data_leaf d1 = data_leaf d2)) /\
  (forall data, data ∈ samples_of dataset ->
                data_4 data < length labels_idx /\
                labels_idx !! data_4 data = Some (data_leaf data)) /\
  (forall i, i < length labels_idx -> exists data, data ∈ samples_of dataset /\ data_4 data = i).
Proof.
  intros labels_idx.
  pose proof (NoDup_unique [] (leaves (dropna dataset))) as Hnd. fold labels_idx in Hnd.
  split; [| split].
  - intros d1 d2 H1 H2.
    destruct (sample_label dataset d1 H1) as [_ Hl1].
    destruct (sample_label dataset d2 H2) as [_ Hl2]. fold labels_idx in Hl1, Hl2.
    split.
    + intros Heq. rewrite Heq in Hl1. congruence.
    + intros Heq. rewrite Heq in Hl1. eapply NoDup_lookup; eassumption.
  - intros data Hin. destruct (sample_label dataset data Hin) as [_ Hl]. fold labels_idx in Hl.
    split; [apply lookup_lt_Some in Hl; exact Hl | exact Hl].
  - intros i Hi. apply lookup_lt_is_Some in Hi as [leaf Hleaf].
    assert (leaf ∈ leaves (dropna dataset)) as Hin.
    { assert (leaf ∈ labels_idx) as Hu by (apply list_elem_of_lookup; eauto).
      apply elem_of_unique in Hu. tauto. }
    unfold leaves in Hin. apply list_elem_of_fmap in Hin as ([[[a b] leaf'] d] & Heq & Hr).
    cbn in Heq. subst leaf'.
    exists (to_sample labels_idx (a, b, leaf, d)). split.
    + unfold samples_of. apply list_elem_of_fmap. exists (a, b, leaf, d). split; [reflexivity | exact Hr].
    + cbn [to_sample data_4]. rewrite (index_of_lookup leaf labels_idx i Hnd Hleaf). reflexivity.
Qed.

(** ** Incomplete rows *)

Lemma dropna_app (t1 t2 : list row) : dropna (t1 ++ t2) = dropna t1 ++ dropna t2.
Proof. unfold dropna. apply omap_app. Qed.

Lemma dropna_incomplete (r : row) : ~ complete r -> dropna [r] = [].
Proof.
  unfold complete, dropna. destruct r as [[a |] [b |] [c |] [d |]]; cbn; intros Hn;
    try reflexivity.
  exfalso. apply Hn. repeat split; eexists; reflexivity.
Qed.

(** X6.  A row with a missing cell leaves no trace: the samples, and with
    them the numbering of the labels, are those of the table without that
    row, even when the row carries a leaf no other row has. *)
Theorem incomplete_rows_are_dropped (before after : list row) (r : row) :
  ~ complete r ->
  samples_of (before ++ r :: after) = samples_of (before ++ after) /\
  length (samples_of (before ++ r :: after)) <= length before + length after.
Proof.
  intros Hr.
  assert (dropna (before ++ r :: after) = dropna (before ++ after)) as Hdrop.
  { change (r :: after) with ([r] ++ after).
    rewrite !dropna_app, dropna_incomplete by exact Hr. reflexivity. }
  unfold samples_of. rewrite Hdrop. split; [reflexivity |].
  rewrite length_map, dropna_app, length_app. unfold dropna.
  assert (forall t : list row, length (dropna t) <= length t) as Hlen.
  { intros t. unfold dropna. induction t as [| x t IH]; [cbn; lia |].
    cbn [omap list_omap]. destruct (match col_text x with Some _ => _ | None => _ end);
      cbn [length]; lia. }
  pose proof (Hlen before). pose proof (Hlen after). unfold dropna in *. lia.
Qed.

Lemma incomplete_rows_are_dropped_witness :
  samples_of (one_row "first" "x" "a > x" ++
              Row (Some "second") None (Some "y") (Some "a > y") :: one_row "third" "z" "a > z")
  = samples_of (one_row "first" "x" "a > x" ++ one_row "third" "z" "a > z") /\
  length (samples_of (one_row "first" "x" "a > x" ++
              Row (Some "second") None (Some "y") (Some "a > y") :: one_row "third" "z" "a > z"))
  <= length (one_row "first" "x" "a > x") + length (one_row "third" "z" "a > z").
Proof.
  apply (incomplete_rows_are_dropped (one_row "first" "x" "a > x")
           (one_row "third" "z" "a > z")
           (Row (Some "second") None (Some "y") (Some "a > y"))).
  intros (_ & [b Hb] & _). discriminate Hb.
Defined.

(** ** Small collections *)

Lemma train_valid_count_near (n : nat) :
  (- 5 <= 10 * Z.of_nat (train_valid_count n) - 8 * Z.of_nat n <= 5)%Z.
Proof.
  unfold train_valid_count.
  pose proof (rne_div_fraction 8 (Z.of_nat n) ltac:(lia) ltac:(lia)) as Hf.
  pose proof (PyFloatFacts.rne_div_near (8 * Z.of_nat n) 10 ltac:(lia)) as Hn.
  rewrite Z2Nat.id by lia. lia.
Qed.

Lemma train_count_near (n : nat) :
  (- 5 <= 10 * Z.of_nat (train_count n) - 9 * Z.of_nat (train_valid_count n) <= 5)%Z.
Proof.
  unfold train_count.
  pose proof (rne_div_fraction 9 (Z.of_nat (train_valid_count n)) ltac:(lia) ltac:(lia)) as Hf.
  pose proof (PyFloatFacts.rne_div_near (9 * Z.of_nat (train_valid_count n)) 10 ltac:(lia)) as Hn.
  rewrite Z2Nat.id by lia. lia.
Qed.

Lemma small_counts (n : nat) :
  (train_count n = 0 <-> n = 0) /\
  (train_valid_count n - train_count n = 0 <-> n <= 5) /\
  (n - train_valid_count n = 0 <-> n <= 2).
Proof.
  pose proof (train_valid_count_near n) as Htv.
  pose proof (train_count_near n) as Htr.
  pose proof (train_valid_count_le n) as Hle.
  pose proof (train_count_le n) as Hle'.
  destruct (le_lt_dec n 6) as [Hsmall | Hbig].
  - do 7 (destruct n as [| n]; [vm_compute; repeat split; intros; lia |]). lia.
  - repeat split; intros; lia.
Qed.

Section SmallSplits.
Context `{TorchRandom}.

(** X7.  The splitter accepts every size and enforces no minimum: the
    train part is empty only for an empty collection, the validation part
    is empty exactly for 5 examples or fewer, and the test part exactly
    for 2 or fewer. *)
Theorem small_collections_split_into_empty_parts
    (input_ids target : list (list Z)) (w : world) :
  length input_ids = length target ->
  (Z.of_nat (length input_ids) < 2 ^ 49)%Z ->
  exists train valid test w',
    data_splitting input_ids target w = ok ((train, valid, test), w') /\
    (ds_len train = 0 <-> length input_ids = 0) /\
    (ds_len valid = 0 <-> length input_ids <= 5) /\
    (ds_len test = 0 <-> length input_ids <= 2).
Proof.
  intros Hlen Hn.
  destruct (data_splitting_sizes input_ids target w Hlen Hn)
    as (train & valid & test & w' & Hrun & Htr & Htv & Hsum).
  exists train, valid, test, w'. split; [exact Hrun |].
  destruct (small_counts (length input_ids)) as (H1 & H2 & H3).
  pose proof (train_valid_count_le (length input_ids)).
  pose proof (train_count_le (length input_ids)).
  repeat split; intros; lia.
Qed.

End SmallSplits.

Lemma small_collections_split_into_empty_parts_witness :
  exists train valid test w',
    data_splitting (replicate 6 [7%Z]) (replicate 6 [0%Z; 1%Z])
      (@empty_world countdown_generator tt) = ok ((train, valid, test), w') /\
    ds_len train = 4 /\ ds_len valid = 1 /\ ds_len test = 1.
Proof.
  destruct (small_collections_split_into_empty_parts
              (replicate 6 [7%Z]) (replicate 6 [0%Z; 1%Z]) (@empty_world countdown_generator tt))
    as (train & valid & test & w' & Hrun & _).
  - vm_compute. reflexivity.
  - vm_compute. reflexivity.
  - exists train, valid, test, w'. split; [exact Hrun |].
    vm_compute in Hrun. injection Hrun as <- <- <- _. repeat split; reflexivity.
Defined.

(** ** The inner loop as a loop over adjacent pairs *)

Lemma drop_last_cons2 {A} (x y : A) (l : list A) :
  PyList.drop_last (x :: y :: l) = x :: PyList.drop_last (y :: l).
Proof.
  unfold PyList.drop_last.
  replace (length (x :: y :: l) - 1) with (S (length (y :: l) - 1)) by (cbn [length]; lia).
  reflexivity.
Qed.

Section Accumulate.
Context `{PySetOrder}.

Lemma encode_pair_pc (d : PyDict.t PySet.t) (pidx : PyDict.t nat) (ids : list Z)
    (nodes : list string) (sbh : list bucket) (depth : nat) (node child : string) :
  nodes !! (depth + 1) = Some child ->
  encode_pair d pidx ids nodes sbh (depth, node) = encode_pc d pidx ids sbh (node, child).
Proof. intros Hc. unfold encode_pair, encode_pc, getitem at 1. rewrite Hc. reflexivity. Qed.

Lemma encode_pairs_adjacent (d : PyDict.t PySet.t) (pidx : PyDict.t nat) (ids : list Z)
    (nodes pre suf : list string) (x : string) (sbh : list bucket) :
  nodes = pre ++ x :: suf ->
  for_each (encode_pair d pidx ids nodes)
           (imap (fun i y => (length pre + i, y)) (PyList.drop_last (x :: suf))) sbh
  = for_each (encode_pc d pidx ids) (zip (x :: suf) suf) sbh.
Proof.
  revert pre x sbh. induction suf as [| y suf IH]; intros pre x sbh Hn; [reflexivity |].
  rewrite drop_last_cons2.
  change (zip (x :: y :: suf) (y :: suf)) with ((x, y) :: zip (y :: suf) suf).
  cbn [imap for_each].
  rewrite (encode_pair_pc d pidx ids nodes sbh (length pre + 0) x y); cycle 1.
  { rewrite Hn, lookup_app_r by lia.
    replace (length pre + 0 + 1 - length pre) with 1 by lia. reflexivity. }
  destruct (encode_pc d pidx ids sbh (x, y)) as [e | sbh1]; [reflexivity |].
  cbn [rbind]. rewrite <- (IH (pre ++ [x]) y sbh1) by (rewrite Hn, <- app_assoc; reflexivity).
  f_equal. apply imap_ext. intros i z _. cbn. f_equal. rewrite length_app. cbn. lia.
Qed.

Lemma encode_path_adjacent (d : PyDict.t PySet.t) (pidx : PyDict.t nat) (ids : list Z)
    (nodes : list string) (sbh : list bucket) :
  for_each (encode_pair d pidx ids nodes) (PyList.enumerate (PyList.drop_last nodes)) sbh
  = for_each (encode_pc d pidx ids) (adjacent_pairs nodes) sbh.
Proof.
  destruct nodes as [| x suf]; [reflexivity |].
  exact (encode_pairs_adjacent d pidx ids (x :: suf) [] suf x sbh eq_refl).
Qed.

(** ** What a step adds to the buckets *)

Lemma bucket_of_snoc (es : list example) (ids v : list Z) :
  (let '(i, t) := match bucket_of es with
                  | EmptyList => ([], [])
                  | Bucket i t => (i, t)
                  end in Bucket (i ++ [ids]) (t ++ [v]))
  = bucket_of (es ++ [(ids, v)]).
Proof.
  destruct es as [| e es]; [reflexivity |].
  cbn [bucket_of app]. rewrite !fmap_cons, !fmap_app. reflexivity.
Qed.

Lemma encode_pc_recorded (d : PyDict.t PySet.t) (ids : list Z) (sbh : list bucket)
    (E : string -> list example) (p c : string) (v : list Z) :
  NoDup (PyDict.keys d) ->
  buckets_hold d sbh E ->
  hierarchical_binary d p c = ok v ->
  exists sbh',
    encode_pc d (make_parents_idx d) ids sbh (p, c) = ok sbh' /\
    buckets_hold d sbh' (fun k => E k ++ if decide (p = k) then [(ids, v)] else []).
Proof.
  intros Hnd [Hlen Hhold] Hv.
  assert (is_Some (PyDict.get d p)) as Hkey.
  { unfold hierarchical_binary, PyDict.getitem in Hv.
    destruct (PyDict.get d p); [eexists; reflexivity | discriminate]. }
  destruct (parents_idx_lookup d p Hnd Hkey) as (i & Hi & Hilt).
  pose proof (Hhold p i Hi) as Hb.
  unfold encode_pc. cbn [fst snd]. rewrite Hv. cbn [rbind ok].
  unfold PyDict.getitem. rewrite Hi. cbn [rbind ok].
  unfold getitem. rewrite Hb. cbn [rbind ok].
  pose proof (bucket_of_snoc (E p) ids v) as Hsnoc.
  destruct (match bucket_of (E p) with EmptyList => ([], []) | Bucket i0 t => (i0, t) end)
    as [i0 t0].
  unfold PyList.setitem. rewrite decide_True by lia.
  eexists. split; [reflexivity |]. split; [rewrite length_insert; exact Hlen |].
  intros k j Hj. destruct (decide (j = i)) as [-> | Hne].
  - assert (p = k) as <- by (exact (parents_idx_injective d p k i Hnd Hi Hj)).
    rewrite list_lookup_insert_eq by lia. rewrite decide_True by reflexivity.
    rewrite Hsnoc. reflexivity.
  - rewrite list_lookup_insert_ne by congruence.
    destruct (decide (p = k)) as [<- | _]; [congruence |].
    rewrite app_nil_r. apply Hhold. exact Hj.
Qed.

Lemma pair_examples_snoc (d : PyDict.t PySet.t) (ids : list Z) (k : string)
    (pairs : list (string * string)) (p c : string) (v : list Z) :
  hierarchical_binary d p c = ok v ->
  pair_examples d ids k ((p, c) :: pairs) =
  (if decide (p = k) then [(ids, v)] else []) ++ pair_examples d ids k pairs.
Proof.
  intros Hv. unfold pair_examples. cbn [omap list_omap fst snd].
  destruct (decide (p = k)); [| reflexivity]. rewrite Hv. reflexivity.
Qed.

Lemma encode_pcs_recorded (d : PyDict.t PySet.t) (ids : list Z)
    (pairs : list (string * string)) :
  NoDup (PyDict.keys d) ->
  (forall p c, (p, c) ∈ pairs -> ~ unrecorded d p c) ->
  forall sbh E,
    buckets_hold d sbh E ->
    exists sbh',
      for_each (encode_pc d (make_parents_idx d) ids) pairs sbh = ok sbh' /\
      buckets_hold d sbh' (fun k => E k ++ pair_examples d ids k pairs).
Proof.
  intros Hnd. induction pairs as [| [p c] pairs IH]; intros Hrec sbh E Hhold.
  - exists sbh. split; [reflexivity |]. destruct Hhold as [Hlen Hh]. split; [exact Hlen |].
    intros k j Hj. cbn. rewrite app_nil_r. apply Hh. exact Hj.
  - destruct (unrecorded_dec d p c) as [Hu | (s & Hs & Hc)].
    { exfalso. exact (Hrec p c ltac:(left) Hu). }
    destruct (hierarchical_binary_recorded d p c s Hs Hc) as (i & v & _ & Hv & _).
    destruct (encode_pc_recorded d ids sbh E p c v Hnd Hhold Hv) as (sbh1 & Hstep & Hhold1).
    destruct (IH ltac:(intros p' c' Hin; apply Hrec; right; exact Hin) sbh1 _ Hhold1)
      as (sbh' & Hrun & Hhold').
    exists sbh'. cbn [for_each]. rewrite Hstep. cbn [rbind]. split; [exact Hrun |].
    destruct Hhold' as [Hlen Hh]. split; [exact Hlen |].
    intros k j Hj. rewrite (Hh k j Hj). f_equal.
    rewrite (pair_examples_snoc d ids k pairs p c v Hv), app_assoc. reflexivity.
Qed.

End Accumulate.

Lemma adjacent_pairs_path_pair (nodes : list string) (p c : string) :
  (p, c) ∈ adjacent_pairs nodes <-> path_pair nodes p c.
Proof.
  unfold adjacent_pairs, path_pair. rewrite elem_of_lookup_zip_with. split.
  - intros (i & x & y & Heq & Hx & Hy). injection Heq as <- <-.
    exists i. rewrite lookup_tail in Hy. split; assumption.
  - intros (i & Hp & Hc). exists i, p, c. rewrite lookup_tail. repeat split; assumption.
Qed.

Section Rows.
Context `{PySetOrder}.
Variable data_cleaning : string -> string.
Variable tokenizer : string -> nat -> list Z.

Lemma pair_examples_length (d : PyDict.t PySet.t) (ids : list Z) (k : string)
    (pairs : list (string * string)) :
  (forall p c, (p, c) ∈ pairs -> ~ unrecorded d p c) ->
  length (pair_examples d ids k pairs) = length (filter (fun pc => pc.1 = k) pairs).
Proof.
  induction pairs as [| [p c] pairs IH]; intros Hrec; [reflexivity |].
  destruct (unrecorded_dec d p c) as [Hu | (s & Hs & Hc)].
  { exfalso. exact (Hrec p c ltac:(left) Hu). }
  destruct (hierarchical_binary_recorded d p c s Hs Hc) as (i & v & _ & Hv & _).
  rewrite (pair_examples_snoc d ids k pairs p c v Hv), length_app.
  assert (IH' := IH ltac:(intros p' c' Hin; apply Hrec; right; exact Hin)).
  rewrite filter_cons. cbn [fst].
  destruct (decide (p = k)); cbn [length Nat.add]; [f_equal |]; exact IH'.
Qed.

Lemma encode_row_good (self : Preprocessor) (d : PyDict.t PySet.t) (max_length : nat)
    (sbh : list bucket) (fi ft : list (list Z)) (E : string -> list example)
    (data : sample) :
  NoDup (PyDict.keys d) ->
  row_good self d data ->
  buckets_hold d sbh E ->
  exists sbh',
    encode_row data_cleaning tokenizer self d (make_parents_idx d) max_length
      (sbh, fi, ft) data
    = ok (sbh', fi ++ [tokenizer (data_cleaning (data_0 data)) max_length],
          ft ++ [flat_one_hot self data]) /\
    buckets_hold d sbh'
      (fun k => E k ++ pair_examples d (tokenizer (data_cleaning (data_0 data)) max_length) k
                         (adjacent_pairs (path_nodes (data_3 data)))).
Proof.
  intros Hnd [Hlt Hrec] Hhold.
  destruct (encode_pcs_recorded d (tokenizer (data_cleaning (data_0 data)) max_length)
              (adjacent_pairs (path_nodes (data_3 data))) Hnd) with (sbh := sbh) (E := E)
    as (sbh' & Hrun & Hhold').
  { intros p c Hin. apply Hrec. apply adjacent_pairs_path_pair. exact Hin. }
  { exact Hhold. }
  exists sbh'. split; [| exact Hhold'].
  unfold encode_row, flat_binary, PyList.setitem, PyList.zeros.
  rewrite length_replicate, decide_True by exact Hlt. cbn [rbind ok].
  fold (path_nodes (data_3 data)). rewrite encode_path_adjacent, Hrun. reflexivity.
Qed.

Lemma encode_rows_good (self : Preprocessor) (d : PyDict.t PySet.t) (max_length : nat)
    (rows : list sample) :
  NoDup (PyDict.keys d) ->
  Forall (row_good self d) rows ->
  forall sbh fi ft E,
    buckets_hold d sbh E ->
    exists sbh',
      for_each (encode_row data_cleaning tokenizer self d (make_parents_idx d) max_length)
               rows (sbh, fi, ft)
      = ok (sbh',
            fi ++ map (fun data => tokenizer (data_cleaning (data_0 data)) max_length) rows,
            ft ++ map (flat_one_hot self) rows) /\
      buckets_hold d sbh'
        (fun k => E k ++ bucket_examples data_cleaning tokenizer d max_length k rows).
Proof.
  intros Hnd. induction 1 as [| data rows Hgood _ IH]; intros sbh fi ft E Hhold.
  - exists sbh. cbn [for_each map]. rewrite !app_nil_r. split; [reflexivity |].
    destruct Hhold as [Hlen Hh]. split; [exact Hlen |].
    intros k j Hj. cbn. rewrite app_nil_r. apply Hh. exact Hj.
  - destruct (encode_row_good self d max_length sbh fi ft E data Hnd Hgood Hhold)
      as (sbh1 & Hstep & Hhold1).
    destruct (IH sbh1 (fi ++ [tokenizer (data_cleaning (data_0 data)) max_length])
                (ft ++ [flat_one_hot self data]) _ Hhold1) as (sbh' & Hrun & Hhold').
    exists sbh'. cbn [for_each]. rewrite Hstep. unfold rbind, ok. cbv beta iota.
    fold (@ok (list bucket * list (list Z) * list (list Z))). rewrite Hrun.
    cbn [map]. rewrite <- !app_assoc. split; [reflexivity |].
    destruct Hhold' as [Hlen Hh]. split; [exact Hlen |].
    intros k j Hj. rewrite (Hh k j Hj). f_equal. unfold bucket_examples.
    cbn [flat_map]. rewrite app_assoc. reflexivity.
Qed.

Lemma buckets_hold_map (d : PyDict.t PySet.t) (sbh : list bucket)
    (E : string -> list example) :
  NoDup (PyDict.keys d) ->
  buckets_hold d sbh E ->
  sbh = map (fun k => bucket_of (E k)) (PyDict.keys d).
Proof.
  intros Hnd [Hlen Hh]. rewrite make_parents_idx_eq, length_imap in Hlen by exact Hnd.
  apply list_eq. intros j. rewrite list_lookup_fmap.
  destruct (PyDict.keys d !! j) as [k |] eqn:Hk.
  - cbn. apply Hh. rewrite make_parents_idx_eq by exact Hnd.
    apply get_imap_index; assumption.
  - cbn. apply lookup_ge_None. apply lookup_ge_None in Hk. lia.
Qed.

Lemma buckets_hold_init (d : PyDict.t PySet.t) :
  NoDup (PyDict.keys d) ->
  buckets_hold d (replicate (length (make_parents_idx d)) EmptyList) (fun _ => []).
Proof.
  intros Hnd. split; [apply length_replicate |]. intros k j Hj.
  apply lookup_replicate_2.
  rewrite make_parents_idx_eq in * by exact Hnd.
  rewrite length_imap. apply get_imap_index in Hj; [| exact Hnd].
  apply lookup_lt_Some in Hj. exact Hj.
Qed.

(** X8.  When every sample is encodable, the loop over the rows ends with
    one bucket per parent, in the order of [parents_idx]: the bucket of a
    parent holds one example for each passage of a sample's path through
    that parent, the token ids of the sample with the one-hot vector of
    the node that follows, in the order of the rows; a path that passes a
    parent twice gives two examples, and a parent no path passes keeps the
    empty list.  The flat lists hold one entry per row: the token ids of
    its cleaned text and the one-hot vector of its label. *)
Theorem buckets_collect_every_passage (self : Preprocessor) (lines : list string)
    (max_length : nat) (rows : list sample) :
  let d := segment_lines lines in
  let ids := fun data => tokenizer (data_cleaning (data_0 data)) max_length in
  Forall (row_good self d) rows ->
  for_each (encode_row data_cleaning tokenizer self d (make_parents_idx d) max_length)
           rows (replicate (length (make_parents_idx d)) EmptyList, [], [])
  = ok (map (fun k => bucket_of (bucket_examples data_cleaning tokenizer d max_length k rows))
            (PyDict.keys d),
        map ids rows, map (flat_one_hot self) rows) /\
  forall k,
    length (bucket_examples data_cleaning tokenizer d max_length k rows)
    = sum_list (map (fun data => passes k (path_nodes (data_3 data))) rows) /\
    Forall (fun e => exists data, data ∈ rows /\ e.1 = ids data)
           (bucket_examples data_cleaning tokenizer d max_length k rows).
Proof.
  intros d ids Hgood.
  assert (Hnd : NoDup (PyDict.keys d)) by apply NoDup_keys_segment_lines.
  split.
  - destruct (encode_rows_good self d max_length rows Hnd Hgood _ [] [] _
                (buckets_hold_init d Hnd)) as (sbh' & Hrun & Hhold).
    rewrite Hrun. cbn [app]. rewrite (buckets_hold_map d sbh' _ Hnd Hhold). reflexivity.
  - intros k. split.
    + unfold bucket_examples. induction Hgood as [| data rows [_ Hrec] _ IH]; [reflexivity |].
      cbn [flat_map map sum_list sum_list_with]. rewrite length_app, IH. f_equal.
      apply pair_examples_length. intros p c Hin. apply Hrec.
      apply adjacent_pairs_path_pair. exact Hin.
    + unfold bucket_examples. apply Forall_forall. intros e He.
      apply list_elem_of_In, in_flat_map in He. destruct He as (data & Hd & He).
      exists data. split; [apply list_elem_of_In; exact Hd |].
      apply list_elem_of_In in He. unfold pair_examples in He.
      apply list_elem_of_omap in He. destruct He as ([p c] & _ & Hpc).
      destruct (decide ((p, c).1 = k)); [| discriminate].
      destruct (hierarchical_binary d (p, c).1 (p, c).2); [discriminate |].
      injection Hpc as <-. reflexivity.
Qed.

End Rows.

Section Build.
Context `{PySetOrder} `{TorchRandom}.
Variable data_cleaning : string -> string.
Variable tokenizer : string -> nat -> list Z.

Lemma mbind_inv {A B} (m : M A) (k : A -> M B) (w : world) (r : B * world) :
  mbind m k w = ok r -> exists a w1, m w = ok (a, w1) /\ k a w1 = ok r.
Proof.
  unfold mbind. destruct (m w) as [e | [a w1]]; [discriminate |].
  intros Hk. exists a, w1. split; [reflexivity | exact Hk].
Qed.

Lemma lift_inv {A} (r : result A) (w : world) (a : A) (w' : world) :
  lift r w = ok (a, w') -> r = ok a /\ w' = w.
Proof.
  unfold lift. destruct r as [e | a0]; [discriminate |].
  intros Heq. injection Heq as <- <-. split; reflexivity.
Qed.

Lemma random_split_keeps (d : Dataset) (lengths : list Z) (w w' : world)
    (r : list Dataset) :
  random_split d lengths w = ok (r, w') ->
  files w' = files w /\ stdout w' = stdout w.
Proof.
  unfold random_split. destruct (decide _) as [_ | _].
  - intros Hrun. apply mbind_inv in Hrun. destruct Hrun as (idx & w1 & Hdraw & Hret).
    unfold draw_randperm in Hdraw. destruct (randperm _ _) as [p g].
    injection Hdraw as <- <-. injection Hret as _ <-. split; reflexivity.
  - intros Hrun. apply lift_inv in Hrun. destruct Hrun as [Hr _]. discriminate.
Qed.

Lemma unpack2_inv {A} (l : list A) (w w' : world) (a b : A) :
  unpack2 l w = ok ((a, b), w') -> l = [a; b] /\ w' = w.
Proof.
  destruct l as [| x [| y [| z l]]]; cbn; try discriminate.
  intros Heq. injection Heq as <- <- <-. split; reflexivity.
Qed.

Lemma data_splitting_keeps (input_ids target : list (list Z)) (w w' : world)
    (sets : Dataset * Dataset * Dataset) :
  data_splitting input_ids target w = ok (sets, w') ->
  files w' = files w /\ stdout w' = stdout w.
Proof.
  unfold data_splitting. intros Hrun.
  apply mbind_inv in Hrun. destruct Hrun as (td & w1 & H1 & Hrun).
  apply lift_inv in H1. destruct H1 as [_ ->].
  apply mbind_inv in Hrun. destruct Hrun as (tvz & w2 & H2 & Hrun).
  apply lift_inv in H2. destruct H2 as [_ ->].
  apply mbind_inv in Hrun. destruct Hrun as (l1 & w3 & H3 & Hrun).
  apply random_split_keeps in H3. destruct H3 as [Hf3 Hs3].
  apply mbind_inv in Hrun. destruct Hrun as ([tvs te] & w4 & H4 & Hrun).
  apply unpack2_inv in H4. destruct H4 as [_ ->].
  apply mbind_inv in Hrun. destruct Hrun as (trz & w5 & H5 & Hrun).
  apply lift_inv in H5. destruct H5 as [_ ->].
  apply mbind_inv in Hrun. destruct Hrun as (l2 & w6 & H6 & Hrun).
  apply random_split_keeps in H6. destruct H6 as [Hf6 Hs6].
  apply mbind_inv in Hrun. destruct Hrun as ([tr va] & w7 & H7 & Hrun).
  apply unpack2_inv in H7. destruct H7 as [_ ->].
  injection Hrun as _ <-. split; congruence.
Qed.

Lemma split_buckets_keep (buckets : list bucket) :
  forall (hs hs' : list (Dataset * Dataset * Dataset)) (w w' : world),
    for_each_M split_bucket buckets hs w = ok (hs', w') ->
    files w' = files w /\ stdout w' = stdout w.
Proof.
  induction buckets as [| b buckets IH]; intros hs hs' w w' Hrun.
  - injection Hrun as _ <-. split; reflexivity.
  - cbn [for_each_M] in Hrun. apply mbind_inv in Hrun.
    destruct Hrun as (hs1 & w1 & Hb & Hrun).
    apply IH in Hrun. destruct Hrun as [Hf Hs].
    destruct b as [| ids ts].
    + apply lift_inv in Hb. destruct Hb as [Hb _]. discriminate.
    + cbn [split_bucket] in Hb. apply mbind_inv in Hb.
      destruct Hb as (sets & w2 & Hsp & Hret).
      apply data_splitting_keeps in Hsp. injection Hret as _ <-.
      destruct Hsp as [Hf2 Hs2]. split; congruence.
Qed.

Lemma write_file_inv (p : string) (b : blob) (w w' : world) :
  write_file p b w = ok (tt, w') ->
  w' = World _ (<[p := b]> (files w)) (rng w) (stdout w).
Proof.
  unfold write_file. intros Hrun.
  assert (match files w !! p with
          | Some Directory => raise (IsADirectoryError p)
          | _ => ok (tt, World _ (<[p := b]> (files w)) (rng w) (stdout w))
          end = ok (tt, w')) as Htarget.
  { destruct (decide (dirname p = EmptyString)); [exact Hrun |].
    destruct (files w !! dirname p) as [[| | |] |]; try discriminate Hrun. exact Hrun. }
  destruct (files w !! p) as [[| | |] |]; try discriminate Htarget;
    injection Htarget as <-; reflexivity.
Qed.

Lemma write_file_ok (p : string) (b : blob) (w : world) :
  files w !! dirname p = Some Directory ->
  files w !! p <> Some Directory ->
  write_file p b w = ok (tt, World _ (<[p := b]> (files w)) (rng w) (stdout w)).
Proof.
  intros Hdir Hp. unfold write_file. rewrite Hdir.
  assert (match files w !! p with
          | Some Directory => raise (IsADirectoryError p)
          | _ => ok (tt, World _ (<[p := b]> (files w)) (rng w) (stdout w))
          end = ok (tt, World _ (<[p := b]> (files w)) (rng w) (stdout w))) as ->.
  { destruct (files w !! p) as [[| | |] |]; try reflexivity. contradiction. }
  destruct (decide (dirname p = EmptyString)); reflexivity.
Qed.

(** What a run of [preprocessing_data] that returns leaves behind. *)
Lemma preprocessing_data_writes (self : Preprocessor) (dataset : list row) (w w' : world)
    (sets : Dataset * Dataset * Dataset) :
  preprocessing_data data_cleaning tokenizer self dataset w = ok (sets, w') ->
  exists hs, files w' = written hs sets (files w) /\ stdout w' = stdout w.
Proof.
  unfold preprocessing_data. intros Hrun.
  apply mbind_inv in Hrun. destruct Hrun as (samples & w1 & H1 & Hrun).
  apply lift_inv in H1. destruct H1 as [_ ->].
  apply mbind_inv in Hrun. destruct Hrun as (d & w2 & H2 & Hrun).
  unfold generate_hierarchy_segment in H2. apply mbind_inv in H2.
  destruct H2 as (text & w2' & Hread & Hret).
  unfold read_text in Hread. destruct (files w !! hierarchy_tree self) as [[t | | |] |];
    try discriminate. injection Hread as _ <-. injection Hret as _ <-.
  apply mbind_inv in Hrun. destruct Hrun as (ml & w3 & H3 & Hrun).
  apply lift_inv in H3. destruct H3 as [_ ->].
  apply mbind_inv in Hrun. destruct Hrun as ([[sbh fi] ft] & w4 & H4 & Hrun).
  apply lift_inv in H4. destruct H4 as [_ ->].
  apply mbind_inv in Hrun. destruct Hrun as (hs & w5 & H5 & Hrun).
  apply split_buckets_keep in H5. destruct H5 as [Hf5 Hs5].
  apply mbind_inv in Hrun. destruct Hrun as ([] & w6 & H6 & Hrun).
  apply write_file_inv in H6. subst w6.
  apply mbind_inv in Hrun. destruct Hrun as ([[tr va] te] & w7 & H7 & Hrun).
  apply data_splitting_keeps in H7. cbn [files stdout] in H7. destruct H7 as [Hf7 Hs7].
  apply mbind_inv in Hrun. destruct Hrun as ([] & w8 & H8 & Hrun).
  apply write_file_inv in H8. subst w8.
  apply mbind_inv in Hrun. destruct Hrun as ([] & w9 & H9 & Hrun).
  apply write_file_inv in H9. subst w9.
  apply mbind_inv in Hrun. destruct Hrun as ([] & w10 & H10 & Hrun).
  apply write_file_inv in H10. subst w10.
  injection Hrun as <- <-.
  exists hs. cbn [files stdout]. unfold written. cbn [fst snd].
  rewrite Hf7, Hf5, Hs7, Hs5. split; reflexivity.
Qed.

Lemma written_train hs sets fs : written hs sets fs !! train_path = Some (TorchFile sets.1.1).
Proof.
  unfold written. rewrite lookup_insert_ne by discriminate.
  rewrite lookup_insert_ne by discriminate. apply lookup_insert_eq.
Qed.

Lemma written_valid hs sets fs : written hs sets fs !! valid_path = Some (TorchFile sets.1.2).
Proof.
  unfold written. rewrite lookup_insert_ne by discriminate. apply lookup_insert_eq.
Qed.

Lemma written_test hs sets fs : written hs sets fs !! test_path = Some (TorchFile sets.2).
Proof. unfold written. apply lookup_insert_eq. Qed.

Lemma torch_load_inv (p : string) (d : Dataset) (w w' : world) :
  torch_load p w = ok (d, w') -> files w !! p = Some (TorchFile d) /\ w' = w.
Proof.
  unfold torch_load. destruct (files w !! p) as [[| d0 | |] |]; try discriminate.
  intros Heq. injection Heq as <- <-. split; reflexivity.
Qed.

(** The cache after a call of [preprocessor] that returns. *)
Lemma load_or_build_leaves_cache (build : M (Dataset * Dataset * Dataset)) (w w' : world)
    (sets : Dataset * Dataset * Dataset) :
  (forall w0 w0' sets0, build w0 = ok (sets0, w0') ->
                        exists hs, files w0' = written hs sets0 (files w0)) ->
  load_or_build build w = ok (sets, w') ->
  files w' !! train_path = Some (TorchFile sets.1.1) /\
  files w' !! valid_path = Some (TorchFile sets.1.2) /\
  files w' !! test_path = Some (TorchFile sets.2).
Proof.
  intros Hbuild Hrun. unfold load_or_build in Hrun.
  apply mbind_inv in Hrun. destruct Hrun as (e1 & w1 & H1 & Hrun). injection H1 as _ <-.
  apply mbind_inv in Hrun. destruct Hrun as (e2 & w2 & H2 & Hrun).
  assert (w2 = w) as -> by (destruct e1; injection H2 as _ <-; reflexivity).
  apply mbind_inv in Hrun. destruct Hrun as (e3 & w3 & H3 & Hrun).
  assert (w3 = w) as -> by (destruct e2; injection H3 as _ <-; reflexivity).
  destruct e3.
  - apply mbind_inv in Hrun. destruct Hrun as ([] & w4 & H4 & Hrun). injection H4 as <-.
    apply mbind_inv in Hrun. destruct Hrun as (tr & w5 & H5 & Hrun).
    apply torch_load_inv in H5. destruct H5 as [Htr ->].
    apply mbind_inv in Hrun. destruct Hrun as (va & w6 & H6 & Hrun).
    apply torch_load_inv in H6. destruct H6 as [Hva ->].
    apply mbind_inv in Hrun. destruct Hrun as (te & w7 & H7 & Hrun).
    apply torch_load_inv in H7. destruct H7 as [Hte ->].
    cbn in Hrun. injection Hrun as <- <-. cbn [files fst snd] in *.
    repeat split; assumption.
  - apply mbind_inv in Hrun. destruct Hrun as ([] & w4 & H4 & Hrun). injection H4 as <-.
    apply mbind_inv in Hrun. destruct Hrun as (sets0 & w5 & H5 & Hrun).
    apply Hbuild in H5. destruct H5 as (hs & Hf).
    cbn in Hrun. injection Hrun as <- <-. cbn [files]. rewrite Hf.
    split; [apply written_train |]. split; [apply written_valid | apply written_test].
Qed.

End Build.

Section Again.
Context `{PySetOrder} `{TorchRandom}.

Lemma preprocessor_leaves_cache (data_cleaning : string -> string)
    (tokenizer : string -> nat -> list Z) (self : Preprocessor) (w w1 : world)
    (sets : Dataset * Dataset * Dataset) :
  preprocessor data_cleaning tokenizer self w = ok (sets, w1) ->
  files w1 !! train_path = Some (TorchFile sets.1.1) /\
  files w1 !! valid_path = Some (TorchFile sets.1.2) /\
  files w1 !! test_path = Some (TorchFile sets.2).
Proof.
  intros Hrun. unfold preprocessor in Hrun.
  apply load_or_build_leaves_cache in Hrun; [exact Hrun |].
  intros w0 w0' sets0 Hb. apply preprocessing_data_writes in Hb.
  destruct Hb as (hs & Hf & _). exists hs. exact Hf.
Qed.

(** X12.  Once [preprocessor] has returned, a call in the world it left
    returns the same three datasets, loaded from the cache, whatever the
    table, the hierarchy, the cleaner and the tokenizer of the later call
    are; it prints the two loading messages and changes nothing else: no
    file is written and nothing is drawn from the random generator. *)
Theorem later_calls_load_the_first_result
    (data_cleaning data_cleaning' : string -> string)
    (tokenizer tokenizer' : string -> nat -> list Z)
    (self self' : Preprocessor) (w w1 : world) (sets : Dataset * Dataset * Dataset) :
  preprocessor data_cleaning tokenizer self w = ok (sets, w1) ->
  preprocessor data_cleaning' tokenizer' self' w1 =
  ok (sets, World _ (files w1) (rng w1)
              (stdout w1 ++ [nl +:+ "Loading Data..."; "[ Loading Completed ]" +:+ nl])).
Proof.
  intros Hrun.
  destruct (preprocessor_leaves_cache data_cleaning tokenizer self w w1 sets Hrun)
    as (Htr & Hva & Hte).
  destruct sets as [[tr va] te].
  unfold preprocessor. apply load_or_build_hit; assumption.
Qed.

(** X13.  A cache that lacks one of its three files is not used:
    [preprocessor] prints its first message, runs [preprocessing_data] on
    the table, and prints the second message when that returns; an
    exception of the build passes through. *)
Theorem partial_cache_is_rebuilt
    (data_cleaning : string -> string) (tokenizer : string -> nat -> list Z)
    (self : Preprocessor) (w : world) :
  files w !! train_path = None \/ files w !! valid_path = None \/
  files w !! test_path = None ->
  preprocessor data_cleaning tokenizer self w =
  match preprocessing_data data_cleaning tokenizer self (self_dataset self)
          (World _ (files w) (rng w) (stdout w ++ [nl +:+ "Preprocessing Data..."])) with
  | inl e => inl e
  | inr (sets, w') =>
      ok (sets, World _ (files w') (rng w')
                  (stdout w' ++ ["[ Preprocessing Completed ]" +:+ nl]))
  end.
Proof.
  intros Hmiss.
  assert (bool_decide (is_Some (files w !! train_path)) &&
          bool_decide (is_Some (files w !! valid_path)) &&
          bool_decide (is_Some (files w !! test_path)) = false) as Hb.
  { destruct Hmiss as [-> | [-> | ->]].
    - reflexivity.
    - rewrite andb_false_r. reflexivity.
    - rewrite andb_false_r. reflexivity. }
  unfold preprocessor, load_or_build, mbind, path_exists, mret, print, ok.
  cbv beta iota.
  destruct (bool_decide (is_Some (files w !! train_path))); cbv beta iota;
    [destruct (bool_decide (is_Some (files w !! valid_path))); cbv beta iota;
     [destruct (bool_decide (is_Some (files w !! test_path))); cbv beta iota;
      [discriminate Hb |] |] |];
    destruct (preprocessing_data _ _ _ _ _) as [e | [sets w']]; reflexivity.
Qed.

End Again.

Section Success.
Context `{PySetOrder} `{TorchRandom}.
Variable data_cleaning : string -> string.
Variable tokenizer : string -> nat -> list Z.

Lemma data_splitting_good (input_ids target : list (list Z)) (w : world) :
  length input_ids = length target ->
  (Z.of_nat (length input_ids) < 2 ^ 49)%Z ->
  exists sets g,
    data_splitting input_ids target w = ok (sets, World _ (files w) g (stdout w)) /\
    split_of (zip input_ids target) sets.
Proof.
  intros Hlen Hn.
  pose proof (data_splitting_spec input_ids target w Hlen Hn) as Hspec. cbv zeta in Hspec.
  destruct (data_splitting_sizes input_ids target w Hlen Hn)
    as (train & valid & test & w' & Hrun & Htr & Htv & Hsum).
  rewrite Hspec in Hrun. injection Hrun as <- <- <- <-.
  eexists _, _. split; [exact Hspec |].
  assert (@length example (zip input_ids target) = length input_ids) as Hz.
  { rewrite length_zip_with. lia. }
  unfold split_of. cbn [fst snd]. rewrite Hz.
  split; [exact Htr |]. split; [exact Htv |]. split; [exact Hsum |].
  set (n := length input_ids) in *.
  set (tv := train_valid_count n) in *. set (tr := train_count n) in *.
  set (d := TensorDataset input_ids target) in *.
  set (r1 := randperm (rng w) n) in *.
  set (tvs := Subset d (take tv r1.1)) in *.
  set (r2 := randperm r1.2 tv) in *.
  pose proof (train_valid_count_le n) as Hle. fold tv in Hle.
  assert (r1.1 ≡ₚ seq 0 n) as Hp1 by apply randperm_perm.
  assert (r2.1 ≡ₚ seq 0 tv) as Hp2 by apply randperm_perm.
  rewrite app_assoc.
  rewrite (subset_cut_examples tvs r2.1 tr); cycle 1.
  { cbn [ds_len tvs]. rewrite length_take, (Permutation_length Hp1), length_seq.
    replace (tv `min` n) with tv by lia. exact Hp2. }
  unfold tvs. rewrite (subset_cut_examples d r1.1 tv) by exact Hp1.
  unfold d. rewrite ds_examples_tensor by exact Hlen. reflexivity.
Qed.

Lemma Forall2_map_l {A B C} (f : A -> B) (P : B -> C -> Prop) (l : list A) (k : list C) :
  Forall2 P (map f l) k -> Forall2 (fun a c => P (f a) c) l k.
Proof.
  revert k. induction l as [| a l IH]; intros k Hall; inversion Hall; subst; constructor.
  - assumption.
  - apply IH. assumption.
Qed.

Lemma bucket_of_nonempty (es : list example) :
  es <> [] -> bucket_of es = Bucket (es.*1) (es.*2).
Proof. destruct es; [contradiction | reflexivity]. Qed.

Lemma split_buckets_good (Es : list (list example)) :
  Forall (fun es => es <> [] /\ (Z.of_nat (length es) < 2 ^ 49)%Z) Es ->
  forall (hs : list (Dataset * Dataset * Dataset)) (w : world),
  exists hs' g,
    for_each_M split_bucket (map bucket_of Es) hs w
    = ok (hs ++ hs', World _ (files w) g (stdout w)) /\
    Forall2 split_of Es hs'.
Proof.
  induction 1 as [| es Es [Hne Hn] _ IH]; intros hs w.
  - exists [], (rng w). rewrite app_nil_r. split; [| constructor].
    destruct w; reflexivity.
  - cbn [map for_each_M]. rewrite (bucket_of_nonempty es Hne). cbn [split_bucket].
    destruct (data_splitting_good (es.*1) (es.*2) w) as (sets & g & Hrun & Hsplit).
    { rewrite !length_fmap. reflexivity. }
    { rewrite length_fmap. exact Hn. }
    rewrite zip_fst_snd in Hsplit.
    destruct (IH (hs ++ [sets]) (World _ (files w) g (stdout w))) as (hs' & g' & Hrest & Hall).
    exists (sets :: hs'), g'. split; [| constructor; assumption].
    erewrite mbind_ok; cycle 1.
    { erewrite mbind_ok; [| exact Hrun]. reflexivity. }
    rewrite Hrest. cbn [files stdout]. rewrite <- app_assoc. reflexivity.
Qed.

Lemma bucket_examples_length (d : PyDict.t PySet.t) (self : Preprocessor)
    (max_length : nat) (k : string) (rows : list sample) :
  Forall (row_good self d) rows ->
  length (bucket_examples data_cleaning tokenizer d max_length k rows) = passages k rows.
Proof.
  unfold bucket_examples, passages.
  induction 1 as [| data rows [_ Hrec] _ IH]; [reflexivity |].
  cbn [flat_map map sum_list sum_list_with]. rewrite length_app, IH. f_equal.
  apply pair_examples_length. intros p c Hin. apply Hrec.
  apply adjacent_pairs_path_pair. exact Hin.
Qed.

Lemma passages_positive (k c : string) (rows : list sample) (data : sample) :
  data ∈ rows -> path_pair (path_nodes (data_3 data)) k c -> 0 < passages k rows.
Proof.
  intros Hin Hpair. unfold passages.
  induction rows as [| r rows IH]; [inversion Hin |].
  cbn [map sum_list sum_list_with]. unfold id. apply elem_of_cons in Hin. destruct Hin as [<- | Hin].
  - apply adjacent_pairs_path_pair in Hpair.
    assert (0 < passes k (path_nodes (data_3 data))); [| lia].
    unfold passes.
    assert ((k, c) ∈ filter (fun pc : string * string => pc.1 = k)
                       (adjacent_pairs (path_nodes (data_3 data)))) as Hf.
    { apply list_elem_of_filter. split; [reflexivity | exact Hpair]. }
    destruct (filter _ _); [inversion Hf | cbn; lia].
  - eapply Nat.lt_le_trans; [exact (IH Hin) | apply Nat.le_add_l].
Qed.

(** Up to the first write: with encodable samples that pass every parent,
    [preprocessing_data] encodes the rows, splits every bucket and goes on
    to write. *)
Lemma preprocessing_data_encodes (self : Preprocessor) (dataset : list row) (w : world)
    (text : string) :
  let d := segment_lines (PyStr.lines text) in
  let samples := samples_of dataset in
  files w !! hierarchy_tree self = Some (TextFile text) ->
  samples <> [] ->
  Forall (row_good self d) samples ->
  (forall k, is_Some (PyDict.get d k) ->
             exists data c, data ∈ samples /\ path_pair (path_nodes (data_3 data)) k c) ->
  (forall k, (Z.of_nat (passages k samples) < 2 ^ 49)%Z) ->
  exists max_length hs g,
    get_max_length samples = ok max_length /\
    Forall2 (fun k t =>
               split_of (bucket_examples data_cleaning tokenizer d max_length k samples) t)
            (PyDict.keys d) hs /\
    preprocessing_data data_cleaning tokenizer self dataset w
    = save_datasets hs
        (map (fun data => tokenizer (data_cleaning (data_0 data)) max_length) samples)
        (map (flat_one_hot self) samples)
        (World _ (files w) g (stdout w)).
Proof.
  intros d samples Hfile Hne Hgood Htouched Hpass.
  destruct (get_max_length_ok samples Hne) as (ml & Hml).
  assert (Hnd : NoDup (PyDict.keys d)) by apply NoDup_keys_segment_lines.
  destruct (encode_rows_good data_cleaning tokenizer self d ml samples Hnd Hgood
              _ [] [] _ (buckets_hold_init d Hnd)) as (sbh & Hrows & Hhold).
  apply (buckets_hold_map d sbh _ Hnd) in Hhold. cbn [app] in Hhold, Hrows.
  set (Es := map (fun k => bucket_examples data_cleaning tokenizer d ml k samples)
                 (PyDict.keys d)).
  assert (sbh = map bucket_of Es) as Hsbh.
  { rewrite Hhold. unfold Es. rewrite map_map. reflexivity. }
  assert (Forall (fun es => es <> [] /\ (Z.of_nat (length es) < 2 ^ 49)%Z) Es) as HEs.
  { unfold Es. apply Forall_forall. intros es Hes.
    apply list_elem_of_fmap in Hes. destruct Hes as (k & -> & Hk).
    pose proof (bucket_examples_length d self ml k samples Hgood) as Hlen.
    split; [| rewrite Hlen; apply Hpass].
    destruct (Htouched k) as (data & c & Hin & Hpair).
    { apply dict_get_keys. exact Hk. }
    pose proof (passages_positive k c samples data Hin Hpair) as Hpos.
    intros Hnil. rewrite Hnil in Hlen. cbn in Hlen. lia. }
  destruct (split_buckets_good Es HEs [] w) as (hs & g & Hsplit & Hall).
  exists ml, hs, g. split; [exact Hml |].
  split; [unfold Es in Hall; apply Forall2_map_l; exact Hall |].
  unfold preprocessing_data. rewrite with_label_idx_ok, mbind_lift_ok.
  fold (samples_of dataset). fold samples.
  erewrite mbind_ok; [| apply generate_hierarchy_segment_ok; exact Hfile].
  fold d. rewrite Hml, mbind_lift_ok, Hrows, mbind_lift_ok, Hsbh.
  erewrite mbind_ok; [| exact Hsplit]. reflexivity.
Qed.

Lemma save_datasets_ok (hs : list (Dataset * Dataset * Dataset))
    (flat_input_ids flat_target : list (list Z)) (w : world)
    (sets : Dataset * Dataset * Dataset) (g : rng_state) :
  cache_writable (files w) ->
  data_splitting flat_input_ids flat_target
    (World _ (<[hierarchical_path := PickleFile hs]> (files w)) (rng w) (stdout w))
  = ok (sets, World _ (<[hierarchical_path := PickleFile hs]> (files w)) g (stdout w)) ->
  save_datasets hs flat_input_ids flat_target w
  = ok (sets, World _ (written hs sets (files w)) g (stdout w)).
Proof.
  intros [Hdir Hfree] Hflat.
  apply Forall_cons in Hfree as [Hh Hfree]. apply Forall_cons in Hfree as [Htr Hfree].
  apply Forall_cons in Hfree as [Hva Hfree]. apply Forall_cons in Hfree as [Hte _].
  unfold save_datasets.
  erewrite mbind_ok; [| apply write_file_ok; assumption].
  erewrite mbind_ok; [| exact Hflat].
  destruct sets as [[tr va] te].
  erewrite mbind_ok; cycle 1.
  { apply write_file_ok; cbn [files].
    - rewrite lookup_insert_ne by discriminate. exact Hdir.
    - rewrite lookup_insert_ne by discriminate. exact Htr. }
  erewrite mbind_ok; cycle 1.
  { apply write_file_ok; cbn [files].
    - rewrite !lookup_insert_ne by discriminate. exact Hdir.
    - rewrite !lookup_insert_ne by discriminate. exact Hva. }
  erewrite mbind_ok; cycle 1.
  { apply write_file_ok; cbn [files].
    - rewrite !lookup_insert_ne by discriminate. exact Hdir.
    - rewrite !lookup_insert_ne by discriminate. exact Hte. }
  reflexivity.
Qed.

Lemma save_datasets_no_directory (hs : list (Dataset * Dataset * Dataset))
    (flat_input_ids flat_target : list (list Z)) (w : world) :
  files w !! datasets_dir = None ->
  save_datasets hs flat_input_ids flat_target w = inl (FileNotFoundError hierarchical_path).
Proof.
  intros Hdir. unfold save_datasets, mbind, write_file.
  change (dirname hierarchical_path) with datasets_dir. rewrite Hdir.
  destruct (decide (datasets_dir = EmptyString)) as [Heq | _]; [discriminate Heq |].
  reflexivity.
Qed.

(** X9.  [preprocessing_data] returns when the hierarchy file can be read,
    the table has a complete row, every sample is encodable, every parent
    of the hierarchy is passed by the path of some sample, the sizes are
    below [2^49], and the four files can be written: the directory
    [datasets] exists and none of the four paths names a directory.  It
    has then written its four files and no other, printed nothing, and the
    three datasets it returns split the flat examples: the sizes are those
    of the two roundings and the examples are those of the rows, each as
    often.  The pickled list has one triple per parent, in the order of
    [parents_idx], that splits the bucket of the parent in the same way. *)
Theorem preprocessing_data_succeeds (self : Preprocessor) (dataset : list row) (w : world)
    (text : string) :
  let d := segment_lines (PyStr.lines text) in
  let samples := samples_of dataset in
  files w !! hierarchy_tree self = Some (TextFile text) ->
  cache_writable (files w) ->
  samples <> [] ->
  Forall (row_good self d) samples ->
  (forall k, is_Some (PyDict.get d k) ->
             exists data c, data ∈ samples /\ path_pair (path_nodes (data_3 data)) k c) ->
  (Z.of_nat (length samples) < 2 ^ 49)%Z ->
  (forall k, (Z.of_nat (passages k samples) < 2 ^ 49)%Z) ->
  exists max_length sets hs w',
    get_max_length samples = ok max_length /\
    preprocessing_data data_cleaning tokenizer self dataset w = ok (sets, w') /\
    files w' = written hs sets (files w) /\
    stdout w' = stdout w /\
    split_of (flat_examples data_cleaning tokenizer self max_length samples) sets /\
    Forall2 (fun k t =>
               split_of (bucket_examples data_cleaning tokenizer d max_length k samples) t)
            (PyDict.keys d) hs.
Proof.
  intros d samples Hfile Hdir Hne Hgood Htouched Hn Hpass.
  destruct (preprocessing_data_encodes self dataset w text Hfile Hne Hgood Htouched Hpass)
    as (ml & hs & g & Hml & Hall & Hrun).
  fold d samples in Hall, Hrun, Hml.
  set (w0 := World _ (files w) g (stdout w)) in *.
  destruct (data_splitting_good
              (map (fun data => tokenizer (data_cleaning (data_0 data)) ml) samples)
              (map (flat_one_hot self) samples)
              (World _ (<[hierarchical_path := PickleFile hs]> (files w0)) (rng w0)
                 (stdout w0)))
    as (sets & g' & Hflat & Hfs).
  { rewrite !length_map. reflexivity. }
  { rewrite length_map. exact Hn. }
  exists ml, sets, hs, (World _ (written hs sets (files w)) g' (stdout w)).
  split; [exact Hml |]. split.
  - rewrite Hrun. apply (save_datasets_ok hs _ _ w0 sets g'); [exact Hdir | exact Hflat].
  - cbn [files stdout]. split; [reflexivity |]. split; [reflexivity |].
    split; [| exact Hall].
    unfold flat_examples. unfold split_of in *.
    rewrite zip_with_fmap_l, zip_with_fmap_r, zip_with_diag in Hfs. exact Hfs.
Qed.

(** X18.  The code never creates the directory [datasets].  Without it, a
    table and a hierarchy that are encoded and split without an exception
    are lost at the first write: [preprocessing_data] raises
    [FileNotFoundError] for [datasets/hierarchical_dataset.pkl], and
    returns and writes nothing. *)
Theorem missing_datasets_directory_raises (self : Preprocessor) (dataset : list row)
    (w : world) (text : string) :
  let d := segment_lines (PyStr.lines text) in
  let samples := samples_of dataset in
  files w !! hierarchy_tree self = Some (TextFile text) ->
  files w !! datasets_dir = None ->
  samples <> [] ->
  Forall (row_good self d) samples ->
  (forall k, is_Some (PyDict.get d k) ->
             exists data c, data ∈ samples /\ path_pair (path_nodes (data_3 data)) k c) ->
  (forall k, (Z.of_nat (passages k samples) < 2 ^ 49)%Z) ->
  preprocessing_data data_cleaning tokenizer self dataset w
  = inl (FileNotFoundError hierarchical_path).
Proof.
  intros d samples Hfile Hdir Hne Hgood Htouched Hpass.
  destruct (preprocessing_data_encodes self dataset w text Hfile Hne Hgood Htouched Hpass)
    as (ml & hs & g & _ & _ & Hrun).
  rewrite Hrun. apply save_datasets_no_directory. exact Hdir.
Qed.

End Success.

(** ** [setup] and the data loaders *)

Section SetupFacts.
Context `{PySetOrder} `{TorchRandom}.
Variable data_cleaning : string -> string.
Variable tokenizer : string -> nat -> list Z.
Variable cpu_count : nat.

(** X14.  [setup("fit")] followed by [setup("test")] on a fresh object:
    when the [preprocessor] of the first call returns, the second call
    loads what the first one left, so the three loaders get the three
    parts of one and the same split, and the second call leaves the files
    and the random generator as the first left them.  Only the train
    loader shuffles; all three take [batch_size] and the CPU count. *)
Theorem fit_then_test_use_one_split (self : Preprocessor) (w w1 : world)
    (train valid test : Dataset) :
  preprocessor data_cleaning tokenizer self w = ok ((train, valid, test), w1) ->
  exists a w2,
    (a1 <~ setup data_cleaning tokenizer self no_attrs (Some "fit") ;;
     setup data_cleaning tokenizer self a1 (Some "test")) w = ok (a, w2) /\
    files w2 = files w1 /\
    rng w2 = rng w1 /\
    train_dataloader cpu_count self a
    = inr {| dl_dataset := train; dl_batch_size := batch_size self;
             dl_shuffle := true; dl_num_workers := cpu_count |} /\
    val_dataloader cpu_count self a
    = inr {| dl_dataset := valid; dl_batch_size := batch_size self;
             dl_shuffle := false; dl_num_workers := cpu_count |} /\
    test_dataloader cpu_count self a
    = inr {| dl_dataset := test; dl_batch_size := batch_size self;
             dl_shuffle := false; dl_num_workers := cpu_count |}.
Proof.
  intros Hrun.
  assert (preprocessor data_cleaning tokenizer self w1
          = ok ((train, valid, test),
                World _ (files w1) (rng w1)
                  (stdout w1 ++ [nl +:+ "Loading Data..."; "[ Loading Completed ]" +:+ nl])))
    as Hagain.
  { destruct (preprocessor_leaves_cache data_cleaning tokenizer self w w1 _ Hrun)
      as (Htr & Hva & Hte).
    unfold preprocessor. apply load_or_build_hit; assumption. }
  eexists (Attrs (Some train) (Some valid) (Some test)), _.
  split; [| split; [| split; [| repeat split]]].
  - erewrite mbind_ok; cycle 1.
    { unfold setup. erewrite mbind_ok; [| exact Hrun]. reflexivity. }
    unfold setup. erewrite mbind_ok; [| exact Hagain]. reflexivity.
  - reflexivity.
  - reflexivity.
Qed.

(** X15.  One [setup(stage)] on a fresh object runs the preprocessing
    whatever the stage is, but a loader finds its dataset only when the
    stage was its own: [train_dataloader] and [val_dataloader] raise
    [AttributeError] unless the stage was ["fit"], [test_dataloader]
    unless it was ["test"]; with no stage, or with a stage such as
    ["validate"], all three raise. *)
Theorem loaders_need_their_stage (self : Preprocessor) (stage : option string)
    (w w1 : world) (sets : Dataset * Dataset * Dataset) :
  preprocessor data_cleaning tokenizer self w = ok (sets, w1) ->
  exists a,
    setup data_cleaning tokenizer self no_attrs stage w = ok (a, w1) /\
    (train_dataloader cpu_count self a = inl (AttributeError "train_set")
     <-> stage <> Some "fit") /\
    (val_dataloader cpu_count self a = inl (AttributeError "valid_set")
     <-> stage <> Some "fit") /\
    (test_dataloader cpu_count self a = inl (AttributeError "test_set")
     <-> stage <> Some "test").
Proof.
  intros Hrun. destruct sets as [[train valid] test].
  unfold setup. erewrite mbind_ok; [| exact Hrun].
  destruct (decide (stage = Some "fit")) as [-> | Hfit].
  - eexists. split; [reflexivity |]. cbn.
    repeat split; try discriminate; try (intros Hc; contradiction).
  - destruct (decide (stage = Some "test")) as [-> | Htest].
    + eexists. split; [reflexivity |]. cbn.
      repeat split; try discriminate; try (intros Hc; contradiction).
    + exists no_attrs. split; [reflexivity |]. cbn.
      repeat split; auto.
Qed.

End SetupFacts.

(** ** [data_cleaning] *)

Module CleaningFacts.
Import Cleaning.

(** A property of characters that holds of the 256 of them. *)
Lemma forall_ascii (P : ascii -> bool) :
  forallb P (map ascii_of_nat (seq 0 256)) = true -> forall c, P c = true.
Proof.
  intros Hall c. rewrite forallb_forall in Hall. apply Hall.
  apply in_map_iff. exists (nat_of_ascii c). split; [apply ascii_nat_embedding |].
  apply in_seq. pose proof (nat_ascii_bounded c). lia.
Qed.

Lemma all_chars_impl (P Q : ascii -> bool) (s : string) :
  (forall c, P c = true -> Q c = true) ->
  all_chars P s = true -> all_chars Q s = true.
Proof.
  intros Himp. induction s as [| c s IH]; [reflexivity |]. cbn [all_chars].
  intros Hall. apply andb_true_iff in Hall. destruct Hall as [Hc Hs].
  rewrite (Himp c Hc), (IH Hs). reflexivity.
Qed.

Lemma all_chars_and (P Q : ascii -> bool) (s : string) :
  all_chars P s = true -> all_chars Q s = true ->
  all_chars (fun c => P c && Q c) s = true.
Proof.
  induction s as [| c s IH]; [reflexivity |]. cbn [all_chars].
  intros HP HQ. apply andb_true_iff in HP, HQ. destruct HP as [-> HP], HQ as [-> HQ].
  rewrite (IH HP HQ). reflexivity.
Qed.

Lemma all_chars_app (P : ascii -> bool) (s t : string) :
  all_chars P (s +:+ t) = all_chars P s && all_chars P t.
Proof.
  induction s as [| c s IH]; [reflexivity |].
  change (String c s +:+ t) with (String c (s +:+ t)). cbn [all_chars].
  rewrite IH, andb_assoc. reflexivity.
Qed.

Lemma all_chars_map (P : ascii -> bool) (f : ascii -> ascii) (s : string) :
  (forall c, P (f c) = true) -> all_chars P (map_chars f s) = true.
Proof.
  intros Hf. induction s as [| c s IH]; [reflexivity |]. cbn [map_chars all_chars].
  rewrite Hf, IH. reflexivity.
Qed.

Lemma map_chars_map (f g : ascii -> ascii) (s : string) :
  map_chars f (map_chars g s) = map_chars (fun c => f (g c)) s.
Proof. induction s as [| c s IH]; [reflexivity |]. cbn [map_chars]. rewrite IH. reflexivity. Qed.

Lemma lower_map_chars (s : string) : PyStr.lower s = map_chars PyStr.lower_ascii s.
Proof. induction s as [| c s IH]; [reflexivity |]. cbn [PyStr.lower map_chars]. rewrite IH. reflexivity. Qed.

Lemma map_chars_id (P : ascii -> bool) (f : ascii -> ascii) (s : string) :
  (forall c, P c = true -> f c = c) -> all_chars P s = true -> map_chars f s = s.
Proof.
  intros Hf. induction s as [| c s IH]; [reflexivity |]. cbn [map_chars all_chars].
  intros Hall. apply andb_true_iff in Hall. destruct Hall as [Hc Hs].
  rewrite (Hf c Hc), (IH Hs). reflexivity.
Qed.

Lemma delete_chars_id (p : ascii -> bool) (s : string) :
  all_chars (fun c => negb (p c)) s = true -> delete_chars p s = s.
Proof.
  induction s as [| c s IH]; [reflexivity |]. cbn [delete_chars all_chars].
  intros Hall. apply andb_true_iff in Hall. destruct Hall as [Hc Hs].
  apply negb_true_iff in Hc. rewrite Hc, (IH Hs). reflexivity.
Qed.

Lemma all_chars_delete (P p : ascii -> bool) (s : string) :
  all_chars P s = true ->
  all_chars (fun c => P c && negb (p c)) (delete_chars p s) = true.
Proof.
  induction s as [| c s IH]; [reflexivity |]. cbn [delete_chars all_chars].
  intros Hall. apply andb_true_iff in Hall. destruct Hall as [Hc Hs].
  destruct (p c) eqn:Hp; [exact (IH Hs) |].
  cbn [all_chars]. rewrite Hc, Hp, (IH Hs). reflexivity.
Qed.

Lemma all_chars_sub_go (P : ascii -> bool) (lit : string) (cls : ascii -> bool)
    (s : string) :
  all_chars P s = true ->
  forall skip run, all_chars P (sub_go lit cls skip run s) = true.
Proof.
  induction s as [| c s IH]; [reflexivity |]. cbn [all_chars sub_go].
  intros Hall skip run. apply andb_true_iff in Hall. destruct Hall as [Hc Hs].
  destruct skip as [| k]; [| exact (IH Hs k run)].
  destruct (run && cls c); [exact (IH Hs 0 true) |].
  destruct (follows lit cls (String c s)); [exact (IH Hs _ true) |].
  cbn [all_chars]. rewrite Hc, (IH Hs 0 false). reflexivity.
Qed.

(** Where the first character of the literal does not occur, the pattern
    does not match. *)
Lemma sub_run_absent (x : ascii) (lit : string) (cls : ascii -> bool) (s : string) :
  all_chars (fun c => negb (Ascii.eqb c x)) s = true ->
  sub_run (String x lit) cls s = s.
Proof.
  unfold sub_run. induction s as [| c s IH]; [reflexivity |]. cbn [all_chars].
  intros Hall. apply andb_true_iff in Hall. destruct Hall as [Hc Hs].
  apply negb_true_iff, Ascii.eqb_neq in Hc.
  cbn [sub_go andb]. unfold follows. cbn [String.prefix].
  destruct (ascii_dec x c) as [-> | _]; [contradiction |].
  cbn [andb]. rewrite (IH Hs). reflexivity.
Qed.

(** *** Words *)

Lemma all_chars_snoc (P : ascii -> bool) (s : string) (c : ascii) :
  all_chars P (PyStr.snoc s c) = all_chars P s && P c.
Proof.
  unfold PyStr.snoc. rewrite all_chars_app. cbn [all_chars]. rewrite andb_true_r. reflexivity.
Qed.

Lemma words_go_wordlike (s : string) :
  forall cur, all_chars is_nonspace cur = true ->
              Forall wordlike (PyStr.words_go cur s).
Proof.
  induction s as [| c s IH]; intros cur Hcur; cbn [PyStr.words_go].
  - destruct cur; [constructor |]. constructor; [| constructor].
    split; [discriminate | exact Hcur].
  - destruct (PyStr.is_space c) eqn:Hsp.
    + destruct cur; [apply IH; reflexivity |].
      constructor; [split; [discriminate | exact Hcur] | apply IH; reflexivity].
    + apply IH. rewrite all_chars_snoc, Hcur. unfold is_nonspace. rewrite Hsp. reflexivity.
Qed.

Lemma words_go_chars (P : ascii -> bool) (s : string) :
  all_chars P s = true ->
  forall cur, all_chars P cur = true ->
              Forall (fun w => all_chars P w = true) (PyStr.words_go cur s).
Proof.
  induction s as [| c s IH]; cbn [all_chars]; intros Hs cur Hcur; cbn [PyStr.words_go].
  - destruct cur; [constructor |]. constructor; [exact Hcur | constructor].
  - apply andb_true_iff in Hs. destruct Hs as [Hc Hs].
    destruct (PyStr.is_space c).
    + destruct cur; [apply IH; [exact Hs | reflexivity] |].
      constructor; [exact Hcur | apply IH; [exact Hs | reflexivity]].
    + apply IH; [exact Hs |]. rewrite all_chars_snoc, Hcur, Hc. reflexivity.
Qed.

(** *** [strip] after [join] *)

Lemma append_assoc (a b c : string) : (a +:+ b) +:+ c = a +:+ (b +:+ c).
Proof.
  induction a as [| x a IH]; [reflexivity |].
  change (String x a +:+ b) with (String x (a +:+ b)).
  change (String x (a +:+ b) +:+ c) with (String x ((a +:+ b) +:+ c)).
  rewrite IH. reflexivity.
Qed.

Lemma rstrip_append (a b : string) :
  b <> EmptyString -> rstrip b = b -> rstrip (a +:+ b) = a +:+ b.
Proof.
  intros Hne Hb. induction a as [| x a IH]; [exact Hb |].
  change (String x a +:+ b) with (String x (a +:+ b)). cbn [rstrip]. rewrite IH.
  destruct (a +:+ b) eqn:Hab; [| reflexivity].
  destruct a; [cbn in Hab; contradiction | discriminate].
Qed.

Lemma rstrip_wordlike (w : string) : wordlike w -> rstrip w = w.
Proof.
  intros [Hne Hall]. induction w as [| c w IH]; [reflexivity |].
  cbn [all_chars] in Hall. apply andb_true_iff in Hall. destruct Hall as [Hc Hw].
  cbn [rstrip]. destruct w as [| c' w'].
  - cbn [rstrip]. unfold is_nonspace in Hc. apply negb_true_iff in Hc. rewrite Hc. reflexivity.
  - rewrite IH by (discriminate || exact Hw). reflexivity.
Qed.

Lemma join_not_empty (sep w : string) (ws : list string) :
  w <> EmptyString -> join sep (w :: ws) <> EmptyString.
Proof. destruct w; [contradiction |]. intros _. destruct ws; discriminate. Qed.

Lemma rstrip_join (ws : list string) :
  Forall wordlike ws -> rstrip (join " " ws) = join " " ws.
Proof.
  induction 1 as [| w ws Hw Hws IH]; [reflexivity |].
  destruct ws as [| w' ws']; [exact (rstrip_wordlike w Hw) |].
  change (join " " (w :: w' :: ws')) with (w +:+ (" " +:+ join " " (w' :: ws'))).
  rewrite <- append_assoc. apply rstrip_append; [| exact IH].
  apply join_not_empty. inversion Hws as [| ? ? [Hne _] _]. exact Hne.
Qed.

Lemma lstrip_join (ws : list string) :
  Forall wordlike ws -> lstrip (join " " ws) = join " " ws.
Proof.
  destruct 1 as [| w ws [Hne Hall] _]; [reflexivity |].
  destruct w as [| c w]; [contradiction |].
  cbn [all_chars] in Hall. apply andb_true_iff in Hall. destruct Hall as [Hc _].
  unfold is_nonspace in Hc. apply negb_true_iff in Hc.
  destruct ws as [| w' ws'].
  - cbn [join lstrip]. rewrite Hc. reflexivity.
  - change (join " " (String c w :: w' :: ws'))
      with (String c (w +:+ " " +:+ join " " (w' :: ws'))).
    cbn [lstrip]. rewrite Hc. reflexivity.
Qed.

Lemma strip_join (ws : list string) :
  Forall wordlike ws -> strip (join " " ws) = join " " ws.
Proof. intros Hws. unfold strip. rewrite (lstrip_join ws Hws). exact (rstrip_join ws Hws). Qed.

Lemma Forall_filter_keep {A} (P : A -> Prop) (Q : A -> Prop) `{forall x, Decision (Q x)}
    (l : list A) :
  Forall P l -> Forall P (filter Q l).
Proof.
  intros Hall. apply Forall_forall. intros x Hx.
  apply list_elem_of_filter in Hx. destruct Hx as [_ Hx].
  rewrite Forall_forall in Hall. exact (Hall x Hx).
Qed.

(** *** The characters after the first two steps *)

Lemma blank_lower_after_blank (c : ascii) : after_blank (blank (PyStr.lower_ascii c)) = true.
Proof. revert c. apply forall_ascii. vm_compute. reflexivity. Qed.

Lemma after_blank_no_newline (c : ascii) :
  after_blank c = true -> (if Ascii.eqb c PyStr.newline then " "%char else c) = c.
Proof.
  intros Hc. destruct (Ascii.eqb c PyStr.newline) eqn:Heq; [| reflexivity].
  apply Ascii.eqb_eq in Heq. subst c. discriminate Hc.
Qed.

Lemma after_blank_no_at (c : ascii) :
  after_blank c = true -> negb (Ascii.eqb c "@") = true.
Proof.
  intros Hc. destruct (Ascii.eqb c "@") eqn:Heq; [| reflexivity].
  apply Ascii.eqb_eq in Heq. subst c. discriminate Hc.
Qed.

Lemma no_punctuation_no_quote (c : ascii) :
  negb (one_of punctuation c) = true -> negb (Ascii.eqb c "'") = true.
Proof.
  intros Hc. destruct (Ascii.eqb c "'") eqn:Heq; [| reflexivity].
  apply Ascii.eqb_eq in Heq. subst c. discriminate Hc.
Qed.

Lemma letters_remain (c : ascii) :
  implb (after_blank c && negb (one_of punctuation c) && negb (is_digit c) && is_nonspace c)
        (is_lower_letter c) = true.
Proof. revert c. apply forall_ascii. vm_compute. reflexivity. Qed.

Lemma all_chars_blank_lower (text : string) :
  all_chars after_blank (map_chars blank (PyStr.lower text)) = true.
Proof.
  rewrite lower_map_chars, map_chars_map. apply all_chars_map.
  intros c. apply blank_lower_after_blank.
Qed.

End CleaningFacts.

Section CleaningTheorems.
Import Cleaning CleaningFacts.
Variable stop_words : list string.
Variable stem : string -> string.

Lemma newline_step_dead (text : string) :
  map_chars (fun c => if Ascii.eqb c PyStr.newline then " "%char else c)
            (map_chars blank (PyStr.lower text))
  = map_chars blank (PyStr.lower text).
Proof.
  apply (map_chars_id after_blank); [apply after_blank_no_newline |].
  apply all_chars_blank_lower.
Qed.

Lemma mention_step_dead (text : string) :
  sub_run "@" is_word (map_chars blank (PyStr.lower text))
  = map_chars blank (PyStr.lower text).
Proof.
  apply sub_run_absent.
  apply (all_chars_impl after_blank); [apply after_blank_no_at |].
  apply all_chars_blank_lower.
Qed.

Lemma all_chars_true (s : string) : all_chars (fun _ => true) s = true.
Proof. induction s as [| c s IH]; [reflexivity | exact IH]. Qed.

Lemma quote_step_dead (s : string) :
  delete_chars (fun c => Ascii.eqb c "'") (delete_chars (one_of punctuation) s)
  = delete_chars (one_of punctuation) s.
Proof.
  apply delete_chars_id.
  apply (all_chars_impl (fun c => true && negb (one_of punctuation c))).
  - intros c Hc. apply no_punctuation_no_quote. exact Hc.
  - apply (all_chars_delete (fun _ => true)). apply all_chars_true.
Qed.

Lemma strip_step_dead (s : string) :
  strip (join " " (filter (fun w => keep_word stop_words w = true) (PyStr.words s)))
  = join " " (filter (fun w => keep_word stop_words w = true) (PyStr.words s)).
Proof.
  apply strip_join. apply Forall_filter_keep. apply words_go_wordlike. reflexivity.
Qed.

Lemma cleaned_live (text : string) :
  cleaned stop_words text
  = join " " (filter (fun w => keep_word stop_words w = true)
                     (PyStr.words (live_steps text))).
Proof.
  unfold cleaned. cbv zeta. fold blank.
  rewrite newline_step_dead, mention_step_dead, quote_step_dead, strip_step_dead.
  reflexivity.
Qed.

Lemma live_steps_chars (text : string) :
  all_chars (fun c => after_blank c && negb (one_of punctuation c) && negb (is_digit c))
            (live_steps text) = true.
Proof.
  unfold live_steps.
  apply (all_chars_delete (fun c => after_blank c && negb (one_of punctuation c))).
  apply (all_chars_delete after_blank).
  apply all_chars_sub_go. apply all_chars_blank_lower.
Qed.

(** X16.  Four steps of [data_cleaning] never change the text.  The first
    substitution blanks every character outside its class, so neither a
    newline nor an [@] is left for the second and the third; once
    [string.punctuation] is deleted no quote is left for the substitution
    after it; and the joined words have no white space at either end for
    [strip].  So a mention [@name] is not removed: its [@] becomes a space
    and the name stays as a word. *)
Theorem cleaning_has_dead_steps (text : string) :
  let t2 := map_chars blank (PyStr.lower text) in
  let t6 := delete_chars (one_of punctuation) (sub_run "http" is_nonspace t2) in
  let joined :=
    join " " (filter (fun w => keep_word stop_words w = true)
                     (PyStr.words (delete_chars is_digit t6))) in
  map_chars (fun c => if Ascii.eqb c PyStr.newline then " "%char else c) t2 = t2 /\
  sub_run "@" is_word t2 = t2 /\
  delete_chars (fun c => Ascii.eqb c "'") t6 = t6 /\
  strip joined = joined /\
  data_cleaning stop_words stem text = stem joined.
Proof.
  intros t2 t6 joined.
  split; [apply newline_step_dead |]. split; [apply mention_step_dead |].
  split; [apply quote_step_dead |]. split; [apply strip_step_dead |].
  unfold data_cleaning. rewrite cleaned_live. reflexivity.
Qed.

(** X17.  The text handed to the stemmer consists of words joined by
    single spaces; every word has two or more characters, all of them
    lower-case ASCII letters, and is no stop word. *)
Theorem cleaned_text_is_lowercase_words (text : string) :
  exists ws,
    data_cleaning stop_words stem text = stem (join " " ws) /\
    Forall (fun w => 1 < String.length w /\ (w ∉ stop_words) /\
                     all_chars is_lower_letter w = true) ws.
Proof.
  exists (filter (fun w => keep_word stop_words w = true) (PyStr.words (live_steps text))).
  split; [unfold data_cleaning; rewrite cleaned_live; reflexivity |].
  apply Forall_forall. intros w Hw. apply list_elem_of_filter in Hw.
  destruct Hw as [Hkeep Hw]. unfold keep_word in Hkeep.
  apply andb_true_iff in Hkeep. destruct Hkeep as [Hstop Hlen].
  apply bool_decide_eq_true in Hstop. apply Nat.ltb_lt in Hlen.
  split; [exact Hlen |]. split; [exact Hstop |].
  pose proof (words_go_wordlike (live_steps text) EmptyString eq_refl) as Hwl.
  pose proof (words_go_chars _ (live_steps text) (live_steps_chars text) EmptyString eq_refl)
    as Hch.
  rewrite Forall_forall in Hwl, Hch.
  destruct (Hwl w Hw) as [_ Hns]. specialize (Hch w Hw).
  pose proof (all_chars_and _ _ w Hch Hns) as Hboth.
  revert Hboth. apply all_chars_impl. intros c Hc.
  pose proof (letters_remain c) as Hl. rewrite Hc in Hl. exact Hl.
Qed.

End CleaningTheorems.

(** ** Early errors, and the properties at concrete inputs *)

Lemma dropna_all_incomplete (dataset : list row) :
  Forall (fun r => ~ complete r) dataset -> dropna dataset = [].
Proof.
  induction 1 as [| r t Hr _ IH]; [reflexivity |].
  change (r :: t) with ([r] ++ t). rewrite dropna_app, (dropna_incomplete r Hr), IH.
  reflexivity.
Qed.

Section Early.
Context `{PySetOrder} `{TorchRandom}.
Variable data_cleaning : string -> string.
Variable tokenizer : string -> nat -> list Z.

(** X10.  A table none of whose rows is complete, the empty table among
    them, makes [preprocessing_data] raise the [ValueError] of [max()] in
    [get_max_length], once the hierarchy file has been read. *)
Theorem table_without_complete_rows_raises (self : Preprocessor) (dataset : list row)
    (w : world) (text : string) :
  files w !! hierarchy_tree self = Some (TextFile text) ->
  Forall (fun r => ~ complete r) dataset ->
  preprocessing_data data_cleaning tokenizer self dataset w
  = inl (ValueError "max() arg is an empty sequence").
Proof.
  intros Hfile Hrows. unfold preprocessing_data.
  rewrite (dropna_all_incomplete dataset Hrows).
  rewrite with_label_idx_ok, mbind_lift_ok.
  erewrite mbind_ok; [| apply generate_hierarchy_segment_ok; exact Hfile].
  reflexivity.
Qed.

(** X11.  Without the hierarchy file [preprocessing_data] raises
    [FileNotFoundError] for the path [hierarchy_tree], whatever the table
    holds: the file is opened before any row is looked at. *)
Theorem missing_hierarchy_file_raises (self : Preprocessor) (dataset : list row)
    (w : world) :
  files w !! hierarchy_tree self = None ->
  preprocessing_data data_cleaning tokenizer self dataset w
  = inl (FileNotFoundError (hierarchy_tree self)).
Proof.
  intros Hfile. unfold preprocessing_data.
  rewrite with_label_idx_ok, mbind_lift_ok.
  unfold mbind at 1. unfold generate_hierarchy_segment, mbind at 1, read_text.
  rewrite Hfile. reflexivity.
Qed.

End Early.

Lemma table_without_complete_rows_raises_witness :
  @preprocessing_data insertion_order countdown_generator no_cleaning code_tokenizer
    (tree_self [] 1)
    [Row (Some "some text") None (Some "b") (Some "a > b"); Row None None None None]
    (tree_world ("a > b" +:+ nl))
  = inl (ValueError "max() arg is an empty sequence").
Proof.
  apply (@table_without_complete_rows_raises insertion_order countdown_generator
           no_cleaning code_tokenizer (tree_self [] 1)
           [Row (Some "some text") None (Some "b") (Some "a > b"); Row None None None None]
           (tree_world ("a > b" +:+ nl)) ("a > b" +:+ nl)).
  - vm_compute. reflexivity.
  - repeat constructor; intros (_ & [b Hb] & _); discriminate Hb.
Defined.

Lemma missing_hierarchy_file_raises_witness :
  @preprocessing_data insertion_order countdown_generator no_cleaning code_tokenizer
    (tree_self (one_row "some text" "b" "a > b") 1) (one_row "some text" "b" "a > b")
    (@empty_world countdown_generator tt)
  = inl (FileNotFoundError "tree.txt").
Proof.
  apply (@missing_hierarchy_file_raises insertion_order countdown_generator
           no_cleaning code_tokenizer
           (tree_self (one_row "some text" "b" "a > b") 1) (one_row "some text" "b" "a > b")
           (@empty_world countdown_generator tt)).
  vm_compute. reflexivity.
Defined.

Lemma ab_sample_good :
  row_good ab_self (segment_lines ["a > b" +:+ nl]) ab_sample.
Proof.
  split; [vm_compute; lia |].
  intros p c (depth & Hp & Hc) Hu.
  destruct depth as [| [| depth]]; vm_compute in Hp, Hc; try discriminate.
  injection Hp as <-. injection Hc as <-.
  apply Hu. apply list_elem_of_here.
Qed.

Lemma buckets_collect_every_passage_witness :
  for_each (@encode_row insertion_order no_cleaning code_tokenizer ab_self
              (segment_lines ["a > b" +:+ nl])
              (make_parents_idx (segment_lines ["a > b" +:+ nl])) 12)
           [ab_sample]
           (replicate (length (make_parents_idx (segment_lines ["a > b" +:+ nl]))) EmptyList,
            [], [])
  = ok (map (fun k => bucket_of (@bucket_examples insertion_order no_cleaning code_tokenizer
                                   (segment_lines ["a > b" +:+ nl]) 12 k [ab_sample]))
            (PyDict.keys (segment_lines ["a > b" +:+ nl])),
        map (fun data => code_tokenizer (no_cleaning (data_0 data)) 12) [ab_sample],
        map (flat_one_hot ab_self) [ab_sample]).
Proof.
  apply (@buckets_collect_every_passage insertion_order no_cleaning code_tokenizer
           ab_self ["a > b" +:+ nl] 12 [ab_sample]).
  constructor; [exact ab_sample_good | constructor].
Defined.

Lemma later_calls_load_the_first_result_witness :
  exists sets w1,
    @preprocessor insertion_order countdown_generator no_cleaning code_tokenizer
      ab_self ab_world = ok (sets, w1) /\
    @preprocessor insertion_order countdown_generator no_cleaning code_tokenizer
      (tree_self [] 0) w1
    = ok (sets, World _ (files w1) (rng w1)
                  (stdout w1 ++ [nl +:+ "Loading Data..."; "[ Loading Completed ]" +:+ nl])).
Proof.
  destruct (@preprocessor insertion_order countdown_generator no_cleaning code_tokenizer
              ab_self ab_world) as [e | [sets w1]] eqn:Hrun.
  - vm_compute in Hrun. discriminate Hrun.
  - exists sets, w1. split; [reflexivity |].
    exact (@later_calls_load_the_first_result insertion_order countdown_generator
             no_cleaning no_cleaning code_tokenizer code_tokenizer
             ab_self (tree_self [] 0) ab_world w1 sets Hrun).
Defined.

Lemma partial_cache_is_rebuilt_witness :
  @preprocessor insertion_order countdown_generator no_cleaning code_tokenizer
    ab_self half_cached_world
  = match @preprocessing_data insertion_order countdown_generator no_cleaning code_tokenizer
            ab_self (self_dataset ab_self)
            (World _ (files half_cached_world) (rng half_cached_world)
               (stdout half_cached_world ++ [nl +:+ "Preprocessing Data..."])) with
    | inl e => inl e
    | inr (sets, w') =>
        ok (sets, World _ (files w') (rng w')
                    (stdout w' ++ ["[ Preprocessing Completed ]" +:+ nl]))
    end.
Proof.
  apply (@partial_cache_is_rebuilt insertion_order countdown_generator
           no_cleaning code_tokenizer ab_self half_cached_world).
  right. left. vm_compute. reflexivity.
Defined.

Lemma passages_le (k : string) (rows : list sample) :
  passages k rows <= sum_list (map (fun data => length (path_nodes (data_3 data))) rows).
Proof.
  unfold passages. induction rows as [| data rows IH]; [reflexivity |].
  cbn [map sum_list sum_list_with]. unfold id at 1 3.
  apply Nat.add_le_mono; [| exact IH].
  unfold passes. etransitivity; [apply length_filter |].
  unfold adjacent_pairs. rewrite length_zip_with. lia.
Qed.

Lemma preprocessing_data_succeeds_witness :
  exists max_length sets hs w',
    get_max_length (samples_of ab_rows) = ok max_length /\
    @preprocessing_data insertion_order countdown_generator no_cleaning code_tokenizer
      ab_self ab_rows ab_world = ok (sets, w') /\
    files w' = written hs sets (files ab_world) /\
    stdout w' = stdout ab_world /\
    split_of (flat_examples no_cleaning code_tokenizer ab_self max_length (samples_of ab_rows))
             sets /\
    Forall2 (fun k t =>
               split_of (@bucket_examples insertion_order no_cleaning code_tokenizer
                           (segment_lines (PyStr.lines ("a > b" +:+ nl))) max_length k
                           (samples_of ab_rows)) t)
            (PyDict.keys (segment_lines (PyStr.lines ("a > b" +:+ nl)))) hs.
Proof.
  apply (@preprocessing_data_succeeds insertion_order countdown_generator
           no_cleaning code_tokenizer ab_self ab_rows ab_world ("a > b" +:+ nl)).
  - vm_compute. reflexivity.
  - split; [vm_compute; reflexivity |].
    repeat constructor; vm_compute; discriminate.
  - vm_compute. discriminate.
  - constructor; [exact ab_sample_good | constructor].
  - intros k Hk. exists ab_sample, "b". split; [apply list_elem_of_here |].
    apply dict_get_keys in Hk. vm_compute in Hk.
    apply list_elem_of_singleton in Hk. subst k.
    exists 0. split; vm_compute; reflexivity.
  - vm_compute. reflexivity.
  - intros k. eapply Z.le_lt_trans; [apply Nat2Z.inj_le, passages_le |].
    vm_compute. reflexivity.
Defined.

Lemma missing_datasets_directory_raises_witness :
  @preprocessing_data insertion_order countdown_generator no_cleaning code_tokenizer
    ab_self ab_rows bare_tree_world
  = inl (FileNotFoundError hierarchical_path).
Proof.
  apply (@missing_datasets_directory_raises insertion_order countdown_generator
           no_cleaning code_tokenizer ab_self ab_rows bare_tree_world ("a > b" +:+ nl)).
  - vm_compute. reflexivity.
  - vm_compute. reflexivity.
  - vm_compute. discriminate.
  - constructor; [exact ab_sample_good | constructor].
  - intros k Hk. exists ab_sample, "b". split; [apply list_elem_of_here |].
    apply dict_get_keys in Hk. vm_compute in Hk.
    apply list_elem_of_singleton in Hk. subst k.
    exists 0. split; vm_compute; reflexivity.
  - intros k. eapply Z.le_lt_trans; [apply Nat2Z.inj_le, passages_le |].
    vm_compute. reflexivity.
Defined.

Lemma fit_then_test_use_one_split_witness :
  exists a w2,
    (a1 <~ @setup insertion_order countdown_generator no_cleaning code_tokenizer
             ab_self no_attrs (Some "fit") ;;
     @setup insertion_order countdown_generator no_cleaning code_tokenizer
       ab_self a1 (Some "test")) ab_world = ok (a, w2) /\
    is_Some (train_set a) /\ is_Some (valid_set a) /\ is_Some (test_set a).
Proof.
  destruct (@preprocessor insertion_order countdown_generator no_cleaning code_tokenizer
              ab_self ab_world) as [e | [[[train valid] test] w1]] eqn:Hrun.
  - vm_compute in Hrun. discriminate Hrun.
  - destruct (@fit_then_test_use_one_split insertion_order countdown_generator
                no_cleaning code_tokenizer 4 ab_self ab_world w1 train valid test Hrun)
      as (a & w2 & Hsetup & _ & _ & Htr & Hva & Hte).
    exists a, w2. split; [exact Hsetup |].
    unfold train_dataloader in Htr. unfold val_dataloader in Hva.
    unfold test_dataloader in Hte.
    destruct (train_set a); [| discriminate Htr].
    destruct (valid_set a); [| discriminate Hva].
    destruct (test_set a); [| discriminate Hte].
    repeat split; eexists; reflexivity.
Defined.

Lemma loaders_need_their_stage_witness :
  exists a w1,
    @setup insertion_order countdown_generator no_cleaning code_tokenizer
      ab_self no_attrs (Some "validate") ab_world = ok (a, w1) /\
    val_dataloader 4 ab_self a = inl (AttributeError "valid_set").
Proof.
  destruct (@preprocessor insertion_order countdown_generator no_cleaning code_tokenizer
              ab_self ab_world) as [e | [sets w1]] eqn:Hrun.
  - vm_compute in Hrun. discriminate Hrun.
  - destruct (@loaders_need_their_stage insertion_order countdown_generator
                no_cleaning code_tokenizer 4 ab_self (Some "validate") ab_world w1 sets Hrun)
      as (a & Hsetup & _ & Hva & _).
    exists a, w1. split; [exact Hsetup |]. apply Hva. discriminate.
Defined.
